(** * pm5: a shallow embedding of the process supervisor [pm5/pm5.py]

    The supervisor keeps its state in module-level globals ([shutdown],
    [processes], [process_service_map], the [lock] and the JSON lock file)
    and talks to the operating system through [subprocess] and [os].  The
    embedding threads one [World] value holding those globals through a
    state-and-exception monad; every call into the operating system is
    answered by an [OS] oracle indexed by a logical clock, so that a
    theorem quantified over the oracle covers every behaviour of the
    children and of the kernel.  Each function below follows the Python
    function of the same name statement by statement. *)

From stdpp Require Import gmap strings list.
From Stdlib Require Import ZArith Lia.

Local Open Scope Z_scope.

(** ** Data *)

(** Signals used by the supervisor; [SIG0] is the null signal of
    [os.killpg(pid, 0)]. *)
Inductive signal := SIG0 | SIGINT | SIGTERM | SIGKILL.

(** Python exceptions that cross a function boundary in [pm5.py]. *)
Inductive exn :=
| ProcessLookupError
| PermissionError
| FileNotFoundError
| OSError
| TimeoutExpired
| TypeError
| OverflowError
| UnicodeDecodeError
| SystemExit (status : Z).

(** The ways in which [killpg(3)] and [getpgid(2)] fail.  Python turns
    [ESRCH] into [ProcessLookupError] and [EPERM] into [PermissionError];
    [EINVAL], the answer to a process-group number that the system does
    not accept (a negative one), stays a plain [OSError]. *)
Inductive errno := ESRCH | EPERM | EINVAL.

Definition OSError_of (c : errno) : exn :=
  match c with
  | ESRCH => ProcessLookupError
  | EPERM => PermissionError
  | EINVAL => OSError
  end.

(** [except Exception] catches every class above but [SystemExit]. *)
Definition is_Exception (e : exn) : bool :=
  match e with SystemExit _ => false | _ => true end.

(** A [subprocess.Popen] object: [obj] is the identity of the Python object
    (Popen defines no [__eq__], so [in] and [list.remove] compare
    identities), [pid] the process identifier chosen by the kernel. *)
Record Popen := mkPopen { obj : nat; pid : Z }.

Definition same_object (p q : Popen) : bool := Nat.eqb (obj p) (obj q).

(** One entry of [config["services"]].  A field read with [service.get]
    is optional; [interpreter], [script] and [name] are read with
    [service[...]].  An empty [script] stands for a falsy value. *)
Record Service := mkService {
  name : string;
  interpreter : string;
  interpreter_args : option (list string);
  script : string;
  args : option (list string);
  env : option (list (string * string));
  cwd : option string;
  instances : option Z;
  disabled : option bool;
  wait_ready : option bool;
  autorestart : option bool;
  max_restarts : option Z
}.

(** [service.get(key, dflt)] on an optional field. *)
Definition get {A} (field : option A) (dflt : A) : A :=
  match field with Some v => v | None => dflt end.

(** What [json.load] returns: [None], a [bool], an [int], a [float]
    (whose value no code of the supervisor looks at), a [str], a [list],
    or a [dict] given by its items in order. *)
#[warnings="-register-all"]
Inductive json :=
| JNull
| JBool (b : bool)
| JInt (n : Z)
| JFloat
| JString (s : string)
| JArray (items : list json)
| JObject (members : list (string * json)).

(** Contents of [LOCK_FILE] as [read_lock_file] meets them: no file; a
    file that [open] refuses to read (no read permission) but that can be
    replaced and removed; bytes that are not text in the encoding of
    [open]; text that is not JSON; a JSON array of integers, which is what
    the supervisor itself writes; any other JSON document. *)
Inductive lock_content :=
| Absent
| Unreadable
| Undecodable
| Garbled
| Pids (pids : list Z)
| Json (v : json).

Inductive level := DEBUG | INFO | WARNING | ERROR.

(** One constructor per [logger] call site, carrying the values that the
    f-string interpolates. *)
Inductive message :=
| MsgStarting (instance_id : Z) (service_name : string)
              (command : list string) (p : Z) (dir : string)
| MsgExitedWithError (instance_id : Z) (service_name : string) (code : Z)
| MsgRestarting (instance_id : Z) (service_name : string) (restart : Z)
| MsgExceeded (instance_id : Z) (service_name : string) (max : Z)
| MsgNotRestarted (instance_id : Z) (service_name : string)
| MsgShuttingDown
| MsgSending (sig : signal) (pgid : Z) (service_name : string)
| MsgErrorSending (sig : signal) (pgid : Z) (service_name : string) (e : exn)
| MsgCleaningUp
| MsgDidNotTerminate (p : Z) (service_name : string)
| MsgCleanupComplete
| MsgTerminating
| MsgStillRunning (p : Z)
| MsgTerminatingExisting (item : json)
| MsgNoProcessGroup (item : json)
| MsgPermissionDenied (item : json)
| MsgManagerPid
| MsgDisabled (service_name : string)
| MsgNoServices.

(** Everything the supervisor does that an observer can see, in the order
    in which it happens. *)
Inductive event :=
| EvLog (lvl : level) (m : message)
| EvSignalHandler (sig : signal)
| EvPopen (command : list string) (dir : string) (result : exn + Z)
| EvKillpg (pgid : Z) (sig : signal) (result : option errno)
| EvSleep (seconds : Z)
| EvWait (p : Z) (timeout : option Z) (result : option Z)
| EvThread (service_name : string) (p : Z) (instance_id : Z)
| EvWriteLock (pids : list Z)
| EvWriteJson (v : json)
| EvRemoveLock.

(** The module globals of [pm5.py], the mutable part of the Popen objects
    ([returncode]), the lock file, and the bookkeeping of the embedding
    (the next fresh object identity, the logical clock read by the oracle
    and the trace of events so far). *)
Record World := mkWorld {
  shutdown : bool;
  processes : list Popen;
  process_service_map : gmap Z string;
  lock_held : bool;
  lock_file : lock_content;
  returncodes : gmap nat Z;
  next_obj : nat;
  clock : nat;
  trace : list event
}.

(** The operating system as seen from the supervisor.  Every answer may
    depend on the logical time of the call. *)
Record OS := mkOS {
  os_cpu_count : option Z;
  os_environ : list (string * string);
  os_getcwd : string;
  (** [subprocess.Popen(...)]: an exception or the pid of the child *)
  os_popen : nat -> list string -> list (string * string) -> string -> exn + Z;
  (** [os.getpgid(pid)] *)
  os_getpgid : nat -> Z -> errno + Z;
  (** [os.killpg(pgid, sig)]: [None] when the signal was delivered *)
  os_killpg : nat -> Z -> signal -> option errno;
  (** [Popen.wait()] without timeout: [None] when the child never exits *)
  os_wait : nat -> Popen -> option Z;
  (** [Popen.wait(timeout)]: [None] when the timeout expires *)
  os_wait_timeout : nat -> Popen -> Z -> option Z;
  (** [Popen.poll()]: [None] while the child runs *)
  os_poll : nat -> Popen -> option Z;
  (** the process group of the supervisor itself *)
  os_getpgrp : Z
}.

(** ** The monad of supervisor code *)

(** How a piece of code can fail to return: a Python exception, the
    death of the whole supervisor through [os._exit], a thread that
    stays blocked for ever (a [wait()] on a child that never exits, or a
    second [acquire] of the non-reentrant [lock]), or a signal that the
    code has sent to the supervisor itself: from there on the disposition
    of the signal decides ([handle_exit] once [main] has registered it),
    not the code that sent it. *)
Inductive abort :=
| Raised (e : exn)
| OsExit (status : Z)
| Blocked
| Interrupted (sig : signal).

Definition M (A : Type) : Type := World -> (abort + A) * World.

Definition ret {A} (a : A) : M A := fun w => (inr a, w).

Definition bind {A B} (c : M A) (k : A -> M B) : M B := fun w =>
  match c w with
  | (inr a, w') => k a w'
  | (inl f, w') => (inl f, w')
  end.

Definition raise {A} (e : exn) : M A := fun w => (inl (Raised e), w).

Definition os_exit {A} (status : Z) : M A := fun w => (inl (OsExit status), w).

(** The supervisor has sent itself the signal [sig]. *)
Definition interrupted {A} (sig : signal) : M A :=
  fun w => (inl (Interrupted sig), w).

Declare Scope pm5_scope.
Delimit Scope pm5_scope with pm5.
Notation "'let!' x ':=' c 'in' k" := (bind c (fun x => k))
  (at level 10, x name, c at level 100, k at level 200) : pm5_scope.
Notation "c >> k" := (bind c (fun _ => k))
  (at level 100, k at level 200, right associativity) : pm5_scope.
Local Open Scope pm5_scope.

(** [try: body except <classes matched by handles> as e: handler e] *)
Definition try_except {A} (body : M A) (handles : exn -> bool)
    (handler : exn -> M A) : M A := fun w =>
  match body w with
  | (inl (Raised e), w') =>
      if handles e then handler e w' else (inl (Raised e), w')
  | r => r
  end.

(** [for x in xs: body x] *)
Fixpoint for_each {A} (xs : list A) (body : A -> M unit) : M unit :=
  match xs with
  | [] => ret tt
  | x :: xs' => body x >> for_each xs' body
  end.

(** A [for] loop that updates local variables, gathered in [s]. *)
Fixpoint for_fold {A S} (xs : list A) (s : S) (body : A -> S -> M S) : M S :=
  match xs with
  | [] => ret s
  | x :: xs' => let! s' := body x s in for_fold xs' s' body
  end.

(** [range(n)] *)
Definition range (n : Z) : list Z := map Z.of_nat (seq 0 (Z.to_nat n)).

(** [when c body] is [if c: body]. *)
Definition when (c : bool) (body : M unit) : M unit :=
  if c then body else ret tt.

(** *** Field updates *)

Definition set_shutdown (b : bool) (w : World) : World :=
  mkWorld b (processes w) (process_service_map w) (lock_held w)
          (lock_file w) (returncodes w) (next_obj w) (clock w) (trace w).

Definition set_processes (l : list Popen) (w : World) : World :=
  mkWorld (shutdown w) l (process_service_map w) (lock_held w)
          (lock_file w) (returncodes w) (next_obj w) (clock w) (trace w).

Definition set_process_service_map (m : gmap Z string) (w : World) : World :=
  mkWorld (shutdown w) (processes w) m (lock_held w)
          (lock_file w) (returncodes w) (next_obj w) (clock w) (trace w).

Definition set_lock_held (b : bool) (w : World) : World :=
  mkWorld (shutdown w) (processes w) (process_service_map w) b
          (lock_file w) (returncodes w) (next_obj w) (clock w) (trace w).

Definition set_lock_file (c : lock_content) (w : World) : World :=
  mkWorld (shutdown w) (processes w) (process_service_map w) (lock_held w)
          c (returncodes w) (next_obj w) (clock w) (trace w).

Definition set_returncodes (m : gmap nat Z) (w : World) : World :=
  mkWorld (shutdown w) (processes w) (process_service_map w) (lock_held w)
          (lock_file w) m (next_obj w) (clock w) (trace w).

Definition set_next_obj (n : nat) (w : World) : World :=
  mkWorld (shutdown w) (processes w) (process_service_map w) (lock_held w)
          (lock_file w) (returncodes w) n (clock w) (trace w).

(** An operating-system call takes one unit of logical time. *)
Definition tick (w : World) : World :=
  mkWorld (shutdown w) (processes w) (process_service_map w) (lock_held w)
          (lock_file w) (returncodes w) (next_obj w) (S (clock w)) (trace w).

Definition emit (e : event) (w : World) : World :=
  mkWorld (shutdown w) (processes w) (process_service_map w) (lock_held w)
          (lock_file w) (returncodes w) (next_obj w) (clock w)
          (trace w ++ [e]).

Definition modify (f : World -> World) : M unit := fun w => (inr tt, f w).

Definition read {A} (f : World -> A) : M A := fun w => (inr (f w), w).

Definition logger (lvl : level) (m : message) : M unit :=
  modify (emit (EvLog lvl m)).

(** ** Primitives: the operating system, the Popen objects, the lock *)

Section Supervisor.

Variable os : OS.

(** [subprocess.Popen(command, env=env, cwd=cwd, preexec_fn=os.setsid)]
    creates a fresh Python object around the pid given by the kernel, or
    raises. *)
Definition subprocess_Popen (command : list string)
    (environ : list (string * string)) (dir : string) : M Popen := fun w =>
  let r := os_popen os (clock w) command environ dir in
  let w1 := tick (emit (EvPopen command dir r) w) in
  match r with
  | inl e => (inl (Raised e), w1)
  | inr child => (inr (mkPopen (next_obj w) child),
                  set_next_obj (S (next_obj w)) w1)
  end.

Definition getpgid (p : Z) : M Z := fun w =>
  match os_getpgid os (clock w) p with
  | inl c => (inl (Raised (OSError_of c)), tick w)
  | inr g => (inr g, tick w)
  end.

Definition killpg (pgid : Z) (sig : signal) : M unit := fun w =>
  let r := os_killpg os (clock w) pgid sig in
  let w1 := tick (emit (EvKillpg pgid sig r) w) in
  match r with
  | Some c => (inl (Raised (OSError_of c)), w1)
  | None => (inr tt, w1)
  end.

Definition sleep (seconds : Z) : M unit := modify (emit (EvSleep seconds)).

(** [process.returncode]: [None] until a [wait] or [poll] has seen the
    child exit. *)
Definition returncode (process : Popen) : M (option Z) :=
  read (fun w => returncodes w !! obj process).

(** [process.wait()]: returns at once when [returncode] is already set,
    otherwise blocks until the child exits and records its status. *)
Definition wait (process : Popen) : M Z := fun w =>
  match returncodes w !! obj process with
  | Some c => (inr c, w)
  | None =>
      let r := os_wait os (clock w) process in
      let w1 := tick (emit (EvWait (pid process) None r) w) in
      match r with
      | Some c => (inr c, set_returncodes (<[obj process := c]> (returncodes w)) w1)
      | None => (inl Blocked, w1)
      end
  end.

(** [process.wait(timeout=t)] *)
Definition wait_timeout (process : Popen) (t : Z) : M Z := fun w =>
  match returncodes w !! obj process with
  | Some c => (inr c, w)
  | None =>
      let r := os_wait_timeout os (clock w) process t in
      let w1 := tick (emit (EvWait (pid process) (Some t) r) w) in
      match r with
      | Some c => (inr c, set_returncodes (<[obj process := c]> (returncodes w)) w1)
      | None => (inl (Raised TimeoutExpired), w1)
      end
  end.

(** [process.poll()] *)
Definition poll (process : Popen) : M (option Z) := fun w =>
  match returncodes w !! obj process with
  | Some c => (inr (Some c), w)
  | None =>
      match os_poll os (clock w) process with
      | Some c => (inr (Some c),
                   set_returncodes (<[obj process := c]> (returncodes w)) (tick w))
      | None => (inr None, tick w)
      end
  end.

(** [with lock: body].  The lock is a plain [threading.Lock]: taking it
    while it is held blocks.  It is released when the body returns or
    raises, but not when the body ends the process or blocks. *)
Definition with_lock {A} (body : M A) : M A := fun w =>
  if lock_held w then (inl Blocked, w)
  else
    match body (set_lock_held true w) with
    | (inl (OsExit s), w') => (inl (OsExit s), w')
    | (inl Blocked, w') => (inl Blocked, w')
    | (r, w') => (r, set_lock_held false w')
    end.

(** [process in processes] *)
Definition contains (process : Popen) (l : list Popen) : bool :=
  existsb (same_object process) l.

(** [processes.remove(process)]: drops the first occurrence. *)
Fixpoint remove (process : Popen) (l : list Popen) : list Popen :=
  match l with
  | [] => []
  | q :: l' => if same_object process q then l' else q :: remove process l'
  end.

(** [env.update(overrides)] on an environment kept as an association
    list: an existing key keeps its place, a new key goes to the end. *)
Fixpoint env_set (k v : string) (e : list (string * string))
  : list (string * string) :=
  match e with
  | [] => [(k, v)]
  | (k', v') :: e' =>
      if String.eqb k k' then (k, v) :: e' else (k', v') :: env_set k v e'
  end.

Definition env_update (e overrides : list (string * string))
  : list (string * string) :=
  fold_left (fun acc kv => env_set (fst kv) (snd kv) acc) overrides e.

(** ** The lock file *)

(** [read_lock_file]: a missing file and a [JSONDecodeError] both give the
    empty list.  Nothing else is caught: an [open] that is refused and a
    file that is not text raise, and a JSON document of any shape is
    returned as it is. *)
Definition read_lock_file : M json := fun w =>
  match lock_file w with
  | Absent => (inr (JArray []), w)
  | Unreadable => (inl (Raised PermissionError), w)
  | Undecodable => (inl (Raised UnicodeDecodeError), w)
  | Garbled => (inr (JArray []), w)
  | Pids l => (inr (JArray (map JInt l)), w)
  | Json v => (inr v, w)
  end.

(** [json.dump(pids, open(LOCK_FILE, "w"))] *)
Definition write_lock_file (pids : list Z) : M unit :=
  modify (fun w => emit (EvWriteLock pids) (set_lock_file (Pids pids) w)).

(** [update_lock_file] *)
Definition update_lock_file : M unit :=
  let! l := read processes in
  write_lock_file (map pid l).

(** [clear_lock_file] *)
Definition clear_lock_file : M unit := fun w =>
  match lock_file w with
  | Absent => (inr tt, w)
  | _ => (inr tt, emit EvRemoveLock (set_lock_file Absent w))
  end.

(** ** [start_service] *)

(** The argument vector: interpreter, interpreter arguments, the script
    when there is one, then the service arguments. *)
Definition service_command (service : Service) : list string :=
  let command := interpreter service :: get (interpreter_args service) [] in
  let command :=
    if String.eqb (script service) EmptyString then command
    else command ++ [script service] in
  command ++ get (args service) [].

(** [os.environ.copy()] updated with the overrides of the service. *)
Definition service_environ (service : Service) : list (string * string) :=
  env_update (os_environ os) (get (env service) []).

(** [service.get("cwd", os.getcwd())] *)
Definition service_dir (service : Service) : string :=
  get (cwd service) (os_getcwd os).

Definition start_service (service : Service) (instance_id : Z) : M Popen :=
  let command := service_command service in
  let environ := service_environ service in
  let dir := service_dir service in
  let! process := subprocess_Popen command environ dir in
  with_lock (
    modify (fun w => set_processes (processes w ++ [process]) w) >>
    modify (fun w => set_process_service_map
                       (<[pid process := name service]> (process_service_map w)) w) >>
    update_lock_file) >>
  logger INFO (MsgStarting instance_id (name service) command (pid process) dir) >>
  ret process.

(** ** [cleanup_processes] and [handle_exit] *)

(** [process_service_map.get(process.pid, "Unknown service")] *)
Definition service_name_of (process : Popen) : M string :=
  read (fun w => get (process_service_map w !! pid process) "Unknown service"%string).

(** The [try]/[except Exception] block that both signalling loops of
    [cleanup_processes] contain, once with SIGTERM and once with SIGKILL.
    [os.getpgid] is evaluated for the log line, again for [os.killpg],
    and a third time inside the handler for the error line. *)
Definition signal_group (sig : signal) (process : Popen)
    (service_name : string) : M unit :=
  try_except
    (let! g := getpgid (pid process) in
     logger INFO (MsgSending sig g service_name) >>
     let! g' := getpgid (pid process) in
     killpg g' sig)
    is_Exception
    (fun e =>
       let! g := getpgid (pid process) in
       logger INFO (MsgErrorSending sig g service_name e)).

Definition is_TimeoutExpired (e : exn) : bool :=
  match e with TimeoutExpired => true | _ => false end.

(** The body of [with lock:] in [cleanup_processes]. *)
Definition kill_sequence : M unit :=
  let! ps := read processes in
  for_each ps (fun process =>
    let! service_name := service_name_of process in
    signal_group SIGTERM process service_name) >>
  logger INFO MsgCleaningUp >>
  sleep 1 >>
  let! ps := read processes in
  for_each ps (fun process =>
    let! service_name := service_name_of process in
    let! status := poll process in
    match status with
    | None => signal_group SIGKILL process service_name
    | Some _ => ret tt
    end) >>
  let! ps := read processes in
  for_each ps (fun process =>
    try_except
      (wait_timeout process 5 >> ret tt)
      is_TimeoutExpired
      (fun _ =>
         let! service_name := service_name_of process in
         logger WARNING (MsgDidNotTerminate (pid process) service_name))) >>
  clear_lock_file.

Definition cleanup_processes : M unit :=
  let! down := read shutdown in
  if down then logger WARNING MsgShuttingDown
  else
    modify (set_shutdown true) >>
    with_lock kill_sequence >>
    logger INFO MsgCleanupComplete.

Definition handle_exit (signum : signal) : M unit :=
  let! down := read shutdown in
  if down then ret tt
  else
    logger INFO MsgTerminating >>
    cleanup_processes >>
    with_lock (
      let! ps := read processes in
      when (0 <? Z.of_nat (length ps))
        (for_each ps (fun process =>
           let! status := poll process in
           match status with
           | None =>
               logger WARNING (MsgStillRunning (pid process)) >>
               let! g := getpgid (pid process) in
               killpg g SIGKILL
           | Some _ => ret tt
           end))) >>
    os_exit 1.

(** ** [monitor_service] *)

(** What one turn of the [while] loop decides: [break], or another turn
    with the current values of the locals [restarts] and [process]. *)
Inductive loop_ctl :=
| Break
| Next (restarts : Z) (process : Popen).

(** [process.returncode != 0] *)
Definition failed (rc : option Z) : bool :=
  match rc with Some 0 => false | _ => true end.

(** The critical section at the top of the loop body. *)
Definition forget_process (process : Popen) : M unit :=
  with_lock (
    let! ps := read processes in
    when (contains process ps)
      (modify (fun w => set_processes (remove process (processes w)) w) >>
       update_lock_file)).

(** The [if]/[elif]/[else] chain that ends the loop body; [rc] is
    [process.returncode]. *)
Definition monitor_decide (service : Service) (instance_id max_restarts : Z)
    (restarts : Z) (process : Popen) (rc : option Z) : M loop_ctl :=
  if (restarts <? max_restarts) && get (autorestart service) false then
    logger INFO (MsgRestarting instance_id (name service) (restarts + 1)) >>
    let! process' := start_service service instance_id in
    ret (Next (restarts + 1) process')
  else if restarts =? max_restarts then
    when (failed rc)
      (logger WARNING (MsgExceeded instance_id (name service) max_restarts) >>
       handle_exit SIGTERM) >>
    ret (Next restarts process)
  else
    when (failed rc)
      (logger ERROR (MsgNotRestarted instance_id (name service))) >>
    ret Break.

(** The body of the [while] loop of [monitor_service]. *)
Definition monitor_body (service : Service) (instance_id max_restarts : Z)
    (restarts : Z) (process : Popen) : M loop_ctl :=
  wait process >>
  forget_process process >>
  let! down := read shutdown in
  if down then ret Break
  else
    let! rc := returncode process in
    when (failed rc)
      (logger ERROR (MsgExitedWithError instance_id (name service) (get rc 0))) >>
    monitor_decide service instance_id max_restarts restarts process rc.

(** The [while restarts <= max_restarts and not shutdown] loop.  [fuel]
    bounds the number of turns.  The result is [Some r] when the function
    is left with [r], and [None] when the loop is still running after
    [fuel] turns; the world reached is returned in both cases. *)
Fixpoint monitor_loop (fuel : nat) (service : Service)
    (instance_id max_restarts restarts : Z) (process : Popen) (w : World)
  : option (abort + unit) * World :=
  if (restarts <=? max_restarts) && negb (shutdown w) then
    match fuel with
    | O => (None, w)
    | S fuel' =>
        match monitor_body service instance_id max_restarts restarts process w with
        | (inl a, w') => (Some (inl a), w')
        | (inr Break, w') => (Some (inr tt), w')
        | (inr (Next restarts' process'), w') =>
            monitor_loop fuel' service instance_id max_restarts restarts' process' w'
        end
    end
  else (Some (inr tt), w).

Definition monitor_service (fuel : nat) (service : Service) (process : Popen)
    (instance_id : Z) : World -> option (abort + unit) * World :=
  monitor_loop fuel service instance_id (get (max_restarts service) 0) 0 process.

(** ** [terminate_existing_processes] *)

Definition is_lookup_or_permission (e : exn) : bool :=
  match e with
  | ProcessLookupError | PermissionError => true
  | _ => false
  end.

(** [for pid in pids]: the objects that the loop visits.  A list gives
    its elements, a dict its keys and a str its characters; [None], a
    bool and a number cannot be iterated. *)
Definition iterate (v : json) : M (list json) :=
  match v with
  | JArray items => ret items
  | JObject members => ret (map (fun kv => JString (fst kv)) members)
  | JString s =>
      ret (map (fun c => JString (String c EmptyString)) (String.list_ascii_of_string s))
  | JNull | JBool _ | JInt _ | JFloat => raise TypeError
  end.

(** The range of a C [pid_t]. *)
Definition in_pid_range (p : Z) : bool :=
  (-2147483648 <=? p) && (p <=? 2147483647).

(** The conversion of the first argument of [os.killpg] to a [pid_t]: an
    [int] must be in range, a [bool] counts as 0 or 1, and no other object
    is accepted. *)
Definition as_pid (item : json) : M Z :=
  match item with
  | JInt n => if in_pid_range n then ret n else raise OverflowError
  | JBool b => ret (if b then 1 else 0)
  | _ => raise TypeError
  end.

(** A signal sent to this group reaches the supervisor itself: group 0
    stands for the group of the caller. *)
Definition own_group (pgid : Z) : bool :=
  (pgid =? 0) || (pgid =? os_getpgrp os).

(** [os.killpg(item, sig)] on an object read from the lock file.  The
    groups of the tracked children are their own (they are started with
    [os.setsid]), but an identifier of the lock file can be anything:
    when a signal other than the null signal is delivered to the group of
    the supervisor, the supervisor has signalled itself. *)
Definition killpg_item (item : json) (sig : signal) : M unit :=
  let! pgid := as_pid item in
  killpg pgid sig >>
  match sig with
  | SIG0 => ret tt
  | _ => if own_group pgid then interrupted sig else ret tt
  end.

(** The body of [for pid in pids], with the local [active_pids] passed in
    and returned. *)
Definition terminate_one (item : json) (active_pids : list json)
  : M (list json) :=
  try_except
    (killpg_item item SIG0 >>
     logger INFO (MsgTerminatingExisting item) >>
     killpg_item item SIGTERM >>
     ret (active_pids ++ [item]))
    is_lookup_or_permission
    (fun e =>
       match e with
       | ProcessLookupError =>
           logger WARNING (MsgNoProcessGroup item) >> ret active_pids
       | _ =>
           logger WARNING (MsgPermissionDenied item) >> ret active_pids
       end).

(** The integers of a list that holds nothing else. *)
Fixpoint integers (items : list json) : option (list Z) :=
  match items with
  | [] => Some []
  | JInt n :: items' => option_map (cons n) (integers items')
  | _ :: _ => None
  end.

(** [json.dump(active_pids, open(LOCK_FILE, "w"))]; every object of
    [active_pids] has passed [os.killpg], so it is an [int] or a
    [bool]. *)
Definition dump_lock_file (active_pids : list json) : M unit :=
  match integers active_pids with
  | Some pids => write_lock_file pids
  | None =>
      modify (fun w => emit (EvWriteJson (JArray active_pids))
                         (set_lock_file (Json (JArray active_pids)) w))
  end.

Definition terminate_existing_processes : M unit :=
  let! pids := read_lock_file in
  let! items := iterate pids in
  let! active_pids := for_fold items [] terminate_one in
  match active_pids with
  | [] => clear_lock_file
  | _ :: _ => dump_lock_file active_pids
  end.

(** ** [main] *)

(** [Thread(target=monitor_service, args=(service, process, i)).start()]:
    the monitor runs on a thread of its own; here its creation is
    recorded. *)
Definition thread_start (service : Service) (process : Popen) (i : Z) : M unit :=
  modify (emit (EvThread (name service) (pid process) i)).

(** The local [instances] when the inner loop starts: the configured
    count, replaced when negative by the processor count less its
    absolute value, at least 1.  [os.cpu_count()] may be [None], and the
    subtraction then raises. *)
Definition instance_count (total_cpus : option Z) (service : Service) : M Z :=
  let n := get (instances service) 1 in
  if n <? 0 then
    match total_cpus with
    | Some cpus => ret (Z.max 1 (cpus - Z.abs n))
    | None => raise TypeError
    end
  else ret n.

(** The body of [for i in range(instances)]. *)
Definition launch_instance (service : Service) (i : Z) (_ : bool) : M bool :=
  let! process := start_service service i in
  when (get (wait_ready service) false) (thread_start service process i) >>
  ret true.

(** The body of [for service in services]; the local [services_started]
    is passed in and returned. *)
Definition main_service (total_cpus : option Z) (service : Service)
    (services_started : bool) : M bool :=
  if get (disabled service) false then
    logger INFO (MsgDisabled (name service)) >> ret services_started
  else
    let! n := instance_count total_cpus service in
    for_fold (range n) services_started (launch_instance service).

(** The part of [main] that follows the reading of the configuration:
    the start-up loop and the check that something was started.  A normal
    return stands for reaching the idle loop [while True: time.sleep(1)],
    which only a signal leaves. *)
Definition main_startup (services : list Service) : M unit :=
  let total_cpus := os_cpu_count os in
  let! services_started :=
    for_fold services false (main_service total_cpus) in
  if negb services_started then
    logger ERROR MsgNoServices >> raise (SystemExit 1)
  else ret tt.

(** [main], with [services] standing for [read_config(...)["services"]]. *)
Definition main (services : list Service) : M unit :=
  logger DEBUG MsgManagerPid >>
  modify (emit (EvSignalHandler SIGTERM)) >>
  modify (emit (EvSignalHandler SIGINT)) >>
  terminate_existing_processes >>
  main_startup services.

End Supervisor.

(** * Observations and specifications *)

(** ** Observations on traces *)

(** The events that a run from [w] to [w'] added to the trace. *)
Definition new_events (w w' : World) : list event :=
  drop (length (trace w)) (trace w').

Definition is_spawn (ev : event) : bool :=
  match ev with EvPopen _ _ _ => true | _ => false end.

Definition is_launch (ev : event) : bool :=
  match ev with EvPopen _ _ (inr _) => true | _ => false end.

Definition is_kill (ev : event) : bool :=
  match ev with EvKillpg _ _ _ => true | _ => false end.

Definition is_thread (ev : event) : bool :=
  match ev with EvThread _ _ _ => true | _ => false end.

(** The numbers announced by the "Restarting instance ... (Restart n)"
    lines, in order. *)
Fixpoint restart_numbers (evs : list event) : list Z :=
  match evs with
  | [] => []
  | EvLog INFO (MsgRestarting _ _ n) :: evs' => n :: restart_numbers evs'
  | _ :: evs' => restart_numbers evs'
  end.

Definition count (f : event -> bool) (evs : list event) : nat :=
  length (List.filter f evs).

(** [extends Q w w']: from [w] to [w'] the trace grew by events that all
    satisfy [Q], and the shutdown flag was not reset. *)
Definition extends (Q : event -> Prop) (w w' : World) : Prop :=
  (shutdown w = true -> shutdown w' = true) /\
  exists evs, trace w' = trace w ++ evs /\ Forall Q evs.

(** [emits Q c]: whatever the world it starts from and however it ends,
    [c] only adds events satisfying [Q]. *)
Definition emits {A} (Q : event -> Prop) (c : M A) : Prop :=
  forall w, extends Q w (snd (c w)).


(** The events of a shutdown by [cleanup_processes] or [handle_exit]. *)
Definition shutdown_event (ev : event) : Prop :=
  match ev with
  | EvLog _ m =>
      match m with
      | MsgShuttingDown | MsgSending _ _ _ | MsgErrorSending _ _ _ _
      | MsgCleaningUp | MsgDidNotTerminate _ _ | MsgCleanupComplete
      | MsgTerminating | MsgStillRunning _ => True
      | _ => False
      end
  | EvKillpg _ SIGTERM _ | EvKillpg _ SIGKILL _ => True
  | EvSleep _ | EvWait _ (Some _) _ | EvRemoveLock => True
  | _ => False
  end.

(** The world that a successful [start_service] leaves: the new object
    at the end of the table, its name in the map, the pids of the table
    in the lock file. *)
Definition after_launch (os : OS) (service : Service) (instance_id : Z)
    (child : Z) (w : World) : World :=
  let process := mkPopen (next_obj w) child in
  mkWorld (shutdown w)
          (processes w ++ [process])
          (<[child := name service]> (process_service_map w))
          false
          (Pids (map pid (processes w ++ [process])))
          (returncodes w)
          (S (next_obj w))
          (S (clock w))
          (trace w ++
             [EvPopen (service_command service) (service_dir os service) (inr child);
              EvWriteLock (map pid (processes w ++ [process]));
              EvLog INFO (MsgStarting instance_id (name service)
                            (service_command service) child
                            (service_dir os service))]).

(** The world that [forget_process] leaves when the lock is free. *)
Definition after_forget (process : Popen) (w : World) : World :=
  if contains process (processes w) then
    mkWorld (shutdown w)
            (remove process (processes w))
            (process_service_map w)
            false
            (Pids (map pid (remove process (processes w))))
            (returncodes w)
            (next_obj w)
            (clock w)
            (trace w ++ [EvWriteLock (map pid (remove process (processes w)))])
  else w.

(** The state in which the loop of [monitor_service] turns for ever: the
    process has exited with status 0, nobody has asked for shutdown. *)
Definition spinning (process : Popen) (w : World) : Prop :=
  shutdown w = false /\ lock_held w = false /\
  returncodes w !! obj process = Some 0.

(** ** Crash recovery *)

(** The identifiers that a lock file written by the supervisor lists. *)
Definition persisted (w : World) : list Z :=
  match lock_file w with
  | Pids l => l
  | _ => []
  end.

(** The two errors that the loop of crash recovery catches. *)
Definition caught (c : errno) : bool :=
  match c with ESRCH | EPERM => true | EINVAL => false end.

(** The warning logged for an identifier that is dropped, for an error
    that is caught. *)
Definition dropped_warning (c : errno) (p : Z) : message :=
  match c with
  | ESRCH => MsgNoProcessGroup (JInt p)
  | _ => MsgPermissionDenied (JInt p)
  end.

(** An identifier that crash recovery can use as a process group: it fits
    a [pid_t], it is not the group of the supervisor, and the system
    never answers it with [EINVAL]. *)
Definition sound_id (os : OS) (p : Z) : Prop :=
  in_pid_range p = true /\ own_group os p = false /\
  forall t sig, os_killpg os t p sig <> Some EINVAL.

(** A lock file as the supervisor leaves it: none, or a list of such
    identifiers; text that is not JSON is read as the empty list. *)
Definition sound_registry (os : OS) (w : World) : Prop :=
  match lock_file w with
  | Absent | Garbled => True
  | Pids l => Forall (sound_id os) l
  | Unreadable | Undecodable | Json _ => False
  end.

(** [recovery pids evs active]: what crash recovery does with the
    persisted identifiers [pids], one after the other.  An identifier is
    either probed and sent SIGTERM, both with success, and kept; or its
    probe fails and it is dropped with a warning; or its probe succeeds,
    SIGTERM fails and it is dropped with a warning.  [evs] are the events
    in order and [active] the identifiers kept. *)
Inductive recovery : list Z -> list event -> list Z -> Prop :=
| recovery_nil : recovery [] [] []
| recovery_signalled p pids evs active :
    recovery pids evs active ->
    recovery (p :: pids)
             (EvKillpg p SIG0 None :: EvLog INFO (MsgTerminatingExisting (JInt p)) ::
              EvKillpg p SIGTERM None :: evs)
             (p :: active)
| recovery_dropped p c pids evs active :
    caught c = true ->
    recovery pids evs active ->
    recovery (p :: pids)
             (EvKillpg p SIG0 (Some c) :: EvLog WARNING (dropped_warning c p) :: evs)
             active
| recovery_lost p c pids evs active :
    caught c = true ->
    recovery pids evs active ->
    recovery (p :: pids)
             (EvKillpg p SIG0 None :: EvLog INFO (MsgTerminatingExisting (JInt p)) ::
              EvKillpg p SIGTERM (Some c) ::
              EvLog WARNING (dropped_warning c p) :: evs)
             active.

(** What the end of [terminate_existing_processes] does to the lock
    file: rewritten with the identifiers kept, or removed when none is
    kept (and nothing at all when there was no file). *)
Definition repersist_events (before : lock_content) (active : list Z) : list event :=
  match active with
  | _ :: _ => [EvWriteLock active]
  | [] => match before with Absent => [] | _ => [EvRemoveLock] end
  end.

Definition repersisted (active : list Z) : lock_content :=
  match active with
  | _ :: _ => Pids active
  | [] => Absent
  end.

(** [untouched w w']: only the clock and the trace differ. *)
Definition untouched (w w' : World) : Prop :=
  shutdown w' = shutdown w /\ processes w' = processes w /\
  process_service_map w' = process_service_map w /\
  lock_held w' = lock_held w /\ lock_file w' = lock_file w /\
  returncodes w' = returncodes w /\ next_obj w' = next_obj w.


(** The first three events of [main]. *)
Definition main_prologue : list event :=
  [EvLog DEBUG MsgManagerPid; EvSignalHandler SIGTERM; EvSignalHandler SIGINT].


(** ** Start-up *)

(** The answer of [subprocess.Popen] is a child. *)
Definition launched (r : exn + Z) : bool :=
  match r with inr _ => true | inl _ => false end.

(** The number of processes that a run from [w] to [w'] has launched. *)
Definition launches (w w' : World) : nat := count is_launch (new_events w w').

(** The number of monitor threads that it has started. *)
Definition monitors (w w' : World) : nat := count is_thread (new_events w w').

(** An event that neither asks for a process nor starts a monitor. *)
Definition idle_event (ev : event) : Prop :=
  is_spawn ev = false /\ is_thread ev = false.

(** A service that the start-up loop passes over: disabled, or enabled
    with [instances = 0]. *)
Definition passed_over (service : Service) : Prop :=
  get (disabled service) false = false -> instances service = Some 0.

(** A launch that was refused. *)
Definition launch_failed (ev : event) : bool :=
  match ev with EvPopen _ _ (inl _) => true | _ => false end.

(** [startup_run r evs]: the events [evs] of a piece of start-up code and
    its result [r] fit together.  Either no launch was refused, or the
    last event is the one refused launch and its exception is the
    result. *)
Inductive startup_run {A} : abort + A -> list event -> Prop :=
| run_clean r evs :
    Forall (fun ev => launch_failed ev = false) evs ->
    startup_run r evs
| run_refused command dir e evs :
    Forall (fun ev => launch_failed ev = false) evs ->
    startup_run (inl (Raised e)) (evs ++ [EvPopen command dir (inl e)]).

(** [runs c]: every run of [c] is a [startup_run]. *)
Definition runs {A} (c : M A) : Prop :=
  forall w, exists evs,
    trace (snd (c w)) = trace w ++ evs /\ startup_run (fst (c w)) evs.

(** ** The monitor *)

(** The child exits, and not with status 0. *)
Definition exits_nonzero (r : option Z) : bool :=
  match r with
  | Some c => negb (c =? 0)
  | None => false
  end.

(** No status is recorded for a Popen object that does not exist yet. *)
Definition fresh_objects (w : World) : Prop :=
  forall o, (next_obj w <= o)%nat -> returncodes w !! o = None.

(** The state in which a monitor watches [process]: nobody has asked for
    shutdown, the lock is free, the object exists, and its process has not
    been seen to exit with status 0. *)
Definition monitoring (process : Popen) (w : World) : Prop :=
  shutdown w = false /\ lock_held w = false /\
  (obj process < next_obj w)%nat /\ fresh_objects w /\
  failed (returncodes w !! obj process) = true.

Definition is_restart (ev : event) : bool :=
  match ev with EvLog INFO (MsgRestarting _ _ _) => true | _ => false end.

(** An event that is neither a launch attempt nor a restart notice. *)
Definition calm_event (ev : event) : Prop :=
  is_spawn ev = false /\ is_restart ev = false.

(** [returns_only P c]: when [c] returns, its result satisfies [P]. *)
Definition returns_only {A} (P : A -> Prop) (c : M A) : Prop :=
  forall w a w', c w = (inr a, w') -> P a.

(** The loop goes on with the same locals. *)
Definition same_locals (restarts : Z) (process : Popen) (ctl : loop_ctl) : Prop :=
  match ctl with
  | Break => True
  | Next restarts' process' => restarts' = restarts /\ process' = process
  end.

(** ** The shutdown sequence, phase by phase *)

(** The process group of a pid is found. *)
Definition found (r : errno + Z) : bool :=
  match r with inr _ => true | inl _ => false end.

(** The events of a signalling pass with signal [sig]: the notice, the
    signal itself, and the error line when it could not be delivered. *)
Definition signal_event (sig : signal) (ev : event) : Prop :=
  match ev with
  | EvLog INFO (MsgSending s _ _) => s = sig
  | EvLog INFO (MsgErrorSending s _ _ _) => s = sig
  | EvKillpg _ s _ => s = sig
  | _ => False
  end.

(** The events of the reaping pass: a wait of at most five seconds, and
    the warning for a process that did not exit in time. *)
Definition reap_event (ev : event) : Prop :=
  match ev with
  | EvWait _ (Some 5) _ => True
  | EvLog WARNING (MsgDidNotTerminate _ _) => True
  | _ => False
  end.

(** [table_kept w w']: flag, table, name map, lock and lock file are the
    same in both worlds. *)
Definition table_kept (w w' : World) : Prop :=
  shutdown w' = shutdown w /\ processes w' = processes w /\
  process_service_map w' = process_service_map w /\
  lock_held w' = lock_held w /\ lock_file w' = lock_file w.

(** ** Scenarios *)

(** The module state right after import: flag down, empty table, free
    lock, no lock file. *)
Definition boot : World := mkWorld false [] ∅ false Absent ∅ 0 0 [].

(** A machine with four processors on which every launch succeeds, every
    signal is delivered, every child exits with [status] as soon as it is
    waited for, and [poll] finds children still running. *)
Definition os_exiting (status : Z) : OS :=
  mkOS (Some 4) [] "/srv"
       (fun t _ _ _ => inr (1000 + Z.of_nat t))
       (fun _ p => inr p)
       (fun _ _ _ => None)
       (fun _ _ => Some status)
       (fun _ _ _ => Some status)
       (fun _ _ => None)
       77.

(** The same machine when the processes looked up are gone: [getpgid]
    and [killpg] fail with ESRCH. *)
Definition os_gone : OS :=
  mkOS (Some 4) [] "/srv"
       (fun t _ _ _ => inr (1000 + Z.of_nat t))
       (fun _ _ => inl ESRCH)
       (fun _ _ _ => Some ESRCH)
       (fun _ _ => Some 0)
       (fun _ _ _ => Some 0)
       (fun _ _ => Some 0)
       77.

(** A machine on which [interpreter] cannot be executed. *)
Definition os_without (interpreter : string) : OS :=
  mkOS (Some 4) [] "/srv"
       (fun t command _ _ =>
          match command with
          | exe :: _ => if String.eqb exe interpreter then inl FileNotFoundError
                        else inr (1000 + Z.of_nat t)
          | [] => inl FileNotFoundError
          end)
       (fun _ p => inr p)
       (fun _ _ _ => None)
       (fun _ _ => None)
       (fun _ _ _ => Some 0)
       (fun _ _ => None)
       77.

(** A service entry with the given optional fields. *)
Definition service_entry (service_name interp : string) (n : option Z)
    (ready restart : option bool) (budget : option Z) : Service :=
  mkService service_name interp None "app.py" None None None n None
            ready restart budget.

(** A world with one tracked process, launched earlier as pid 4242. *)
Definition one_tracked : World :=
  mkWorld false [mkPopen 0 4242] {[ 4242 := "web"%string ]} false
          (Pids [4242]) ∅ 1 1 [].

(** A world with two tracked processes of two services: the monitored
    one, pid 4242, and another one, pid 4343. *)
Definition two_tracked : World :=
  mkWorld false [mkPopen 0 4242; mkPopen 1 4343]
          {[ 4242 := "web"%string; 4343 := "db"%string ]} false
          (Pids [4242; 4343]) ∅ 2 2 [].

(** Two services: the interpreter of the first does not exist. *)
Definition broken_then_fine : list Service :=
  [service_entry "broken" "missing" None None None None;
   service_entry "fine" "python" None None None None].

(** ** Two statements that the code does not meet *)

(** A monitor without restart budget, as one would expect it to behave:
    whatever its process does, the shutdown flag stays down, no signal is
    sent to any process group and the supervisor is not ended. *)
Definition stays_idle_without_budget (os : OS) (service : Service)
    (process : Popen) (instance_id : Z) (w : World) : Prop :=
  forall fuel,
    let r := monitor_service os fuel service process instance_id w in
    shutdown (snd r) = false /\
    count is_kill (new_events w (snd r)) = 0%nat /\
    (forall status, fst r <> Some (inl (OsExit status))).

(** A launch failure that is contained, as one would expect it to be: as
    long as the configuration has an enabled service of one instance or
    more that the machine can launch, [main] reaches its idle loop. *)
Definition launch_failure_contained (os : OS) (services : list Service)
    (w : World) : Prop :=
  (exists service,
      In service services /\
      get (disabled service) false = false /\
      0 < get (instances service) 1 /\
      forall t, launched (os_popen os t (service_command service)
                            (service_environ os service)
                            (service_dir os service)) = true) ->
  fst (main os services w) = inr tt.




(** A lock file in which crash recovery finds no identifier: none, text
    that is not JSON, or an empty list, dict or string. *)
Definition lists_nothing (c : lock_content) : bool :=
  match c with
  | Absent | Garbled | Pids [] => true
  | Json (JArray []) | Json (JObject []) | Json (JString EmptyString) => true
  | _ => false
  end.

(** * Further observations *)

(** ** What a computation leaves alone *)

(** [keeps f c]: the observation [f] of the world is the same after [c]
    as before, however [c] ends. *)
Definition keeps {A B} (f : World -> A) (c : M B) : Prop :=
  forall w, f (snd (c w)) = f w.

(** The process table together with the map of service names. *)
Definition table (w : World) : list Popen * gmap Z string :=
  (processes w, process_service_map w).

(** [plain c]: [c] never blocks and never touches the lock. *)
Definition plain {A} (c : M A) : Prop :=
  forall w, fst (c w) <> inl Blocked /\ lock_held (snd (c w)) = lock_held w.

(** [released r]: the run with outcome [r] did not block, and it left
    the lock free unless it ended the supervisor. *)
Definition released {A} (r : (abort + A) * World) : Prop :=
  match fst r with
  | inl Blocked => False
  | inl (OsExit _) => True
  | _ => lock_held (snd r) = false
  end.

(** [disciplined c]: every run of [c] that starts with the lock free is
    [released]. *)
Definition disciplined {A} (c : M A) : Prop :=
  forall w, lock_held w = false -> released (c w).

(** ** The restart budget *)

(** [turn_outcome max restarts r evs]: what one turn of the monitor loop
    entered with [restarts] restarts used may have done, given its result
    [r] and its events [evs]: either it asked for no process and goes on,
    if it does, with the same count, or it asked for exactly one, had
    budget left, and goes on, if it does, with the count raised by one. *)
Definition turn_outcome (max_restarts restarts : Z)
    (r : abort + loop_ctl) (evs : list event) : Prop :=
  match r with
  | inr (Next restarts' _) =>
      (restarts' = restarts /\ count is_spawn evs = 0%nat) \/
      (restarts' = restarts + 1 /\ restarts < max_restarts /\
       count is_spawn evs = 1%nat)
  | inr Break => count is_spawn evs = 0%nat
  | inl _ =>
      count is_spawn evs = 0%nat \/
      (restarts < max_restarts /\ count is_spawn evs = 1%nat)
  end.

(** [budgeted max restarts c]: every run of [c] is such a turn. *)
Definition budgeted (max_restarts restarts : Z) (c : M loop_ctl) : Prop :=
  forall w, exists evs,
    trace (snd (c w)) = trace w ++ evs /\
    turn_outcome max_restarts restarts (fst (c w)) evs.

(** An event that is not a launch attempt. *)
Definition no_spawn (ev : event) : Prop := is_spawn ev = false.

(** The state in which a monitor starts to watch [process]: as
    [monitoring], with a process that nobody has waited for yet. *)
Definition watching (process : Popen) (w : World) : Prop :=
  shutdown w = false /\ lock_held w = false /\
  (obj process < next_obj w)%nat /\ fresh_objects w /\
  returncodes w !! obj process = None.

(** The child exits. *)
Definition exits (r : option Z) : bool :=
  match r with Some _ => true | None => false end.

(** The restart numbers [restarts + 1], ..., [restarts + k]. *)
Definition restart_range (restarts : Z) (k : nat) : list Z :=
  map (fun j => restarts + 1 + Z.of_nat j) (seq 0 k).

Definition is_error (ev : event) : bool :=
  match ev with EvLog ERROR _ => true | _ => false end.

(** ** The configuration as a whole *)

(** The number of instances that the start-up loop launches for one
    service on a machine with [cpus] processors: none when disabled, the
    configured count (one by default, none for a count of zero), and for a
    negative count the processors left over, at least one. *)
Definition planned (cpus : Z) (service : Service) : nat :=
  if get (disabled service) false then 0%nat
  else
    let n := get (instances service) 1 in
    if n <? 0 then Z.to_nat (Z.max 1 (cpus - Z.abs n)) else Z.to_nat n.

Fixpoint planned_total (cpus : Z) (services : list Service) : nat :=
  match services with
  | [] => 0%nat
  | service :: rest => (planned cpus service + planned_total cpus rest)%nat
  end.

(** The instances that get a monitor: those of the services with
    [wait_ready]. *)
Fixpoint planned_monitors (cpus : Z) (services : list Service) : nat :=
  match services with
  | [] => 0%nat
  | service :: rest =>
      ((if get (wait_ready service) false then planned cpus service else 0)
       + planned_monitors cpus rest)%nat
  end.

(** ** The environment of a child *)

(** [env[k]] on an environment kept as an association list: the value at
    the first occurrence of the key. *)
Fixpoint env_get (k : string) (e : list (string * string)) : option string :=
  match e with
  | [] => None
  | (k', v) :: e' => if String.eqb k k' then Some v else env_get k e'
  end.

(** ** Identities and names in the process table *)

(** Every object of the table was created before [next_obj]. *)
Definition table_fresh (w : World) : Prop :=
  Forall (fun q => (obj q < next_obj w)%nat) (processes w).

(** Every process of the table has its pid in the map of service names. *)
Definition named (w : World) : Prop :=
  forall p, In p (processes w) -> is_Some (process_service_map w !! pid p).

(** [invariant I c]: a run of [c] that starts in [I] ends in [I]. *)
Definition invariant {A} (I : World -> Prop) (c : M A) : Prop :=
  forall w, I w -> I (snd (c w)).

(** ** Whom the shutdown reaches *)

(** The process groups to which SIGTERM was sent, in order, delivered or
    not. *)
Fixpoint sigterm_groups (evs : list event) : list Z :=
  match evs with
  | [] => []
  | EvKillpg g SIGTERM _ :: evs' => g :: sigterm_groups evs'
  | _ :: evs' => sigterm_groups evs'
  end.

(** [g] is the process group that [os.getpgid] has given for [p]. *)
Definition group_of (os : OS) (p : Popen) (g : Z) : Prop :=
  exists t, os_getpgid os t (pid p) = inr g.

(** The last loop of [handle_exit], run from the world [w] over the
    table: a process whose [poll()] gives an exit status is passed over,
    and a process whose [poll()] gives [None] gets the warning and a
    SIGKILL to its group, which is delivered. *)
Inductive backstop_sweep (os : OS) : World -> list Popen -> list event -> Prop :=
| sweep_nil w : backstop_sweep os w [] []
| sweep_exited w p ps evs c w' :
    poll os p w = (inr (Some c), w') ->
    backstop_sweep os w' ps evs ->
    backstop_sweep os w (p :: ps) evs
| sweep_running w p ps evs w' g :
    poll os p w = (inr None, w') ->
    os_getpgid os (clock w') (pid p) = inr g ->
    backstop_sweep os
      (tick (emit (EvKillpg g SIGKILL None)
               (tick (emit (EvLog WARNING (MsgStillRunning (pid p))) w'))))
      ps evs ->
    backstop_sweep os w (p :: ps)
      (EvLog WARNING (MsgStillRunning (pid p)) :: EvKillpg g SIGKILL None :: evs).

(** ** The last pass of the signal handler *)

(** The events of the loop that [handle_exit] runs after the shutdown
    sequence: the warning for a process that still runs and the SIGKILL
    that follows it, delivered. *)
Definition backstop_event (ev : event) : Prop :=
  match ev with
  | EvLog WARNING (MsgStillRunning _) => True
  | EvKillpg _ SIGKILL None => True
  | _ => False
  end.

(** A machine on which every launch succeeds and every signal is
    delivered, but no child ever exits. *)
Definition os_stubborn : OS :=
  mkOS (Some 4) [] "/srv"
       (fun t _ _ _ => inr (1000 + Z.of_nat t))
       (fun _ p => inr p)
       (fun _ _ _ => None)
       (fun _ _ => None)
       (fun _ _ _ => None)
       (fun _ _ => None)
       77.

(** A machine like [os_exiting 0] on which the number of processors is
    not known. *)
Definition os_uncounted : OS :=
  mkOS None [] "/srv"
       (fun t _ _ _ => inr (1000 + Z.of_nat t))
       (fun _ p => inr p)
       (fun _ _ _ => None)
       (fun _ _ => Some 0)
       (fun _ _ _ => Some 0)
       (fun _ _ => None)
       77.

(** ** Lemmas on traces *)

Lemma new_events_app w w' evs :
  trace w' = trace w ++ evs -> new_events w w' = evs.
Proof. intros E. unfold new_events. rewrite E. apply drop_app_length. Qed.

Lemma count_app f evs1 evs2 :
  count f (evs1 ++ evs2) = (count f evs1 + count f evs2)%nat.
Proof. unfold count. rewrite List.filter_app. apply length_app. Qed.

Lemma restart_numbers_app evs1 evs2 :
  restart_numbers (evs1 ++ evs2) = restart_numbers evs1 ++ restart_numbers evs2.
Proof.
  induction evs1 as [|ev evs1 IH]; [reflexivity|].
  destruct ev as [lvl m| | | | | | | | |]; simpl; try exact IH.
  destruct lvl, m; simpl; try exact IH. now rewrite IH.
Qed.

Lemma count_none f evs :
  Forall (fun ev => f ev = false) evs -> count f evs = 0%nat.
Proof.
  unfold count. induction 1 as [|ev evs Hev _ IH]; [reflexivity|].
  simpl. now rewrite Hev.
Qed.

(** ** Running a computation step by step *)

Lemma bind_returns {A B} (c : M A) (k : A -> M B) w a w' :
  c w = (inr a, w') -> bind c k w = k a w'.
Proof. intros E. unfold bind. now rewrite E. Qed.

Lemma bind_aborts {A B} (c : M A) (k : A -> M B) w f w' :
  c w = (inl f, w') -> bind c k w = (inl f, w').
Proof. intros E. unfold bind. now rewrite E. Qed.

Lemma with_lock_free {A} (body : M A) w a w' :
  lock_held w = false ->
  body (set_lock_held true w) = (inr a, w') ->
  with_lock body w = (inr a, set_lock_held false w').
Proof. intros L E. unfold with_lock. now rewrite L, E. Qed.

Lemma with_lock_raises {A} (body : M A) w e w' :
  lock_held w = false ->
  body (set_lock_held true w) = (inl (Raised e), w') ->
  with_lock body w = (inl (Raised e), set_lock_held false w').
Proof. intros L E. unfold with_lock. now rewrite L, E. Qed.

(** ** Frame reasoning: what a computation may add to the trace *)


Section Frame.

Variable os : OS.
Variable Q : event -> Prop.

Lemma extends_refl w : extends Q w w.
Proof. split; [tauto|]. exists []. now rewrite app_nil_r. Qed.

Lemma extends_trans w1 w2 w3 :
  extends Q w1 w2 -> extends Q w2 w3 -> extends Q w1 w3.
Proof.
  intros [S1 (e1 & T1 & F1)] [S2 (e2 & T2 & F2)]. split; [tauto|].
  exists (e1 ++ e2). rewrite T2, T1, app_assoc. split; [reflexivity|].
  now apply Forall_app.
Qed.

(** A change of the world that leaves flag and trace alone. *)
Lemma extends_silent w w' :
  shutdown w' = shutdown w -> trace w' = trace w -> extends Q w w'.
Proof.
  intros S T. split; [congruence|]. exists []. now rewrite app_nil_r.
Qed.

Lemma extends_emit ev w : Q ev -> extends Q w (emit ev w).
Proof.
  intros H. split; [tauto|]. exists [ev]. split; [reflexivity|].
  now constructor.
Qed.

Lemma emits_ret {A} (a : A) : emits Q (ret a).
Proof. intros w. apply extends_refl. Qed.

Lemma emits_raise {A} e : emits Q (@raise A e).
Proof. intros w. apply extends_refl. Qed.

Lemma emits_os_exit {A} s : emits Q (@os_exit A s).
Proof. intros w. apply extends_refl. Qed.

Lemma emits_read {A} (f : World -> A) : emits Q (read f).
Proof. intros w. apply extends_refl. Qed.

Lemma emits_modify f : (forall w, extends Q w (f w)) -> emits Q (modify f).
Proof. intros H w. apply H. Qed.

Lemma emits_bind {A B} (c : M A) (k : A -> M B) :
  emits Q c -> (forall a, emits Q (k a)) -> emits Q (bind c k).
Proof.
  intros Hc Hk w. unfold bind. specialize (Hc w).
  destruct (c w) as [[f|a] w']; simpl in *; [exact Hc|].
  eapply extends_trans; [exact Hc|apply Hk].
Qed.

Lemma emits_try_except {A} (body : M A) handles handler :
  emits Q body -> (forall e, emits Q (handler e)) ->
  emits Q (try_except body handles handler).
Proof.
  intros Hb Hh w. unfold try_except. specialize (Hb w).
  destruct (body w) as [[[e| | |]|a] w']; simpl in *; try exact Hb.
  destruct (handles e); simpl; [|exact Hb].
  eapply extends_trans; [exact Hb|apply Hh].
Qed.

Lemma emits_for_each {A} (xs : list A) body :
  (forall x, emits Q (body x)) -> emits Q (for_each xs body).
Proof.
  intros Hb. induction xs as [|x xs IH]; simpl.
  - apply emits_ret.
  - apply emits_bind; [apply Hb|intros _; exact IH].
Qed.

Lemma emits_for_fold {A S} (xs : list A) (s : S) body :
  (forall x s, emits Q (body x s)) -> emits Q (for_fold xs s body).
Proof.
  intros Hb. revert s. induction xs as [|x xs IH]; intros s; simpl.
  - apply emits_ret.
  - apply emits_bind; [apply Hb|intros s'; apply IH].
Qed.

Lemma emits_when c body : emits Q body -> emits Q (when c body).
Proof. intros H. destruct c; simpl; [exact H|apply emits_ret]. Qed.

Lemma emits_with_lock {A} (body : M A) : emits Q body -> emits Q (with_lock body).
Proof.
  intros Hb w. unfold with_lock. destruct (lock_held w); [apply extends_refl|].
  specialize (Hb (set_lock_held true w)).
  assert (E : extends Q w (snd (body (set_lock_held true w)))).
  { eapply extends_trans; [|exact Hb]. now apply extends_silent. }
  destruct (body (set_lock_held true w)) as [[[e| | |]|a] w']; simpl in *;
    try exact E;
    (eapply extends_trans; [exact E|now apply extends_silent]).
Qed.

Lemma emits_logger lvl m : Q (EvLog lvl m) -> emits Q (logger lvl m).
Proof. intros H w. now apply extends_emit. Qed.

Lemma emits_sleep s : Q (EvSleep s) -> emits Q (sleep s).
Proof. intros H w. now apply extends_emit. Qed.

Lemma emits_getpgid p : emits Q (getpgid os p).
Proof.
  intros w. unfold getpgid.
  destruct (os_getpgid os (clock w) p); now apply extends_silent.
Qed.

Lemma emits_killpg g sig :
  (forall r, Q (EvKillpg g sig r)) -> emits Q (killpg os g sig).
Proof.
  intros H w. unfold killpg.
  assert (E : extends Q w (tick (emit (EvKillpg g sig (os_killpg os (clock w) g sig)) w))).
  { eapply extends_trans; [apply extends_emit, H|now apply extends_silent]. }
  destruct (os_killpg os (clock w) g sig); exact E.
Qed.

Lemma emits_returncode process : emits Q (returncode process).
Proof. apply emits_read. Qed.

Lemma emits_wait process :
  (forall r, Q (EvWait (pid process) None r)) -> emits Q (wait os process).
Proof.
  intros H w. unfold wait.
  destruct (returncodes w !! obj process); [apply extends_refl|].
  assert (E : extends Q w
            (tick (emit (EvWait (pid process) None (os_wait os (clock w) process)) w))).
  { eapply extends_trans; [apply extends_emit, H|now apply extends_silent]. }
  destruct (os_wait os (clock w) process); simpl; [|exact E].
  eapply extends_trans; [exact E|now apply extends_silent].
Qed.

Lemma emits_wait_timeout process t :
  (forall r, Q (EvWait (pid process) (Some t) r)) ->
  emits Q (wait_timeout os process t).
Proof.
  intros H w. unfold wait_timeout.
  destruct (returncodes w !! obj process); [apply extends_refl|].
  assert (E : extends Q w
            (tick (emit (EvWait (pid process) (Some t)
                           (os_wait_timeout os (clock w) process t)) w))).
  { eapply extends_trans; [apply extends_emit, H|now apply extends_silent]. }
  destruct (os_wait_timeout os (clock w) process t); simpl; [|exact E].
  eapply extends_trans; [exact E|now apply extends_silent].
Qed.

Lemma emits_poll process : emits Q (poll os process).
Proof.
  intros w. unfold poll.
  destruct (returncodes w !! obj process); [apply extends_refl|].
  destruct (os_poll os (clock w) process); now apply extends_silent.
Qed.

Lemma emits_subprocess_Popen command environ dir :
  (forall r, Q (EvPopen command dir r)) ->
  emits Q (subprocess_Popen os command environ dir).
Proof.
  intros H w. unfold subprocess_Popen.
  set (r := os_popen os (clock w) command environ dir).
  assert (E : extends Q w (tick (emit (EvPopen command dir r) w))).
  { eapply extends_trans; [apply extends_emit, H|now apply extends_silent]. }
  destruct r; simpl; [exact E|].
  eapply extends_trans; [exact E|now apply extends_silent].
Qed.

Lemma emits_read_lock_file : emits Q read_lock_file.
Proof.
  intros w. unfold read_lock_file.
  destruct (lock_file w); cbn [snd]; apply extends_refl.
Qed.

Lemma emits_write_lock_file pids :
  Q (EvWriteLock pids) -> emits Q (write_lock_file pids).
Proof.
  intros H w. unfold write_lock_file, modify; simpl.
  eapply extends_trans; [|apply extends_emit, H]. now apply extends_silent.
Qed.

Lemma emits_update_lock_file :
  (forall pids, Q (EvWriteLock pids)) -> emits Q update_lock_file.
Proof.
  intros H. apply emits_bind; [apply emits_read|].
  intros l. apply emits_write_lock_file, H.
Qed.

Lemma emits_clear_lock_file : Q EvRemoveLock -> emits Q clear_lock_file.
Proof.
  intros H w. unfold clear_lock_file.
  destruct (lock_file w); simpl; try apply extends_refl;
    (eapply extends_trans; [|apply extends_emit, H]; now apply extends_silent).
Qed.

Lemma emits_iterate v : emits Q (iterate v).
Proof. destruct v; cbn [iterate]; first [apply emits_ret|apply emits_raise]. Qed.

Lemma emits_as_pid item : emits Q (as_pid item).
Proof.
  destruct item; cbn [as_pid]; try apply emits_raise; try apply emits_ret.
  destruct (in_pid_range n); [apply emits_ret|apply emits_raise].
Qed.

Lemma emits_killpg_item item sig :
  (forall g r, Q (EvKillpg g sig r)) -> emits Q (killpg_item os item sig).
Proof.
  intros H. unfold killpg_item.
  apply emits_bind; [apply emits_as_pid|intros g].
  apply emits_bind; [apply emits_killpg, H|intros _].
  destruct sig; try apply emits_ret;
    (destruct (own_group os g); [intros w; apply extends_refl|apply emits_ret]).
Qed.

Lemma emits_dump_lock_file items :
  (forall pids, Q (EvWriteLock pids)) -> (forall v, Q (EvWriteJson v)) ->
  emits Q (dump_lock_file items).
Proof.
  intros H1 H2. unfold dump_lock_file.
  destruct (integers items); [apply emits_write_lock_file, H1|].
  apply emits_modify. intros w.
  eapply extends_trans; [|apply extends_emit, H2]. now apply extends_silent.
Qed.

End Frame.

Lemma extends_weaken (Q Q' : event -> Prop) w w' :
  (forall ev, Q ev -> Q' ev) -> extends Q w w' -> extends Q' w w'.
Proof.
  intros H [S (evs & T & F)]. split; [exact S|]. exists evs. split; [exact T|].
  eapply Forall_impl; [exact F|exact H].
Qed.

Lemma emits_weaken {A} (Q Q' : event -> Prop) (c : M A) :
  (forall ev, Q ev -> Q' ev) -> emits Q c -> emits Q' c.
Proof. intros H Hc w. eapply extends_weaken; [exact H|apply Hc]. Qed.

(** Walks through a computation built from the combinators, leaving the
    side conditions on single events. *)
Ltac emits_step :=
  lazymatch goal with
  | |- emits _ (bind _ _) => apply emits_bind; [|intros ?]
  | |- emits _ (ret _) => apply emits_ret
  | |- emits _ (raise _) => apply emits_raise
  | |- emits _ (os_exit _) => apply emits_os_exit
  | |- emits _ (read _) => apply emits_read
  | |- emits _ (when _ _) => apply emits_when
  | |- emits _ (with_lock _) => apply emits_with_lock
  | |- emits _ (try_except _ _ _) => apply emits_try_except; [|intros ?]
  | |- emits _ (for_each _ _) => apply emits_for_each; intros ?
  | |- emits _ (for_fold _ _ _) => apply emits_for_fold; intros ? ?
  | |- emits _ (logger _ _) => apply emits_logger
  | |- emits _ (sleep _) => apply emits_sleep
  | |- emits _ (getpgid _ _) => apply emits_getpgid
  | |- emits _ (killpg _ _ _) => apply emits_killpg; intros ?
  | |- emits _ (returncode _) => apply emits_returncode
  | |- emits _ (wait _ _) => apply emits_wait; intros ?
  | |- emits _ (wait_timeout _ _ _) => apply emits_wait_timeout; intros ?
  | |- emits _ (poll _ _) => apply emits_poll
  | |- emits _ (subprocess_Popen _ _ _ _) => apply emits_subprocess_Popen; intros ?
  | |- emits _ read_lock_file => apply emits_read_lock_file
  | |- emits _ (write_lock_file _) => apply emits_write_lock_file
  | |- emits _ update_lock_file => apply emits_update_lock_file; intros ?
  | |- emits _ clear_lock_file => apply emits_clear_lock_file
  | |- emits _ (iterate _) => apply emits_iterate
  | |- emits _ (killpg_item _ _ _) => apply emits_killpg_item; intros ? ?
  | |- emits _ (dump_lock_file _) => apply emits_dump_lock_file; intros ?
  | |- emits _ (modify _) => apply emits_modify; intros ?
  | |- emits _ (if ?b then _ else _) => destruct b
  | |- emits _ (match ?x with _ => _ end) => destruct x
  end.

Ltac emits_walk := repeat emits_step.

(** *** Events of a launch *)



(** *** Events of a shutdown *)


Lemma emits_signal_group os sig process service_name :
  sig = SIGTERM \/ sig = SIGKILL ->
  emits shutdown_event (signal_group os sig process service_name).
Proof.
  intros [-> | ->]; unfold signal_group; emits_walk; exact I.
Qed.

Lemma emits_kill_sequence os : emits shutdown_event (kill_sequence os).
Proof.
  unfold kill_sequence, service_name_of.
  emits_walk; try exact I; apply emits_signal_group; auto.
Qed.

Lemma emits_cleanup_processes os : emits shutdown_event (cleanup_processes os).
Proof.
  unfold cleanup_processes. emits_walk; try exact I.
  - split; [reflexivity|]. exists []. now rewrite app_nil_r.
  - apply emits_kill_sequence.
Qed.

Lemma emits_handle_exit os signum : emits shutdown_event (handle_exit os signum).
Proof.
  unfold handle_exit. emits_walk; try exact I. apply emits_cleanup_processes.
Qed.

Lemma emits_run {A} (Q : event -> Prop) (c : M A) w r w' :
  emits Q c -> c w = (r, w') ->
  (shutdown w = true -> shutdown w' = true) /\
  exists evs, trace w' = trace w ++ evs /\ Forall Q evs.
Proof. intros H E. specialize (H w). now rewrite E in H. Qed.

(** ** The shutdown sequence *)

(** When the kill sequence runs to its end, the grace sleep has been
    taken and the lock file is gone. *)
Lemma kill_sequence_done os w w' :
  kill_sequence os w = (inr tt, w') ->
  lock_file w' = Absent /\
  exists evs1 evs2, trace w' = trace w ++ evs1 ++ EvSleep 1 :: evs2.
Proof.
  unfold kill_sequence, bind at 1 2; simpl.
  destruct (for_each (processes w) _ w) as [[f|[]] w1] eqn:P1; [discriminate|].
  unfold bind at 1 2; simpl.
  match goal with |- context [emit (EvSleep 1) ?x] => set (w2 := emit (EvSleep 1) x) end.
  unfold bind at 1 2; simpl.
  destruct (for_each _ _ w2) as [[f|[]] w3] eqn:P2; [discriminate|].
  unfold bind at 1 2; simpl.
  destruct (for_each _ _ w3) as [[f|[]] w4] eqn:P3; [discriminate|].
  intros E.
  assert (T1 : exists e, trace w1 = trace w ++ e).
  { eapply (emits_run (fun _ => True)) in P1 as [_ (e & T & _)]; [eauto|].
    emits_walk; try exact I; unfold service_name_of, signal_group; emits_walk; exact I. }
  assert (T3 : exists e, trace w3 = trace w2 ++ e).
  { eapply (emits_run (fun _ => True)) in P2 as [_ (e & T & _)]; [eauto|].
    emits_walk; try exact I; unfold service_name_of, signal_group; emits_walk; exact I. }
  assert (T4 : exists e, trace w4 = trace w3 ++ e).
  { eapply (emits_run (fun _ => True)) in P3 as [_ (e & T & _)]; [eauto|].
    emits_walk; try exact I; unfold service_name_of; emits_walk; exact I. }
  destruct T1 as [e1 T1], T3 as [e3 T3], T4 as [e4 T4].
  assert (T2 : trace w2 = trace w1 ++ [EvLog INFO MsgCleaningUp; EvSleep 1]).
  { unfold w2; simpl. now rewrite <- app_assoc. }
  unfold clear_lock_file in E.
  destruct (lock_file w4) eqn:L; inversion E; subst w'; clear E; simpl;
    (split; [first [exact L | reflexivity]|]);
    first
      [ solve [exists (e1 ++ [EvLog INFO MsgCleaningUp]), (e3 ++ e4);
               rewrite T4, T3, T2, T1; now rewrite <- !app_assoc]
      | exists (e1 ++ [EvLog INFO MsgCleaningUp]), (e3 ++ e4 ++ [EvRemoveLock]);
        rewrite T4, T3, T2, T1; now rewrite <- !app_assoc ].
Qed.

Lemma with_lock_returns {A} (body : M A) w a w' :
  with_lock body w = (inr a, w') ->
  lock_held w = false /\
  exists w'', body (set_lock_held true w) = (inr a, w'') /\
              w' = set_lock_held false w''.
Proof.
  unfold with_lock. destruct (lock_held w); [discriminate|].
  destruct (body (set_lock_held true w)) as [[[e| | |]|a'] w'']; intros E;
    inversion E; subst. eauto.
Qed.

Lemma cleanup_processes_first os w :
  shutdown w = false ->
  cleanup_processes os w =
  (with_lock (kill_sequence os) >> logger INFO MsgCleanupComplete)
    (set_shutdown true w).
Proof. intros H. unfold cleanup_processes, bind at 1, read. now rewrite H. Qed.

Lemma cleanup_processes_again os w :
  shutdown w = true ->
  cleanup_processes os w = (inr tt, emit (EvLog WARNING MsgShuttingDown) w).
Proof. intros H. unfold cleanup_processes, bind at 1, read. now rewrite H. Qed.

(** C4.  [cleanup_processes] is idempotent.  Called in a world whose
    shutdown flag is false, it sets the flag and runs the kill sequence
    under the lock (and when that call returns, the grace sleep has been
    taken and the lock file removed); called again in the world that the
    first call left, it returns at once: the only change is one warning
    line in the log, so no process is signalled, no operating-system call
    is made and the number of signals sent over both calls is that of the
    first call alone.  The same holds for a call in any world whose flag
    is already set. *)
Theorem cleanup_processes_idempotent os w :
  shutdown w = false ->
  let r1 := cleanup_processes os w in
  let w1 := snd r1 in
  let r2 := cleanup_processes os w1 in
  (shutdown w1 = true /\
   r1 = (with_lock (kill_sequence os) >> logger INFO MsgCleanupComplete)
          (set_shutdown true w) /\
   (fst r1 = inr tt ->
    lock_file w1 = Absent /\ In (EvSleep 1) (new_events w w1))) /\
  (r2 = (inr tt, emit (EvLog WARNING MsgShuttingDown) w1) /\
   count is_kill (new_events w (snd r2)) = count is_kill (new_events w w1)) /\
  (forall w2, shutdown w2 = true ->
     cleanup_processes os w2 = (inr tt, emit (EvLog WARNING MsgShuttingDown) w2)).
Proof.
  intros H r1 w1 r2.
  assert (E1 : r1 = (with_lock (kill_sequence os) >> logger INFO MsgCleanupComplete)
                      (set_shutdown true w))
    by (apply cleanup_processes_first, H).
  assert (X : extends shutdown_event (set_shutdown true w) w1).
  { unfold w1. rewrite E1.
    assert (Hc : emits shutdown_event
              (with_lock (kill_sequence os) >> logger INFO MsgCleanupComplete)).
    { emits_walk; [apply emits_kill_sequence|exact I]. }
    apply Hc. }
  destruct X as [S1 (evs & T1 & _)]. simpl in S1, T1.
  assert (Sw1 : shutdown w1 = true) by (apply S1; reflexivity).
  assert (E2 : r2 = (inr tt, emit (EvLog WARNING MsgShuttingDown) w1))
    by (apply cleanup_processes_again, Sw1).
  split; [|split; [|exact (cleanup_processes_again os)]]; repeat split.
  - exact Sw1.
  - exact E1.
  - revert H0. unfold w1. rewrite E1. unfold bind at 1 2.
    destruct (with_lock (kill_sequence os) (set_shutdown true w))
      as [[f|[]] w2] eqn:L; simpl; [discriminate|]. intros _.
    apply with_lock_returns in L as (_ & w3 & K & ->).
    apply kill_sequence_done in K as [K _]. exact K.
  - revert H0. unfold w1. rewrite E1. unfold bind at 1 2.
    destruct (with_lock (kill_sequence os) (set_shutdown true w))
      as [[f|[]] w2] eqn:L; simpl; [discriminate|]. intros _.
    apply with_lock_returns in L as (_ & w3 & K & ->).
    apply kill_sequence_done in K as [_ (e1 & e2 & K)]. simpl in K.
    erewrite new_events_app;
      [|simpl; rewrite K, <- !app_assoc; reflexivity].
    apply in_or_app. right. simpl. auto.
  - exact E2.
  - rewrite E2. simpl.
    rewrite (new_events_app w w1 evs T1).
    erewrite new_events_app; [|simpl; rewrite T1, <- app_assoc; reflexivity].
    rewrite count_app.
    change (count is_kill [EvLog WARNING MsgShuttingDown]) with 0%nat. lia.
Qed.

(** Unfolds the field updates and reduces the projections. *)
Ltac world_simpl :=
  cbn [emit tick set_shutdown set_processes set_process_service_map
       set_lock_held set_lock_file set_returncodes set_next_obj
       shutdown processes process_service_map lock_held lock_file
       returncodes next_obj clock trace fst snd obj pid] in *.

(** Two worlds are equal when their fields are. *)
Lemma World_ext w w' :
  shutdown w = shutdown w' -> processes w = processes w' ->
  process_service_map w = process_service_map w' ->
  lock_held w = lock_held w' -> lock_file w = lock_file w' ->
  returncodes w = returncodes w' -> next_obj w = next_obj w' ->
  clock w = clock w' -> trace w = trace w' -> w = w'.
Proof. destruct w, w'; cbn; intros; now subst. Qed.

Ltac world_eq := apply World_ext; world_simpl; try reflexivity; try congruence.

(** ** The process table and the lock file *)

Lemma start_service_launches os service instance_id w child :
  lock_held w = false ->
  os_popen os (clock w) (service_command service) (service_environ os service)
           (service_dir os service) = inr child ->
  start_service os service instance_id w =
  (inr (mkPopen (next_obj w) child), after_launch os service instance_id child w).
Proof.
  intros L P. unfold start_service, bind at 1, subprocess_Popen. rewrite P.
  unfold bind, with_lock, modify, update_lock_file, write_lock_file, read,
    logger, ret, bind; world_simpl. rewrite L. unfold after_launch.
  f_equal. world_eq. now rewrite <- !app_assoc.
Qed.

Lemma start_service_fails os service instance_id w e :
  os_popen os (clock w) (service_command service) (service_environ os service)
           (service_dir os service) = inl e ->
  start_service os service instance_id w =
  (inl (Raised e),
   tick (emit (EvPopen (service_command service) (service_dir os service) (inl e)) w)).
Proof.
  intros P. unfold start_service, bind at 1, subprocess_Popen. now rewrite P.
Qed.

Lemma start_service_blocked os service instance_id w child :
  lock_held w = true ->
  os_popen os (clock w) (service_command service) (service_environ os service)
           (service_dir os service) = inr child ->
  start_service os service instance_id w =
  (inl Blocked,
   set_next_obj (S (next_obj w))
     (tick (emit (EvPopen (service_command service) (service_dir os service)
                    (inr child)) w))).
Proof.
  intros L P. unfold start_service, bind at 1, subprocess_Popen. rewrite P.
  unfold bind, with_lock; simpl. now rewrite L.
Qed.

Lemma forget_process_free process w :
  lock_held w = false ->
  forget_process process w = (inr tt, after_forget process w).
Proof.
  intros L. unfold forget_process, after_forget, with_lock. rewrite L.
  unfold bind at 1, read. world_simpl.
  destruct (contains process (processes w)); cbn [when].
  - reflexivity.
  - unfold ret. f_equal. world_eq.
Qed.

Lemma forget_process_blocked process w :
  lock_held w = true -> forget_process process w = (inl Blocked, w).
Proof. intros L. unfold forget_process, with_lock. now rewrite L. Qed.


(** C4, at a concrete world: one tracked process on a machine where every
    signal is delivered. *)
Lemma cleanup_processes_idempotent_witness :
  shutdown one_tracked = false /\
  snd (cleanup_processes (os_exiting 0)
         (snd (cleanup_processes (os_exiting 0) one_tracked))) =
  emit (EvLog WARNING MsgShuttingDown)
       (snd (cleanup_processes (os_exiting 0) one_tracked)).
Proof.
  split; [reflexivity|].
  pose proof (cleanup_processes_idempotent (os_exiting 0) one_tracked eq_refl)
    as (_ & (E & _) & _).
  exact (f_equal snd E).
Defined.

(** ** A tracked process that is gone *)

Lemma signal_group_lookup_failure os sig process service_name w :
  (forall t, os_getpgid os t (pid process) = inl ESRCH) ->
  signal_group os sig process service_name w =
  (inl (Raised ProcessLookupError), tick (tick w)).
Proof.
  intros G. unfold signal_group, try_except.
  erewrite bind_aborts; [|unfold getpgid; rewrite G; reflexivity].
  cbn [is_Exception OSError_of].
  erewrite bind_aborts; [reflexivity|unfold getpgid; rewrite G; reflexivity].
Qed.

(** C5.  [cleanup_processes] does not survive a failing process-group
    lookup.  When [os.getpgid] fails for the first tracked process, the
    handler of the first [try] block evaluates [os.getpgid] again for its
    log line and the exception leaves [cleanup_processes]: the shutdown
    flag is set, but nothing is logged, no signal is sent, the grace sleep,
    the SIGKILL pass and the reaping are skipped, and the lock file is not
    cleared.  [handle_exit] then never reaches [os._exit]. *)
Theorem cleanup_processes_lookup_failure os w process rest :
  shutdown w = false ->
  lock_held w = false ->
  processes w = process :: rest ->
  (forall t, os_getpgid os t (pid process) = inl ESRCH) ->
  cleanup_processes os w =
    (inl (Raised ProcessLookupError), tick (tick (set_shutdown true w))) /\
  handle_exit os SIGTERM w =
    (inl (Raised ProcessLookupError),
     tick (tick (set_shutdown true (emit (EvLog INFO MsgTerminating) w)))).
Proof.
  intros S L P G.
  assert (C : forall w0, shutdown w0 = false -> lock_held w0 = false ->
                processes w0 = process :: rest ->
                cleanup_processes os w0 =
                (inl (Raised ProcessLookupError), tick (tick (set_shutdown true w0)))).
  { intros w0 S0 L0 P0. rewrite (cleanup_processes_first _ _ S0).
    erewrite bind_aborts; [reflexivity|].
    erewrite with_lock_raises; [|exact L0|].
    2:{ unfold kill_sequence. erewrite bind_returns; [|reflexivity].
        cbn [processes set_lock_held set_shutdown]. rewrite P0.
        cbn [for_each]. erewrite bind_aborts; [reflexivity|].
        erewrite bind_aborts; [reflexivity|].
        erewrite bind_returns; [|reflexivity].
        apply signal_group_lookup_failure, G. }
    f_equal. world_eq. }
  split; [now apply C|].
  unfold handle_exit. erewrite bind_returns; [|reflexivity]. rewrite S.
  erewrite bind_returns; [|reflexivity].
  erewrite bind_aborts; [reflexivity|]. now apply C.
Qed.

(** C5, at a concrete world: the one tracked process has been reaped. *)
Lemma cleanup_processes_lookup_failure_witness :
  fst (cleanup_processes os_gone one_tracked) = inl (Raised ProcessLookupError) /\
  new_events one_tracked (snd (cleanup_processes os_gone one_tracked)) = [] /\
  lock_file (snd (cleanup_processes os_gone one_tracked)) = Pids [4242].
Proof.
  destruct (cleanup_processes_lookup_failure os_gone one_tracked
              (mkPopen 0 4242) [] eq_refl eq_refl eq_refl (fun _ => eq_refl))
    as [E _].
  rewrite E. repeat split.
Defined.

(** ** The monitor loop *)

Lemma after_forget_fields process w :
  shutdown (after_forget process w) = shutdown w /\
  (lock_held w = false -> lock_held (after_forget process w) = false) /\
  returncodes (after_forget process w) = returncodes w /\
  next_obj (after_forget process w) = next_obj w /\
  clock (after_forget process w) = clock w.
Proof.
  unfold after_forget. destruct (contains process (processes w)); now cbn.
Qed.

(** [wait] on a process whose status is already known. *)
Lemma wait_known os process w c :
  returncodes w !! obj process = Some c -> wait os process w = (inr c, w).
Proof. intros E. unfold wait. now rewrite E. Qed.

(** [wait] on a process that has to be waited for and exits. *)
Lemma wait_exits os process w c :
  returncodes w !! obj process = None ->
  os_wait os (clock w) process = Some c ->
  wait os process w =
  (inr c, set_returncodes (<[obj process := c]> (returncodes w))
            (tick (emit (EvWait (pid process) None (Some c)) w))).
Proof. intros E W. unfold wait. now rewrite E, W. Qed.

(** A turn of the loop on a process that exited with status 0 when the
    restart budget is used up: no [break], same locals. *)
Lemma monitor_body_clean_exit os service instance_id m process w :
  shutdown w = false ->
  lock_held w = false ->
  (forall t, os_wait os t process = Some 0) ->
  get (returncodes w !! obj process) 0 = 0 ->
  exists w',
    monitor_body os service instance_id m m process w = (inr (Next m process), w') /\
    spinning process w'.
Proof.
  intros S L W R.
  assert (exists w1, wait os process w = (inr 0, w1) /\ spinning process w1)
    as (w1 & E1 & S1 & L1 & R1).
  { destruct (returncodes w !! obj process) as [c|] eqn:E.
    - cbn in R. subst c. exists w. split; [now apply wait_known|]. now split.
    - eexists. split; [now apply wait_exits|]. unfold spinning. world_simpl.
      repeat split; try assumption. apply lookup_insert_eq. }
  destruct (after_forget_fields process w1) as (S2 & L2 & R2 & _).
  exists (after_forget process w1). split.
  - unfold monitor_body.
    erewrite bind_returns; [|exact E1].
    erewrite bind_returns; [|now apply forget_process_free].
    erewrite bind_returns; [|reflexivity]. rewrite S2, S1.
    erewrite bind_returns; [|reflexivity]. rewrite R2, R1.
    cbn [failed when]. erewrite bind_returns; [|reflexivity].
    unfold monitor_decide. rewrite Z.ltb_irrefl, Z.eqb_refl. cbn [andb].
    erewrite bind_returns; reflexivity.
  - unfold spinning. rewrite S2, R2. auto.
Qed.

(** C8.  The loop of [monitor_service] is not left after a clean exit that
    meets a used-up restart budget: when the monitored process exits with
    status 0 while [restarts] equals [max_restarts] and nobody asks for
    shutdown, every turn of the loop ends without [break] and with the
    same locals, so that no amount of fuel lets the function return.  The
    [elif restarts == max_restarts] branch has no [break]; the [else]
    branch next to it has one. *)
Theorem monitor_loop_spins_after_clean_exit os service instance_id m process w fuel :
  shutdown w = false ->
  lock_held w = false ->
  (forall t, os_wait os t process = Some 0) ->
  get (returncodes w !! obj process) 0 = 0 ->
  fst (monitor_loop os fuel service instance_id m m process w) = None.
Proof.
  revert w. induction fuel as [|fuel IH]; intros w S L W R.
  - cbn [monitor_loop]. rewrite Z.leb_refl, S. reflexivity.
  - cbn [monitor_loop]. rewrite Z.leb_refl, S. cbn [negb andb].
    destruct (monitor_body_clean_exit os service instance_id m process w S L W R)
      as (w' & E & S' & L' & R').
    rewrite E. apply IH; try assumption. now rewrite R'.
Qed.

(** C8, at a concrete service: [max_restarts] left at its default, the
    only process exits with status 0, and the monitor is still in its loop
    after a thousand turns. *)
Lemma monitor_loop_spins_after_clean_exit_witness :
  fst (monitor_service (os_exiting 0) 1000
         (service_entry "web" "python" None (Some true) None None)
         (mkPopen 0 4242) 0 one_tracked) = None.
Proof.
  apply (monitor_loop_spins_after_clean_exit (os_exiting 0)); reflexivity.
Defined.

(** ** Crash recovery *)

Lemma untouched_refl w : untouched w w.
Proof. now repeat split. Qed.

Lemma untouched_trans w1 w2 w3 :
  untouched w1 w2 -> untouched w2 w3 -> untouched w1 w3.
Proof.
  unfold untouched. intros (?&?&?&?&?&?&?) (?&?&?&?&?&?&?).
  repeat split; congruence.
Qed.

Lemma killpg_result os g sig w :
  killpg os g sig w =
  (match os_killpg os (clock w) g sig with
   | Some c => inl (Raised (OSError_of c))
   | None => inr tt
   end,
   tick (emit (EvKillpg g sig (os_killpg os (clock w) g sig)) w)).
Proof. unfold killpg. now destruct (os_killpg os (clock w) g sig). Qed.

(** On an identifier that is sound, [os.killpg] on the object of the lock
    file is [killpg] on the number. *)
Lemma killpg_item_sound os p sig w :
  sound_id os p -> killpg_item os (JInt p) sig w = killpg os p sig w.
Proof.
  intros (R & O & _). unfold killpg_item, as_pid. rewrite R.
  erewrite bind_returns; [|reflexivity]. rewrite O.
  unfold bind. destruct (killpg os p sig w) as [[f|[]] w1]; [reflexivity|].
  now destruct sig.
Qed.

Lemma caught_handled c :
  caught c = true -> is_lookup_or_permission (OSError_of c) = true.
Proof. now destruct c. Qed.

Lemma sound_caught os p t sig c :
  sound_id os p -> os_killpg os t p sig = Some c -> caught c = true.
Proof. intros (_ & _ & N) K. destruct c; try reflexivity. now apply N in K. Qed.

(** One identifier: the three outcomes of [recovery]. *)
Lemma terminate_one_outcome os p acc w :
  sound_id os p ->
  exists evs kept w',
    terminate_one os (JInt p) acc w = (inr (acc ++ map JInt kept), w') /\
    untouched w w' /\ trace w' = trace w ++ evs /\
    (forall pids evs' active,
        recovery pids evs' active ->
        recovery (p :: pids) (evs ++ evs') (kept ++ active)).
Proof.
  intros Sd. unfold terminate_one, try_except.
  destruct (os_killpg os (clock w) p SIG0) as [c0|] eqn:K0.
  - (* the probe fails *)
    pose proof (sound_caught _ _ _ _ _ Sd K0) as C0.
    erewrite bind_aborts;
      [|rewrite (killpg_item_sound _ _ _ _ Sd), killpg_result, K0; reflexivity].
    exists [EvKillpg p SIG0 (Some c0); EvLog WARNING (dropped_warning c0 p)], [].
    exists (emit (EvLog WARNING (dropped_warning c0 p))
              (tick (emit (EvKillpg p SIG0 (Some c0)) w))).
    split; [|split; [|split]].
    + destruct c0; try discriminate; cbn [OSError_of is_lookup_or_permission];
        (erewrite bind_returns; [|reflexivity]); unfold ret;
        rewrite app_nil_r; reflexivity.
    + now repeat split.
    + world_simpl. now rewrite <- app_assoc.
    + intros pids evs' active R. now apply recovery_dropped.
  - erewrite bind_returns;
      [|rewrite (killpg_item_sound _ _ _ _ Sd), killpg_result, K0; reflexivity].
    erewrite bind_returns; [|reflexivity].
    set (w1 := emit (EvLog INFO (MsgTerminatingExisting (JInt p)))
                 (tick (emit (EvKillpg p SIG0 None) w))).
    destruct (os_killpg os (clock w1) p SIGTERM) as [c1|] eqn:K1.
    + (* the probe succeeds, SIGTERM fails *)
      pose proof (sound_caught _ _ _ _ _ Sd K1) as C1.
      erewrite bind_aborts;
        [|rewrite (killpg_item_sound _ _ _ _ Sd), killpg_result, K1; reflexivity].
      exists [EvKillpg p SIG0 None; EvLog INFO (MsgTerminatingExisting (JInt p));
              EvKillpg p SIGTERM (Some c1); EvLog WARNING (dropped_warning c1 p)], [].
      exists (emit (EvLog WARNING (dropped_warning c1 p))
                (tick (emit (EvKillpg p SIGTERM (Some c1)) w1))).
      split; [|split; [|split]].
      * destruct c1; try discriminate; cbn [OSError_of is_lookup_or_permission];
          (erewrite bind_returns; [|reflexivity]); unfold ret;
          rewrite app_nil_r; reflexivity.
      * now repeat split.
      * unfold w1. world_simpl. now rewrite <- !app_assoc.
      * intros pids evs' active R. now apply recovery_lost.
    + (* both succeed *)
      erewrite bind_returns;
        [|rewrite (killpg_item_sound _ _ _ _ Sd), killpg_result, K1; reflexivity].
      exists [EvKillpg p SIG0 None; EvLog INFO (MsgTerminatingExisting (JInt p));
              EvKillpg p SIGTERM None], [p].
      eexists. split; [reflexivity|split; [|split]].
      * now repeat split.
      * unfold w1. world_simpl. now rewrite <- !app_assoc.
      * intros pids evs' active R. now apply recovery_signalled.
Qed.

Lemma terminate_loop_outcome os pids acc w :
  Forall (sound_id os) pids ->
  exists evs active w',
    for_fold (map JInt pids) acc (terminate_one os) w
      = (inr (acc ++ map JInt active), w') /\
    untouched w w' /\ trace w' = trace w ++ evs /\
    recovery pids evs active.
Proof.
  intros Sd. revert acc w. induction Sd as [|p pids Sp _ IH]; intros acc w.
  - exists [], [], w. cbn [map]. rewrite !app_nil_r. repeat split. constructor.
  - destruct (terminate_one_outcome os p acc w Sp)
      as (e1 & k1 & w1 & E1 & U1 & T1 & R1).
    destruct (IH (acc ++ map JInt k1) w1) as (e2 & k2 & w2 & E2 & U2 & T2 & R2).
    exists (e1 ++ e2), (k1 ++ k2), w2. split; [|split; [|split]].
    + cbn [map for_fold]. erewrite bind_returns; [|exact E1].
      rewrite E2, map_app. now rewrite app_assoc.
    + eapply untouched_trans; eassumption.
    + rewrite T2, T1. now rewrite app_assoc.
    + now apply R1.
Qed.

Lemma integers_map_JInt l : integers (map JInt l) = Some l.
Proof.
  induction l as [|n l IH]; [reflexivity|]. cbn [map integers]. now rewrite IH.
Qed.

(** What [read_lock_file] and the start of the loop give on a lock file
    that is sound. *)
Lemma sound_items os w :
  sound_registry os w ->
  read_lock_file w = (inr (JArray (map JInt (persisted w))), w) /\
  Forall (sound_id os) (persisted w).
Proof.
  unfold sound_registry, read_lock_file, persisted.
  destruct (lock_file w); intros H; try contradiction; split;
    try reflexivity; try constructor; exact H.
Qed.

(** On a lock file that is sound [terminate_existing_processes] returns,
    and does to the persisted identifiers what [recovery] says. *)
Lemma terminate_existing_processes_outcome os w :
  sound_registry os w ->
  exists evs active w',
    terminate_existing_processes os w = (inr tt, w') /\
    recovery (persisted w) evs active /\
    lock_file w' = repersisted active /\
    trace w' = trace w ++ evs ++ repersist_events (lock_file w) active /\
    shutdown w' = shutdown w /\ processes w' = processes w /\
    lock_held w' = lock_held w.
Proof.
  intros Sd. destruct (sound_items os w Sd) as [Rd Fs].
  destruct (terminate_loop_outcome os (persisted w) [] w Fs)
    as (evs & active & w1 & E & U & T & R).
  destruct U as (U1 & U2 & U3 & U4 & U5 & U6 & U7).
  exists evs, active.
  assert (H : terminate_existing_processes os w =
              match active with
              | [] => clear_lock_file w1
              | _ :: _ => write_lock_file active w1
              end).
  { unfold terminate_existing_processes.
    erewrite bind_returns; [|exact Rd].
    erewrite bind_returns; [|reflexivity].
    erewrite bind_returns; [|exact E]. cbn [app].
    destruct active as [|a active]; [reflexivity|].
    change (map JInt (a :: active)) with (JInt a :: map JInt active).
    unfold dump_lock_file.
    change (JInt a :: map JInt active) with (map JInt (a :: active)).
    now rewrite integers_map_JInt. }
  rewrite H. destruct active as [|a active].
  - unfold clear_lock_file. rewrite U5. cbn [repersisted repersist_events].
    destruct (lock_file w) eqn:L; eexists; (split; [reflexivity|]); world_simpl;
      repeat split; try assumption; try congruence;
      rewrite T, ?app_nil_r, <- ?app_assoc; reflexivity.
  - eexists. split; [reflexivity|]. world_simpl.
    repeat split; try assumption. rewrite T. now rewrite <- app_assoc.
Qed.










(** ** The shutdown sequence when the process groups are found *)

Lemma table_kept_refl w : table_kept w w.
Proof. now repeat split. Qed.

Lemma table_kept_trans w1 w2 w3 :
  table_kept w1 w2 -> table_kept w2 w3 -> table_kept w1 w3.
Proof.
  unfold table_kept. intros (?&?&?&?&?) (?&?&?&?&?). repeat split; congruence.
Qed.

Lemma getpgid_found os p w :
  found (os_getpgid os (clock w) p) = true ->
  exists g, getpgid os p w = (inr g, tick w).
Proof.
  unfold getpgid. destruct (os_getpgid os (clock w) p) as [c|g]; [discriminate|].
  eauto.
Qed.

(** One [try] block of a signalling pass: whether or not the signal is
    delivered, the block is left normally after exactly one [killpg]. *)
Lemma signal_group_returns os sig process service_name w :
  (forall t, found (os_getpgid os t (pid process)) = true) ->
  exists w' evs,
    signal_group os sig process service_name w = (inr tt, w') /\
    table_kept w w' /\ trace w' = trace w ++ evs /\
    Forall (signal_event sig) evs /\ count is_kill evs = 1%nat.
Proof.
  intros G. unfold signal_group, try_except.
  destruct (getpgid_found os (pid process) w (G _)) as (g0 & E0).
  erewrite bind_returns; [|exact E0].
  erewrite bind_returns; [|reflexivity].
  set (w1 := emit (EvLog INFO (MsgSending sig g0 service_name)) (tick w)).
  destruct (getpgid_found os (pid process) w1 (G _)) as (g1 & E1).
  erewrite bind_returns; [|exact E1].
  rewrite killpg_result.
  destruct (os_killpg os (clock (tick w1)) g1 sig) as [c|] eqn:K.
  - assert (Ex : is_Exception (OSError_of c) = true) by now destruct c.
    rewrite Ex.
    set (w2 := tick (emit (EvKillpg g1 sig (Some c)) (tick w1))).
    destruct (getpgid_found os (pid process) w2 (G _)) as (g2 & E2).
    erewrite bind_returns; [|exact E2].
    eexists. eexists. split; [reflexivity|].
    unfold logger, modify, w2, w1. world_simpl.
    split; [now repeat split|].
    split; [rewrite <- !app_assoc; reflexivity|].
    split; [now repeat constructor|reflexivity].
  - eexists. eexists. split; [reflexivity|]. unfold w1. world_simpl.
    split; [now repeat split|].
    split; [rewrite <- !app_assoc; reflexivity|].
    split; [now repeat constructor|reflexivity].
Qed.

(** The pass that sends SIGTERM: one signal per tracked process. *)
Lemma terminate_pass os ps :
  (forall t p, In p ps -> found (os_getpgid os t (pid p)) = true) ->
  forall w, exists w' evs,
    for_each ps (fun process =>
      let! service_name := service_name_of process in
      signal_group os SIGTERM process service_name) w = (inr tt, w') /\
    table_kept w w' /\ trace w' = trace w ++ evs /\
    Forall (signal_event SIGTERM) evs /\ count is_kill evs = length ps.
Proof.
  induction ps as [|p ps IH]; intros G w.
  - exists w, []. rewrite app_nil_r. split; [reflexivity|].
    split; [apply table_kept_refl|]. repeat split. constructor.
  - cbn [for_each].
    destruct (signal_group_returns os SIGTERM p
                (get (process_service_map w !! pid p) "Unknown service"%string) w
                (fun t => G t p (or_introl eq_refl)))
      as (w1 & e1 & E1 & K1 & T1 & Q1 & C1).
    destruct (IH (fun t q I => G t q (or_intror I)) w1)
      as (w2 & e2 & E2 & K2 & T2 & Q2 & C2).
    exists w2, (e1 ++ e2).
    erewrite bind_returns; [|erewrite bind_returns; [exact E1|reflexivity]].
    split; [exact E2|]. split; [eapply table_kept_trans; eassumption|].
    split; [rewrite T2, T1; now rewrite app_assoc|].
    split; [now apply Forall_app|]. rewrite count_app, C1, C2. reflexivity.
Qed.

Lemma sigterm_groups_app evs1 evs2 :
  sigterm_groups (evs1 ++ evs2) = sigterm_groups evs1 ++ sigterm_groups evs2.
Proof.
  induction evs1 as [|ev evs1 IH]; [reflexivity|].
  destruct ev as [| | |g sig r| | | | | |]; cbn [app sigterm_groups]; try exact IH.
  destruct sig; cbn [app]; try exact IH. now rewrite IH.
Qed.

(** The SIGTERM of [signal_group] goes to the group that [os.getpgid]
    gives for the process. *)
Lemma signal_group_target os process service_name w :
  (forall t, found (os_getpgid os t (pid process)) = true) ->
  exists w' evs g,
    signal_group os SIGTERM process service_name w = (inr tt, w') /\
    table_kept w w' /\ trace w' = trace w ++ evs /\
    Forall (signal_event SIGTERM) evs /\ count is_kill evs = 1%nat /\
    sigterm_groups evs = [g] /\ group_of os process g.
Proof.
  intros G. unfold signal_group, try_except.
  destruct (getpgid_found os (pid process) w (G _)) as (g0 & E0).
  erewrite bind_returns; [|exact E0].
  erewrite bind_returns; [|reflexivity].
  set (w1 := emit (EvLog INFO (MsgSending SIGTERM g0 service_name)) (tick w)).
  destruct (getpgid_found os (pid process) w1 (G _)) as (g1 & E1).
  assert (Gr : group_of os process g1).
  { exists (clock w1). unfold getpgid in E1.
    destruct (os_getpgid os (clock w1) (pid process)); congruence. }
  erewrite bind_returns; [|exact E1].
  rewrite killpg_result.
  destruct (os_killpg os (clock (tick w1)) g1 SIGTERM) as [c|] eqn:K.
  - assert (Ex : is_Exception (OSError_of c) = true) by now destruct c.
    rewrite Ex.
    set (w2 := tick (emit (EvKillpg g1 SIGTERM (Some c)) (tick w1))).
    destruct (getpgid_found os (pid process) w2 (G _)) as (g2 & E2).
    erewrite bind_returns; [|exact E2].
    eexists. eexists. exists g1. split; [reflexivity|].
    unfold logger, modify, w2, w1. world_simpl.
    split; [now repeat split|].
    split; [rewrite <- !app_assoc; reflexivity|].
    split; [now repeat constructor|]. split; [reflexivity|].
    split; [reflexivity|exact Gr].
  - eexists. eexists. exists g1. split; [reflexivity|]. unfold w1. world_simpl.
    split; [now repeat split|].
    split; [rewrite <- !app_assoc; reflexivity|].
    split; [now repeat constructor|]. split; [reflexivity|].
    split; [reflexivity|exact Gr].
Qed.

(** The pass that sends SIGTERM: one signal per tracked process, in the
    order of the table, each to the group of its process. *)
Lemma terminate_pass_targets os ps :
  (forall t p, In p ps -> found (os_getpgid os t (pid p)) = true) ->
  forall w, exists w' evs,
    for_each ps (fun process =>
      let! service_name := service_name_of process in
      signal_group os SIGTERM process service_name) w = (inr tt, w') /\
    table_kept w w' /\ trace w' = trace w ++ evs /\
    Forall (signal_event SIGTERM) evs /\ count is_kill evs = length ps /\
    Forall2 (group_of os) ps (sigterm_groups evs).
Proof.
  induction ps as [|p ps IH]; intros G w.
  - exists w, []. rewrite app_nil_r. split; [reflexivity|].
    split; [apply table_kept_refl|]. repeat split; constructor.
  - cbn [for_each].
    destruct (signal_group_target os p
                (get (process_service_map w !! pid p) "Unknown service"%string) w
                (fun t => G t p (or_introl eq_refl)))
      as (w1 & e1 & g & E1 & K1 & T1 & Q1 & C1 & S1 & G1).
    destruct (IH (fun t q I => G t q (or_intror I)) w1)
      as (w2 & e2 & E2 & K2 & T2 & Q2 & C2 & F2).
    exists w2, (e1 ++ e2).
    erewrite bind_returns; [|erewrite bind_returns; [exact E1|reflexivity]].
    split; [exact E2|]. split; [eapply table_kept_trans; eassumption|].
    split; [rewrite T2, T1; now rewrite app_assoc|].
    split; [now apply Forall_app|].
    split; [rewrite count_app, C1, C2; reflexivity|].
    rewrite sigterm_groups_app, S1. now constructor.
Qed.

Lemma poll_result os process w :
  exists status w',
    poll os process w = (inr status, w') /\ table_kept w w' /\
    trace w' = trace w.
Proof.
  unfold poll. destruct (returncodes w !! obj process) as [c|].
  - exists (Some c), w. repeat split.
  - destruct (os_poll os (clock w) process) as [c|];
      eexists; eexists; (split; [reflexivity|]); now repeat split.
Qed.

(** The pass that sends SIGKILL: at most one signal per tracked process,
    and only SIGKILL. *)
Lemma kill_pass os ps :
  (forall t p, In p ps -> found (os_getpgid os t (pid p)) = true) ->
  forall w, exists w' evs,
    for_each ps (fun process =>
      let! service_name := service_name_of process in
      let! status := poll os process in
      match status with
      | None => signal_group os SIGKILL process service_name
      | Some _ => ret tt
      end) w = (inr tt, w') /\
    table_kept w w' /\ trace w' = trace w ++ evs /\
    Forall (signal_event SIGKILL) evs /\ (count is_kill evs <= length ps)%nat.
Proof.
  induction ps as [|p ps IH]; intros G w.
  - exists w, []. rewrite app_nil_r. split; [reflexivity|].
    split; [apply table_kept_refl|]. repeat split; [constructor|cbn; lia].
  - cbn [for_each].
    assert (exists w1 e1,
      (let! service_name := service_name_of p in
       let! status := poll os p in
       match status with
       | None => signal_group os SIGKILL p service_name
       | Some _ => ret tt
       end) w = (inr tt, w1) /\
      table_kept w w1 /\ trace w1 = trace w ++ e1 /\
      Forall (signal_event SIGKILL) e1 /\ (count is_kill e1 <= 1)%nat)
      as (w1 & e1 & E1 & K1 & T1 & Q1 & C1).
    { erewrite bind_returns; [|reflexivity].
      destruct (poll_result os p w) as (status & w0 & E0 & K0 & T0).
      erewrite bind_returns; [|exact E0].
      destruct status as [c|].
      - exists w0, []. rewrite app_nil_r. repeat split; try apply K0.
        + exact T0.
        + constructor.
        + cbn. lia.
      - destruct (signal_group_returns os SIGKILL p
                    (get (process_service_map w !! pid p) "Unknown service"%string)
                    w0 (fun t => G t p (or_introl eq_refl)))
          as (w1 & e1 & E1 & K1 & T1 & Q1 & C1).
        exists w1, e1. split; [exact E1|].
        split; [eapply table_kept_trans; eassumption|].
        split; [rewrite T1, T0; reflexivity|]. split; [exact Q1|lia]. }
    destruct (IH (fun t q I => G t q (or_intror I)) w1)
      as (w2 & e2 & E2 & K2 & T2 & Q2 & C2).
    exists w2, (e1 ++ e2).
    erewrite bind_returns; [|exact E1].
    split; [exact E2|]. split; [eapply table_kept_trans; eassumption|].
    split; [rewrite T2, T1; now rewrite app_assoc|].
    split; [now apply Forall_app|]. rewrite count_app. cbn [length]. lia.
Qed.

(** The reaping pass: every wait is bounded by five seconds, a timeout is
    answered by a warning, and the pass goes on to the next process. *)
Lemma reap_pass os ps :
  forall w, exists w' evs,
    for_each ps (fun process =>
      try_except
        (wait_timeout os process 5 >> ret tt)
        is_TimeoutExpired
        (fun _ =>
           let! service_name := service_name_of process in
           logger WARNING (MsgDidNotTerminate (pid process) service_name))) w
      = (inr tt, w') /\
    table_kept w w' /\ trace w' = trace w ++ evs /\ Forall reap_event evs.
Proof.
  induction ps as [|p ps IH]; intros w.
  - exists w, []. rewrite app_nil_r. split; [reflexivity|].
    split; [apply table_kept_refl|]. repeat split. constructor.
  - cbn [for_each].
    assert (exists w1 e1,
      try_except (wait_timeout os p 5 >> ret tt) is_TimeoutExpired
        (fun _ =>
           let! service_name := service_name_of p in
           logger WARNING (MsgDidNotTerminate (pid p) service_name)) w
        = (inr tt, w1) /\
      table_kept w w1 /\ trace w1 = trace w ++ e1 /\ Forall reap_event e1)
      as (w1 & e1 & E1 & K1 & T1 & Q1).
    { unfold try_except, bind at 1, wait_timeout.
      destruct (returncodes w !! obj p) as [c|].
      - exists w, []. rewrite app_nil_r. repeat split. constructor.
      - destruct (os_wait_timeout os (clock w) p 5) as [c|].
        + eexists. eexists. split; [reflexivity|]. world_simpl.
          split; [now repeat split|]. split; [reflexivity|].
          now repeat constructor.
        + cbn [is_TimeoutExpired]. eexists. eexists.
          split; [reflexivity|]. unfold logger, modify. world_simpl.
          split; [now repeat split|].
          split; [rewrite <- app_assoc; reflexivity|].
          now repeat constructor. }
    destruct (IH w1) as (w2 & e2 & E2 & K2 & T2 & Q2).
    exists w2, (e1 ++ e2).
    erewrite bind_returns; [|exact E1].
    split; [exact E2|]. split; [eapply table_kept_trans; eassumption|].
    split; [rewrite T2, T1; now rewrite app_assoc|]. now apply Forall_app.
Qed.

(** The whole of [cleanup_processes] when the process group of every
    tracked process is found: it returns; its events are, in this order,
    those of the SIGTERM pass with one signal per tracked process, the
    one-second sleep, those of the SIGKILL pass, those of the reaping pass,
    the removal of the lock file, and the closing line.  A signal that is
    not delivered is logged inside its pass and does not stop it. *)
Lemma cleanup_processes_sequence os w :
  shutdown w = false ->
  lock_held w = false ->
  (forall t p, In p (processes w) -> found (os_getpgid os t (pid p)) = true) ->
  exists w' term kill reap,
    cleanup_processes os w = (inr tt, w') /\
    shutdown w' = true /\ lock_file w' = Absent /\ lock_held w' = false /\
    new_events w w' =
      term ++ [EvLog INFO MsgCleaningUp; EvSleep 1] ++ kill ++ reap ++
      repersist_events (lock_file w) [] ++ [EvLog INFO MsgCleanupComplete] /\
    Forall (signal_event SIGTERM) term /\
    count is_kill term = length (processes w) /\
    Forall (signal_event SIGKILL) kill /\
    (count is_kill kill <= length (processes w))%nat /\
    Forall reap_event reap /\
    Forall2 (group_of os) (processes w) (sigterm_groups term).
Proof.
  intros S L G. rewrite (cleanup_processes_first _ _ S).
  set (w0 := set_lock_held true (set_shutdown true w)).
  destruct (terminate_pass_targets os (processes w0) G w0)
    as (w1 & e1 & E1 & K1 & T1 & Q1 & C1 & F1).
  set (w2 := emit (EvSleep 1) (emit (EvLog INFO MsgCleaningUp) w1)).
  assert (P2 : processes w2 = processes w) by (unfold w2; world_simpl; apply K1).
  destruct (kill_pass os (processes w2)
              ltac:(rewrite P2; exact G) w2)
    as (w3 & e3 & E3 & K3 & T3 & Q3 & C3).
  destruct (reap_pass os (processes w3) w3) as (w4 & e4 & E4 & K4 & T4 & Q4).
  assert (KS : exists w5,
    kill_sequence os w0 = (inr tt, w5) /\
    lock_file w5 = Absent /\ shutdown w5 = true /\
    trace w5 = trace w4 ++ repersist_events (lock_file w) []).
  { unfold kill_sequence.
    erewrite bind_returns; [|reflexivity].
    erewrite bind_returns; [|exact E1].
    erewrite bind_returns; [|reflexivity].
    erewrite bind_returns; [|reflexivity]. fold w2.
    erewrite bind_returns; [|reflexivity].
    erewrite bind_returns; [|exact E3].
    erewrite bind_returns; [|reflexivity].
    erewrite bind_returns; [|exact E4].
    assert (LF : lock_file w4 = lock_file w).
    { destruct K4 as (_&_&_&_&->). destruct K3 as (_&_&_&_&->). unfold w2.
      world_simpl. destruct K1 as (_&_&_&_&->). reflexivity. }
    assert (SF : shutdown w4 = true).
    { destruct K4 as (->&_). destruct K3 as (->&_). unfold w2.
      world_simpl. destruct K1 as (->&_). reflexivity. }
    unfold clear_lock_file. rewrite LF. cbn [repersist_events].
    destruct (lock_file w) eqn:LW; eexists; (split; [reflexivity|]);
      world_simpl; rewrite ?app_nil_r; repeat split; try assumption;
      congruence. }
  destruct KS as (w5 & E5 & LF5 & SF5 & T5).
  exists (emit (EvLog INFO MsgCleanupComplete) (set_lock_held false w5)),
    e1, e3, e4.
  split.
  { erewrite bind_returns; [reflexivity|].
    apply with_lock_free; [exact L|exact E5]. }
  world_simpl. repeat split; try assumption.
  - apply new_events_app. world_simpl. rewrite T5, T4, T3. unfold w2.
    world_simpl. rewrite T1. unfold w0. world_simpl.
    now rewrite <- !app_assoc.
  - rewrite <- P2. exact C3.
Qed.

(** ** Start-up: the number of instances *)

Lemma after_launch_trace os service i child w :
  trace (after_launch os service i child w) =
  trace w ++
    [EvPopen (service_command service) (service_dir os service) (inr child);
     EvWriteLock (map pid (processes w ++ [mkPopen (next_obj w) child]));
     EvLog INFO (MsgStarting i (name service) (service_command service) child
                   (service_dir os service))].
Proof. reflexivity. Qed.

(** One turn of [for i in range(instances)] when the launch succeeds. *)
Lemma launch_instance_ok os service i started w :
  lock_held w = false ->
  launched (os_popen os (clock w) (service_command service)
              (service_environ os service) (service_dir os service)) = true ->
  exists w' evs,
    launch_instance os service i started w = (inr true, w') /\
    lock_held w' = false /\
    length (processes w') = S (length (processes w)) /\
    trace w' = trace w ++ evs /\
    count is_launch evs = 1%nat /\
    count is_thread evs = (if get (wait_ready service) false then 1 else 0)%nat.
Proof.
  intros L P.
  destruct (os_popen os (clock w) (service_command service)
              (service_environ os service) (service_dir os service))
    as [e|child] eqn:E; [discriminate|].
  unfold launch_instance.
  erewrite bind_returns; [|eapply start_service_launches; eassumption].
  pose proof (after_launch_trace os service i child w) as T.
  assert (N : length (processes (after_launch os service i child w)) =
              S (length (processes w))).
  { unfold after_launch. world_simpl. rewrite length_app. cbn. lia. }
  destruct (get (wait_ready service) false); cbn [when].
  - eexists. eexists. split; [reflexivity|].
    unfold thread_start, modify. world_simpl.
    split; [reflexivity|]. split; [exact N|].
    split; [rewrite T, <- app_assoc; reflexivity|]. split; reflexivity.
  - eexists. eexists. split; [reflexivity|].
    split; [reflexivity|]. split; [exact N|].
    split; [exact T|]. split; reflexivity.
Qed.

(** The loop [for i in range(instances)] when every launch succeeds. *)
Lemma launch_loop_ok os service k :
  (forall t c e d, launched (os_popen os t c e d) = true) ->
  forall a started w,
  lock_held w = false ->
  exists w' evs,
    for_fold (map Z.of_nat (seq a k)) started (launch_instance os service) w =
      (inr (match k with O => started | S _ => true end), w') /\
    lock_held w' = false /\
    length (processes w') = (length (processes w) + k)%nat /\
    trace w' = trace w ++ evs /\
    count is_launch evs = k /\
    count is_thread evs = (if get (wait_ready service) false then k else 0)%nat.
Proof.
  intros P. induction k as [|k IH]; intros a started w L.
  - exists w, []. rewrite app_nil_r, Nat.add_0_r.
    repeat split; try assumption.
    now destruct (get (wait_ready service) false).
  - destruct (launch_instance_ok os service (Z.of_nat a) started w L (P _ _ _ _))
      as (w1 & e1 & E1 & L1 & N1 & T1 & C1 & H1).
    destruct (IH (S a) true w1 L1) as (w2 & e2 & E2 & L2 & N2 & T2 & C2 & H2).
    exists w2, (e1 ++ e2). cbn [seq map for_fold].
    erewrite bind_returns; [|exact E1]. rewrite E2.
    repeat split.
    + now destruct k.
    + exact L2.
    + lia.
    + rewrite T2, T1. now rewrite app_assoc.
    + rewrite count_app. lia.
    + rewrite count_app, H1, H2.
      destruct (get (wait_ready service) false); lia.
Qed.

(** An enabled service whose instance count comes out as [n]. *)
Lemma main_service_launches os total_cpus service started w n :
  get (disabled service) false = false ->
  lock_held w = false ->
  (forall t c e d, launched (os_popen os t c e d) = true) ->
  instance_count total_cpus service w = (inr n, w) ->
  let w' := snd (main_service os total_cpus service started w) in
  launches w w' = Z.to_nat n /\
  length (processes w') = (length (processes w) + Z.to_nat n)%nat /\
  monitors w w' = (if get (wait_ready service) false then Z.to_nat n else 0)%nat.
Proof.
  intros D L P N. unfold main_service. rewrite D.
  erewrite bind_returns; [|exact N]. unfold range.
  destruct (launch_loop_ok os service (Z.to_nat n) P 0%nat started w L)
    as (w' & evs & E & _ & Len & T & C & H).
  rewrite E. cbn [snd]. unfold launches, monitors.
  rewrite (new_events_app _ _ _ T). auto.
Qed.

(** C9.  The number of instances launched for an enabled service, when
    every launch succeeds: exactly [n] for [instances = n > 0], exactly
    [max(1, cpu_count - k)] for [instances = -k], exactly one when the
    field is absent.  Each launch adds one entry to the process table. *)
Theorem instances_launched os service started w :
  get (disabled service) false = false ->
  lock_held w = false ->
  (forall t c e d, launched (os_popen os t c e d) = true) ->
  let w' := snd (main_service os (os_cpu_count os) service started w) in
  (forall n, instances service = Some n -> 0 < n ->
     launches w w' = Z.to_nat n /\
     length (processes w') = (length (processes w) + Z.to_nat n)%nat) /\
  (forall k cpus, instances service = Some (- k) -> 0 < k ->
     os_cpu_count os = Some cpus ->
     launches w w' = Z.to_nat (Z.max 1 (cpus - k)) /\
     length (processes w') =
       (length (processes w) + Z.to_nat (Z.max 1 (cpus - k)))%nat) /\
  (instances service = None ->
     launches w w' = 1%nat /\
     length (processes w') = (length (processes w) + 1)%nat).
Proof.
  intros D L P w'. repeat split.
  - eapply main_service_launches; try eassumption.
    unfold instance_count. rewrite H. cbn [get].
    destruct (n <? 0) eqn:C; [lia|reflexivity].
  - eapply main_service_launches; try eassumption.
    unfold instance_count. rewrite H. cbn [get].
    destruct (n <? 0) eqn:C; [lia|reflexivity].
  - eapply main_service_launches; try eassumption.
    unfold instance_count. rewrite H, H1. cbn [get].
    destruct (- k <? 0) eqn:C; [|lia].
    replace (Z.abs (- k)) with k by lia. reflexivity.
  - eapply main_service_launches; try eassumption.
    unfold instance_count. rewrite H, H1. cbn [get].
    destruct (- k <? 0) eqn:C; [|lia].
    replace (Z.abs (- k)) with k by lia. reflexivity.
  - change 1%nat with (Z.to_nat 1).
    eapply main_service_launches; try eassumption.
    unfold instance_count. now rewrite H.
  - change 1%nat with (Z.to_nat 1).
    eapply main_service_launches; try eassumption.
    unfold instance_count. now rewrite H.
Qed.

(** C9, on a machine with four processors: three instances for
    [instances = 3], three for [instances = -1], one when the field is
    absent. *)
Lemma instances_launched_witness :
  launches boot
    (snd (main_service (os_exiting 0) (Some 4)
            (service_entry "web" "python" (Some 3) None None None) false boot))
    = 3%nat /\
  launches boot
    (snd (main_service (os_exiting 0) (Some 4)
            (service_entry "web" "python" (Some (-1)) None None None) false boot))
    = 3%nat /\
  launches boot
    (snd (main_service (os_exiting 0) (Some 4)
            (service_entry "web" "python" None None None None) false boot))
    = 1%nat.
Proof.
  split; [|split].
  - pose proof (instances_launched (os_exiting 0)
                  (service_entry "web" "python" (Some 3) None None None)
                  false boot eq_refl eq_refl (fun _ _ _ _ => eq_refl))
      as (H & _ & _).
    exact (proj1 (H 3 eq_refl eq_refl)).
  - pose proof (instances_launched (os_exiting 0)
                  (service_entry "web" "python" (Some (-1)) None None None)
                  false boot eq_refl eq_refl (fun _ _ _ _ => eq_refl))
      as (_ & H & _).
    exact (proj1 (H 1 4 eq_refl eq_refl eq_refl)).
  - pose proof (instances_launched (os_exiting 0)
                  (service_entry "web" "python" None None None None)
                  false boot eq_refl eq_refl (fun _ _ _ _ => eq_refl))
      as (_ & _ & H).
    exact (proj1 (H eq_refl)).
Defined.

(** ** Start-up: nothing to start *)

Lemma main_service_zero os total_cpus service started w :
  get (disabled service) false = false ->
  instances service = Some 0 ->
  main_service os total_cpus service started w = (inr started, w).
Proof.
  intros D Z0. unfold main_service, instance_count. rewrite D, Z0. reflexivity.
Qed.

Lemma main_service_passed_over os total_cpus service started w :
  passed_over service ->
  exists w' evs,
    main_service os total_cpus service started w = (inr started, w') /\
    trace w' = trace w ++ evs /\ Forall idle_event evs.
Proof.
  intros H. destruct (get (disabled service) false) eqn:D.
  - exists (emit (EvLog INFO (MsgDisabled (name service))) w),
      [EvLog INFO (MsgDisabled (name service))].
    unfold main_service. rewrite D. repeat split. repeat constructor.
  - exists w, []. rewrite (main_service_zero _ _ _ _ _ D (H D)).
    rewrite app_nil_r. repeat split. constructor.
Qed.

Lemma main_loop_passed_over os total_cpus services :
  Forall passed_over services ->
  forall started w, exists w' evs,
    for_fold services started (main_service os total_cpus) w = (inr started, w') /\
    trace w' = trace w ++ evs /\ Forall idle_event evs.
Proof.
  induction 1 as [|service services H _ IH]; intros started w.
  - exists w, []. rewrite app_nil_r. repeat split. constructor.
  - destruct (main_service_passed_over os total_cpus service started w H)
      as (w1 & e1 & E1 & T1 & F1).
    destruct (IH started w1) as (w2 & e2 & E2 & T2 & F2).
    exists w2, (e1 ++ e2). cbn [for_fold].
    erewrite bind_returns; [|exact E1]. rewrite E2. repeat split.
    + rewrite T2, T1. now rewrite app_assoc.
    + now apply Forall_app.
Qed.

Lemma main_startup_nothing os services w :
  Forall passed_over services ->
  exists w' evs,
    main_startup os services w = (inl (Raised (SystemExit 1)), w') /\
    trace w' = trace w ++ evs /\ Forall idle_event evs.
Proof.
  intros H.
  destruct (main_loop_passed_over os (os_cpu_count os) services H false w)
    as (w1 & e1 & E1 & T1 & F1).
  exists (emit (EvLog ERROR MsgNoServices) w1), (e1 ++ [EvLog ERROR MsgNoServices]).
  unfold main_startup. erewrite bind_returns; [|exact E1]. cbn [negb].
  repeat split.
  - world_simpl. rewrite T1. now rewrite app_assoc.
  - apply Forall_app. split; [exact F1|]. repeat constructor.
Qed.

Lemma recovery_idle pids evs active :
  recovery pids evs active -> Forall idle_event evs.
Proof. induction 1; repeat constructor; assumption. Qed.

Lemma idle_count evs :
  Forall idle_event evs ->
  count is_spawn evs = 0%nat /\ count is_launch evs = 0%nat /\
  count is_thread evs = 0%nat.
Proof.
  intros F. repeat split; apply count_none; (eapply Forall_impl; [exact F|]).
  - now intros ev [H _].
  - intros [| |c d [e|p]| | | | | | |] [H _]; cbn in *; congruence.
  - now intros ev [_ H].
Qed.

(** Crash recovery launches nothing and starts no monitor, however it
    ends. *)
Lemma emits_idle_terminate_existing_processes os :
  emits idle_event (terminate_existing_processes os).
Proof.
  unfold terminate_existing_processes, terminate_one.
  emits_walk; now split.
Qed.

(** The run of [main] up to the start-up loop: either crash recovery
    returns and the start-up loop begins, or [main] ends where crash
    recovery does. *)
Lemma main_prefix os services w :
  exists w1 evs,
    trace w1 = trace w ++ evs /\ Forall idle_event evs /\
    (main os services w = main_startup os services w1 \/
     exists f, main os services w = (inl f, w1)).
Proof.
  set (w0 := emit (EvSignalHandler SIGINT)
               (emit (EvSignalHandler SIGTERM)
                  (emit (EvLog DEBUG MsgManagerPid) w))).
  destruct (emits_idle_terminate_existing_processes os w0) as [_ (evs & T & F)].
  assert (M0 : main os services w =
               bind (terminate_existing_processes os)
                    (fun _ => main_startup os services) w0).
  { unfold main. do 3 (erewrite bind_returns; [|reflexivity]). reflexivity. }
  destruct (terminate_existing_processes os w0) as [[f|[]] w1] eqn:E;
    cbn [snd] in T; exists w1, (main_prologue ++ evs).
  - split; [|split].
    + rewrite T. unfold w0, main_prologue. world_simpl. now rewrite <- !app_assoc.
    + apply Forall_app. split; [repeat constructor|exact F].
    + right. exists f. rewrite M0. erewrite bind_aborts; [reflexivity|exact E].
  - split; [|split].
    + rewrite T. unfold w0, main_prologue. world_simpl. now rewrite <- !app_assoc.
    + apply Forall_app. split; [repeat constructor|exact F].
    + left. rewrite M0. erewrite bind_returns; [reflexivity|exact E].
Qed.

(** With a lock file that is sound, crash recovery returns and the
    start-up loop begins. *)
Lemma main_recovers os services w :
  sound_registry os w ->
  exists w1 evs,
    main os services w = main_startup os services w1 /\
    trace w1 = trace w ++ evs /\ Forall idle_event evs /\
    lock_held w1 = lock_held w /\ processes w1 = processes w.
Proof.
  intros Sd.
  set (w0 := emit (EvSignalHandler SIGINT)
               (emit (EvSignalHandler SIGTERM)
                  (emit (EvLog DEBUG MsgManagerPid) w))).
  destruct (terminate_existing_processes_outcome os w0 Sd)
    as (evs & active & w1 & E & R & _ & T & _ & P & L).
  exists w1, (main_prologue ++ evs ++ repersist_events (lock_file w0) active).
  repeat split.
  - unfold main. do 3 (erewrite bind_returns; [|reflexivity]).
    fold w0. erewrite bind_returns; [|exact E]. reflexivity.
  - rewrite T. unfold w0, main_prologue. world_simpl. now rewrite <- !app_assoc.
  - apply Forall_app. split; [repeat constructor|].
    apply Forall_app. split; [eapply recovery_idle, R|].
    destruct active, (lock_file w0); repeat constructor.
  - exact L.
  - exact P.
Qed.

(** When every service is passed over, the start-up loop ends with
    [SystemExit(1)] and so does [main] after a crash recovery that
    returns; nothing is launched and no monitor is started, however
    [main] ends. *)
Lemma main_nothing_to_start os services w :
  Forall passed_over services ->
  fst (main_startup os services w) = inl (Raised (SystemExit 1)) /\
  (sound_registry os w ->
   fst (main os services w) = inl (Raised (SystemExit 1))) /\
  launches w (snd (main os services w)) = 0%nat /\
  monitors w (snd (main os services w)) = 0%nat.
Proof.
  intros H. split; [|split].
  - destruct (main_startup_nothing os services w H) as (w2 & e2 & E2 & _).
    now rewrite E2.
  - intros Sd.
    destruct (main_recovers os services w Sd) as (w1 & e1 & E1 & _).
    destruct (main_startup_nothing os services w1 H) as (w2 & e2 & E2 & _).
    now rewrite E1, E2.
  - destruct (main_prefix os services w) as (w1 & e1 & T1 & F1 & [E1|[f E1]]).
    + destruct (main_startup_nothing os services w1 H) as (w2 & e2 & E2 & T2 & F2).
      rewrite E1, E2. cbn [fst snd].
      assert (T : trace w2 = trace w ++ e1 ++ e2)
        by (rewrite T2, T1; now rewrite app_assoc).
      assert (F : Forall idle_event (e1 ++ e2)) by now apply Forall_app.
      destruct (idle_count _ F) as (_ & C1 & C2).
      unfold launches, monitors. rewrite (new_events_app _ _ _ T). auto.
    + rewrite E1. cbn [snd].
      destruct (idle_count _ F1) as (_ & C1 & C2).
      unfold launches, monitors. rewrite (new_events_app _ _ _ T1). auto.
Qed.

(** C10.  A service with [instances = 0] is passed over in silence:
    [range(0)] is empty, so the body of its loop is not run, nothing is
    launched, no monitor is started, no exception is raised and
    [services_started] keeps its value.  When every service of the
    configuration is disabled or has [instances = 0], the start-up loop
    ends with [sys.exit(1)], and so does [main] once crash recovery has
    returned, which it does on a lock file that is sound; [main] launches
    nothing and starts no monitor, whatever the lock file holds. *)
Theorem zero_instances os services w :
  Forall passed_over services ->
  (forall service total_cpus started w0,
      In service services ->
      get (disabled service) false = false ->
      main_service os total_cpus service started w0 = (inr started, w0)) /\
  fst (main_startup os services w) = inl (Raised (SystemExit 1)) /\
  (sound_registry os w ->
   fst (main os services w) = inl (Raised (SystemExit 1))) /\
  launches w (snd (main os services w)) = 0%nat /\
  monitors w (snd (main os services w)) = 0%nat.
Proof.
  intros H. split.
  - intros service total_cpus started w0 I D. apply main_service_zero; [exact D|].
    rewrite Forall_forall in H. apply list_elem_of_In in I. exact (H service I D).
  - now apply main_nothing_to_start.
Qed.

(** C10, at a concrete configuration: one enabled service with
    [instances = 0] and one disabled service. *)
Lemma zero_instances_witness :
  fst (main (os_exiting 0)
         [service_entry "web" "python" (Some 0) (Some true) None None;
          mkService "db" "python" None "db.py" None None None (Some 2)
                    (Some true) None None None]
         boot) = inl (Raised (SystemExit 1)).
Proof.
  refine (proj1 (proj2 (proj2 (zero_instances (os_exiting 0) _ boot _))) I).
  constructor; [intros _; reflexivity|].
  constructor; [intros D; discriminate D|]. constructor.
Defined.

(** ** Start-up: a launch that fails *)

Lemma idle_not_failed ev : idle_event ev -> launch_failed ev = false.
Proof. destruct ev as [| |c d [e|p]| | | | | | |]; intros [H _]; cbn in *; congruence. Qed.

Lemma startup_run_app {A} (r : abort + A) evs1 evs2 :
  Forall (fun ev => launch_failed ev = false) evs1 ->
  startup_run r evs2 -> startup_run r (evs1 ++ evs2).
Proof.
  intros F1 [r' evs F2|command dir e evs F2].
  - apply run_clean. now apply Forall_app.
  - rewrite app_assoc. apply run_refused. now apply Forall_app.
Qed.

Lemma runs_ret {A} (a : A) : runs (ret a).
Proof. intros w. exists []. rewrite app_nil_r. split; [reflexivity|]. now apply run_clean. Qed.

Lemma runs_raise {A} e : runs (@raise A e).
Proof. intros w. exists []. rewrite app_nil_r. split; [reflexivity|]. now apply run_clean. Qed.

Lemma runs_emit ev : launch_failed ev = false -> runs (modify (emit ev)).
Proof.
  intros H w. exists [ev]. split; [reflexivity|]. apply run_clean.
  now repeat constructor.
Qed.

Lemma runs_bind {A B} (c : M A) (k : A -> M B) :
  runs c -> (forall a, runs (k a)) -> runs (bind c k).
Proof.
  intros Hc Hk w. destruct (Hc w) as (e1 & T1 & R1). unfold bind.
  destruct (c w) as [[f|a] w1]; cbn [fst snd] in *.
  - exists e1. split; [exact T1|].
    inversion R1; subst; [now apply run_clean|now apply run_refused].
  - destruct (Hk a w1) as (e2 & T2 & R2). exists (e1 ++ e2). split.
    + rewrite T2, T1. now rewrite app_assoc.
    + apply startup_run_app; [|exact R2].
      inversion R1; subst. assumption.
Qed.

Lemma runs_for_fold {A S} (xs : list A) (s : S) body :
  (forall x s, runs (body x s)) -> runs (for_fold xs s body).
Proof.
  intros Hb. revert s. induction xs as [|x xs IH]; intros s; cbn [for_fold].
  - apply runs_ret.
  - apply runs_bind; [apply Hb|intros s'; apply IH].
Qed.

Lemma runs_start_service os service i : runs (start_service os service i).
Proof.
  intros w.
  destruct (os_popen os (clock w) (service_command service)
              (service_environ os service) (service_dir os service))
    as [e|child] eqn:P.
  - rewrite (start_service_fails _ _ _ _ _ P). eexists. split; [reflexivity|].
    apply (run_refused _ _ _ []). constructor.
  - destruct (lock_held w) eqn:L.
    + rewrite (start_service_blocked _ _ _ _ _ L P). eexists.
      split; [reflexivity|]. apply run_clean. now repeat constructor.
    + rewrite (start_service_launches _ _ _ _ _ L P). eexists.
      split; [apply after_launch_trace|]. apply run_clean. now repeat constructor.
Qed.

Lemma runs_main_service os total_cpus service started :
  runs (main_service os total_cpus service started).
Proof.
  unfold main_service. destruct (get (disabled service) false).
  - apply runs_bind; [now apply runs_emit|intros _; apply runs_ret].
  - apply runs_bind.
    + unfold instance_count. destruct (get (instances service) 1 <? 0);
        [destruct total_cpus|]; first [apply runs_ret|apply runs_raise].
    + intros n. apply runs_for_fold. intros i s. unfold launch_instance.
      apply runs_bind; [apply runs_start_service|]. intros process.
      apply runs_bind; [|intros _; apply runs_ret].
      destruct (get (wait_ready service) false); cbn [when];
        [now apply runs_emit|apply runs_ret].
Qed.

Lemma runs_main_startup os services : runs (main_startup os services).
Proof.
  unfold main_startup. apply runs_bind.
  - apply runs_for_fold. intros service s. apply runs_main_service.
  - intros [|]; cbn [negb]; [apply runs_ret|].
    apply runs_bind; [now apply runs_emit|intros _; apply runs_raise].
Qed.

Lemma runs_main os services : runs (main os services).
Proof.
  intros w.
  destruct (main_prefix os services w) as (w1 & e1 & T1 & F1 & [E1|[f E1]]).
  - destruct (runs_main_startup os services w1) as (e2 & T2 & R2).
    exists (e1 ++ e2). rewrite E1. split.
    + rewrite T2, T1. now rewrite app_assoc.
    + apply startup_run_app; [|exact R2].
      eapply Forall_impl; [exact F1|exact idle_not_failed].
  - exists e1. rewrite E1. split; [exact T1|]. apply run_clean.
    eapply Forall_impl; [exact F1|exact idle_not_failed].
Qed.

(** C7, as the code has it.  A launch that fails is not swallowed by
    [start_service]: the exception of [subprocess.Popen] is its result, and
    neither the process table nor the lock file is touched.  [main] does
    not catch it either: when a launch fails during start-up, whatever the
    number of services and instances, [main] ends with that exception and
    the failed launch is its last act, so that no later instance is
    launched and the check of [services_started] is not reached.  When the
    start-up loop ends without having had anything to launch, it ends
    with [sys.exit(1)], and so does [main] once crash recovery has
    returned, which it does on a lock file that is sound. *)
Theorem launch_failure_aborts_startup os :
  (forall service instance_id w e,
      os_popen os (clock w) (service_command service)
               (service_environ os service) (service_dir os service) = inl e ->
      start_service os service instance_id w =
      (inl (Raised e),
       tick (emit (EvPopen (service_command service) (service_dir os service)
                     (inl e)) w))) /\
  (forall services w command dir e,
      In (EvPopen command dir (inl e)) (new_events w (snd (main os services w))) ->
      fst (main os services w) = inl (Raised e) /\
      exists evs, new_events w (snd (main os services w)) =
                  evs ++ [EvPopen command dir (inl e)]) /\
  (forall services w,
      Forall passed_over services ->
      fst (main_startup os services w) = inl (Raised (SystemExit 1)) /\
      (sound_registry os w ->
       fst (main os services w) = inl (Raised (SystemExit 1)))).
Proof.
  split; [|split].
  - intros service instance_id w e P. now apply start_service_fails.
  - intros services w command dir e I.
    destruct (runs_main os services w) as (evs & T & R).
    rewrite (new_events_app _ _ _ T) in *.
    inversion R as [r evs' F|c d e' evs' F]; subst.
    + exfalso. rewrite Forall_forall in F. apply list_elem_of_In in I.
      specialize (F _ I). discriminate F.
    + apply in_app_or in I as [I|I].
      * exfalso. rewrite Forall_forall in F. apply list_elem_of_In in I.
        specialize (F _ I). discriminate F.
      * destruct I as [I|[]]. inversion I; subst. split; [reflexivity|eauto].
  - intros services w H.
    destruct (main_nothing_to_start os services w H) as (E1 & E2 & _).
    now split.
Qed.

(** C7, at a concrete machine: the interpreter of the service does not
    exist, and [start_service] ends with [FileNotFoundError]. *)
Lemma launch_failure_aborts_startup_witness :
  fst (start_service (os_without "missing")
         (service_entry "broken" "missing" None None None None) 0 boot)
  = inl (Raised FileNotFoundError).
Proof.
  rewrite (proj1 (launch_failure_aborts_startup (os_without "missing"))
             (service_entry "broken" "missing" None None None None) 0 boot
             FileNotFoundError eq_refl).
  reflexivity.
Defined.

(** C7 as stated fails.  With two services of one instance each, the
    first of which cannot be launched, [main] ends with the launch
    exception although the failed instance is not the only one, and the
    second service, which on its own starts without trouble, is never
    launched: the failure is not contained. *)
Lemma launch_failure_fatal_despite_other_instances :
  fst (main (os_without "missing") broken_then_fine boot)
    = inl (Raised FileNotFoundError) /\
  launches boot (snd (main (os_without "missing") broken_then_fine boot)) = 0%nat /\
  fst (main (os_without "missing")
         [service_entry "fine" "python" None None None None] boot) = inr tt /\
  launches boot
    (snd (main (os_without "missing")
            [service_entry "fine" "python" None None None None] boot)) = 1%nat /\
  ~ launch_failure_contained (os_without "missing") broken_then_fine boot.
Proof.
  repeat split; try (vm_compute; reflexivity).
  intros H.
  assert (E : fst (main (os_without "missing") broken_then_fine boot) = inr tt).
  { apply H. exists (service_entry "fine" "python" None None None None).
    repeat split; try reflexivity. right. now left. }
  vm_compute in E. discriminate E.
Qed.

(** ** The monitor: restarts and escalation *)

Lemma calm_counts evs :
  Forall calm_event evs ->
  count is_spawn evs = 0%nat /\ count is_launch evs = 0%nat /\
  restart_numbers evs = [].
Proof.
  intros F. repeat split.
  - apply count_none. eapply Forall_impl; [exact F|]. now intros ev [H _].
  - apply count_none. eapply Forall_impl; [exact F|].
    intros [| |c d [e|p]| | | | | | |] [H _]; cbn in *; congruence.
  - induction F as [|ev evs [_ H] _ IH]; [reflexivity|].
    destruct ev as [lvl m| | | | | | | | |]; cbn; try exact IH.
    destruct lvl, m; cbn in *; try exact IH; discriminate H.
Qed.

Lemma shutdown_event_calm ev : shutdown_event ev -> calm_event ev.
Proof.
  destruct ev as [lvl m| | | | | | | | |]; cbn; try tauto; try (now split).
  destruct lvl, m; cbn; try tauto; now split.
Qed.

Lemma cleanup_processes_sets_flag os w :
  shutdown (snd (cleanup_processes os w)) = true.
Proof.
  destruct (shutdown w) eqn:S.
  - now rewrite (cleanup_processes_again _ _ S).
  - rewrite (cleanup_processes_first _ _ S).
    assert (Hc : emits shutdown_event
              (with_lock (kill_sequence os) >> logger INFO MsgCleanupComplete)).
    { emits_walk; [apply emits_kill_sequence|exact I]. }
    destruct (Hc (set_shutdown true w)) as [H _]. now apply H.
Qed.

(** [handle_exit] with the flag down does not return: it sets the flag,
    runs the shutdown and ends the supervisor, or is left by an exception
    of the shutdown. *)
Lemma handle_exit_leaves os signum w :
  shutdown w = false ->
  exists a w' post,
    handle_exit os signum w = (inl a, w') /\
    shutdown w' = true /\
    trace w' = trace w ++ EvLog INFO MsgTerminating :: post /\
    Forall shutdown_event post.
Proof.
  intros S. unfold handle_exit.
  erewrite bind_returns; [|reflexivity]. rewrite S.
  erewrite bind_returns; [|reflexivity].
  set (w0 := emit (EvLog INFO MsgTerminating) w).
  pose proof (cleanup_processes_sets_flag os w0) as F1.
  destruct (emits_cleanup_processes os w0) as [_ (e1 & T1 & Q1)].
  unfold bind at 1.
  destruct (cleanup_processes os w0) as [[a|[]] w1]; cbn [fst snd] in *.
  - exists a, w1, e1. repeat split; try assumption.
    rewrite T1. unfold w0. world_simpl. now rewrite <- app_assoc.
  - match goal with |- context [bind ?c ?k w1] => set (rest := bind c k) end.
    assert (R : emits shutdown_event rest).
    { unfold rest. emits_walk; exact I. }
    destruct (R w1) as [F2 (e2 & T2 & Q2)].
    assert (exists a, fst (rest w1) = inl a) as [a A].
    { unfold rest, bind.
      destruct (with_lock _ w1) as [[a|[]] w2]; cbn; eauto. }
    destruct (rest w1) as [r w2]; cbn [fst snd] in *. subst r.
    exists a, w2, (e1 ++ e2). repeat split.
    + now apply F2.
    + rewrite T2, T1. unfold w0. world_simpl. now rewrite <- !app_assoc.
    + now apply Forall_app.
Qed.

(** Waiting for a process that fails. *)
Lemma wait_failing os process w :
  failed (returncodes w !! obj process) = true ->
  exits_nonzero (os_wait os (clock w) process) = true ->
  exists c w1 evs,
    wait os process w = (inr c, w1) /\ c <> 0 /\
    returncodes w1 !! obj process = Some c /\
    (forall o, o <> obj process -> returncodes w1 !! o = returncodes w !! o) /\
    shutdown w1 = shutdown w /\ lock_held w1 = lock_held w /\
    next_obj w1 = next_obj w /\
    trace w1 = trace w ++ evs /\ Forall calm_event evs.
Proof.
  intros F X. destruct (returncodes w !! obj process) as [c|] eqn:R.
  - exists c, w, []. rewrite (wait_known _ _ _ _ R), app_nil_r.
    repeat split; try assumption; [|constructor].
    intros ->. discriminate F.
  - destruct (os_wait os (clock w) process) as [c|] eqn:W; [|discriminate X].
    exists c. eexists. exists [EvWait (pid process) None (Some c)].
    rewrite (wait_exits _ _ _ _ R W). world_simpl.
    split; [reflexivity|]. split.
    { intros ->. discriminate X. }
    split; [apply lookup_insert_eq|].
    split; [intros o Ho; now apply lookup_insert_ne|].
    repeat split. repeat constructor.
Qed.
(** The first half of a turn on a process that fails: the process is
    reaped and forgotten, the error is logged, and the decision is taken
    on its status. *)
Lemma monitor_body_reaps os service instance_id max_restarts restarts process w :
  monitoring process w ->
  exits_nonzero (os_wait os (clock w) process) = true ->
  exists c w1 evs,
    c <> 0 /\
    monitor_body os service instance_id max_restarts restarts process w =
      monitor_decide os service instance_id max_restarts restarts process
        (Some c) w1 /\
    shutdown w1 = false /\ lock_held w1 = false /\
    next_obj w1 = next_obj w /\ fresh_objects w1 /\
    trace w1 = trace w ++ evs /\ Forall calm_event evs /\
    In (EvLog ERROR (MsgExitedWithError instance_id (name service) c)) evs /\
    processes w1 = processes (after_forget process w).
Proof.
  intros (S & L & O & Fr & F) X.
  destruct (wait_failing os process w F X)
    as (c & w1 & e1 & E1 & C & R1 & K1 & S1 & L1 & N1 & T1 & Q1).
  assert (Pw : processes w1 = processes w).
  { unfold wait in E1. destruct (returncodes w !! obj process);
      [now inversion E1|].
    destruct (os_wait os (clock w) process); inversion E1; reflexivity. }
  assert (Pf : processes (after_forget process w1) =
               processes (after_forget process w)).
  { unfold after_forget. rewrite Pw.
    destruct (contains process (processes w)); [reflexivity|exact Pw]. }
  destruct (after_forget_fields process w1) as (S2 & L2 & R2 & N2 & _).
  set (w2 := after_forget process w1) in *.
  assert (T2 : exists e2, trace w2 = trace w1 ++ e2 /\ Forall calm_event e2).
  { unfold w2, after_forget. destruct (contains process (processes w1)).
    - eexists. split; [reflexivity|]. repeat constructor.
    - exists []. rewrite app_nil_r. split; [reflexivity|constructor]. }
  destruct T2 as (e2 & T2 & Q2).
  exists c, (emit (EvLog ERROR (MsgExitedWithError instance_id (name service) c)) w2),
    (e1 ++ e2 ++ [EvLog ERROR (MsgExitedWithError instance_id (name service) c)]).
  split; [exact C|]. split.
  { unfold monitor_body.
    erewrite bind_returns; [|exact E1].
    erewrite bind_returns; [|apply forget_process_free; congruence].
    fold w2. erewrite bind_returns; [|reflexivity].
    rewrite S2, S1, S.
    erewrite bind_returns; [|reflexivity]. rewrite R2, R1.
    assert (Fc : failed (Some c) = true) by (destruct c; [congruence|reflexivity..]).
    rewrite Fc. cbn [when get].
    erewrite bind_returns; reflexivity. }
  world_simpl. repeat split.
  - congruence.
  - apply L2. congruence.
  - congruence.
  - intros o Ho. world_simpl. rewrite N2, N1 in Ho.
    rewrite R2, K1; [apply Fr; lia|]. lia.
  - rewrite T2, T1. now rewrite <- !app_assoc.
  - apply Forall_app. split; [exact Q1|]. apply Forall_app. split; [exact Q2|].
    repeat constructor.
  - apply in_or_app. right. apply in_or_app. right. now left.
  - exact Pf.
Qed.

(** The decision when the budget allows a restart. *)
Lemma monitor_decide_restarts os service instance_id max_restarts restarts
    process rc w :
  restarts < max_restarts ->
  get (autorestart service) false = true ->
  lock_held w = false ->
  launched (os_popen os (clock w) (service_command service)
              (service_environ os service) (service_dir os service)) = true ->
  exists child,
    monitor_decide os service instance_id max_restarts restarts process rc w =
    (inr (Next (restarts + 1) (mkPopen (next_obj w) child)),
     after_launch os service instance_id child
       (emit (EvLog INFO (MsgRestarting instance_id (name service) (restarts + 1))) w)).
Proof.
  intros B A L P.
  destruct (os_popen os (clock w) (service_command service)
              (service_environ os service) (service_dir os service))
    as [e|child] eqn:E; [discriminate|].
  exists child. unfold monitor_decide.
  apply Z.ltb_lt in B. rewrite B, A. cbn [andb].
  erewrite bind_returns; [|reflexivity].
  erewrite bind_returns; [reflexivity|].
  exact (start_service_launches os service instance_id
           (emit (EvLog INFO (MsgRestarting instance_id (name service)
                                (restarts + 1))) w) child L E).
Qed.

(** A whole turn that ends in a restart. *)
Lemma monitor_body_restarts os service instance_id max_restarts restarts process w :
  monitoring process w ->
  (forall t p, exits_nonzero (os_wait os t p) = true) ->
  (forall t c e d, launched (os_popen os t c e d) = true) ->
  restarts < max_restarts ->
  get (autorestart service) false = true ->
  exists process' w' evs,
    monitor_body os service instance_id max_restarts restarts process w =
      (inr (Next (restarts + 1) process'), w') /\
    monitoring process' w' /\
    trace w' = trace w ++ evs /\
    restart_numbers evs = [restarts + 1] /\
    count is_spawn evs = 1%nat /\ count is_launch evs = 1%nat.
Proof.
  intros Mo X P B A.
  destruct (monitor_body_reaps os service instance_id max_restarts restarts
              process w Mo (X _ _))
    as (c & w1 & e1 & C & E1 & S1 & L1 & N1 & Fr1 & T1 & Q1 & _).
  destruct (monitor_decide_restarts os service instance_id max_restarts restarts
              process (Some c) w1 B A L1 (P _ _ _ _)) as (child & E2).
  eexists. eexists.
  exists (e1 ++ [EvLog INFO (MsgRestarting instance_id (name service) (restarts + 1));
                 EvPopen (service_command service) (service_dir os service) (inr child);
                 EvWriteLock (map pid (processes w1 ++ [mkPopen (next_obj w1) child]));
                 EvLog INFO (MsgStarting instance_id (name service)
                               (service_command service) child
                               (service_dir os service))]).
  split; [rewrite E1; exact E2|].
  destruct (calm_counts _ Q1) as (C1 & C2 & C3).
  split; [|split; [|split; [|split]]].
  - unfold monitoring, fresh_objects, after_launch. world_simpl.
    split; [exact S1|]. split; [reflexivity|]. split; [lia|].
    split; [intros o Ho; apply Fr1; lia|].
    rewrite (Fr1 (next_obj w1)); [reflexivity|lia].
  - unfold after_launch. world_simpl. rewrite T1. now rewrite <- !app_assoc.
  - rewrite restart_numbers_app, C3. reflexivity.
  - rewrite count_app, C1. reflexivity.
  - rewrite count_app, C2. reflexivity.
Qed.

(** A whole turn on a failing process when the budget is used up:
    [handle_exit] is called and the function is left. *)
Lemma monitor_body_exhausted os service instance_id max_restarts process w :
  monitoring process w ->
  exits_nonzero (os_wait os (clock w) process) = true ->
  exists a w' c before after,
    monitor_body os service instance_id max_restarts max_restarts process w =
      (inl a, w') /\
    shutdown w' = true /\
    trace w' = trace w ++ before ++
               EvLog WARNING (MsgExceeded instance_id (name service) max_restarts) ::
               EvLog INFO MsgTerminating :: after /\
    Forall calm_event before /\
    In (EvLog ERROR (MsgExitedWithError instance_id (name service) c)) before /\
    Forall shutdown_event after.
Proof.
  intros Mo X.
  destruct (monitor_body_reaps os service instance_id max_restarts max_restarts
              process w Mo X)
    as (c & w1 & e1 & C & E1 & S1 & L1 & N1 & Fr1 & T1 & Q1 & I1 & _).
  set (w2 := emit (EvLog WARNING (MsgExceeded instance_id (name service) max_restarts)) w1).
  destruct (handle_exit_leaves os SIGTERM w2 S1) as (a & w3 & post & E3 & S3 & T3 & Q3).
  exists a, w3, c, e1, post. split; [|repeat split; try assumption].
  - rewrite E1. unfold monitor_decide.
    rewrite Z.ltb_irrefl, Z.eqb_refl. cbn [andb].
    assert (Fc : failed (Some c) = true) by (destruct c; [congruence|reflexivity..]).
    rewrite Fc. cbn [when].
    erewrite bind_aborts; [reflexivity|].
    erewrite bind_returns; [|reflexivity]. exact E3.
  - rewrite T3. unfold w2. world_simpl. rewrite T1. now rewrite <- !app_assoc.
Qed.
(** One turn of the loop when its condition holds. *)
Lemma monitor_loop_turn os fuel service instance_id max_restarts restarts process w :
  restarts <= max_restarts ->
  shutdown w = false ->
  monitor_loop os (S fuel) service instance_id max_restarts restarts process w =
  match monitor_body os service instance_id max_restarts restarts process w with
  | (inl a, w') => (Some (inl a), w')
  | (inr Break, w') => (Some (inr tt), w')
  | (inr (Next restarts' process'), w') =>
      monitor_loop os fuel service instance_id max_restarts restarts' process' w'
  end.
Proof.
  intros B S. cbn [monitor_loop]. apply Z.leb_le in B. now rewrite B, S.
Qed.

(** The branch next to the one of C8: with budget left and [autorestart]
    off, the [else] branch is taken and its [break] ends the loop, whatever
    the exit status. *)
Lemma monitor_loop_leaves_without_autorestart
    os fuel service instance_id max_restarts restarts process w c :
  restarts < max_restarts ->
  get (autorestart service) false = false ->
  shutdown w = false ->
  lock_held w = false ->
  returncodes w !! obj process = Some c \/
  (returncodes w !! obj process = None /\
   os_wait os (clock w) process = Some c) ->
  fst (monitor_loop os (S fuel) service instance_id max_restarts restarts
         process w) = Some (inr tt).
Proof.
  intros B A S L W.
  assert (exists w1, wait os process w = (inr c, w1) /\
                     shutdown w1 = false /\ lock_held w1 = false /\
                     returncodes w1 !! obj process = Some c)
    as (w1 & E1 & S1 & L1 & R1).
  { destruct W as [R|[R X]].
    - exists w. now rewrite (wait_known _ _ _ _ R).
    - eexists. rewrite (wait_exits _ _ _ _ R X). world_simpl.
      repeat split; try assumption. apply lookup_insert_eq. }
  destruct (after_forget_fields process w1) as (S2 & L2 & R2 & _).
  rewrite monitor_loop_turn; [|lia|exact S].
  assert (E : exists w', monitor_body os service instance_id max_restarts
                           restarts process w = (inr Break, w')).
  { unfold monitor_body.
    erewrite bind_returns; [|exact E1].
    erewrite bind_returns; [|now apply forget_process_free].
    erewrite bind_returns; [|reflexivity]. rewrite S2, S1.
    erewrite bind_returns; [|reflexivity]. rewrite R2, R1.
    unfold monitor_decide. rewrite A, andb_false_r.
    assert (N : (restarts =? max_restarts) = false) by (apply Z.eqb_neq; lia).
    rewrite N.
    destruct (failed (Some c)); cbn [when];
      (erewrite bind_returns; [|reflexivity]);
      (erewrite bind_returns; [|reflexivity]); eexists; reflexivity. }
  destruct E as (w' & ->). reflexivity.
Qed.

(** C1.  A monitor with [max_restarts = 2] and [autorestart = true] whose
    process fails on every run (with every launch succeeding and nobody
    else asking for shutdown) restarts it exactly twice, announcing
    "Restart 1" and "Restart 2" and launching two processes; on the third
    failure it launches nothing, logs that the budget is exceeded and
    calls [handle_exit], which sets the shutdown flag and runs the shutdown
    of the whole supervisor; [monitor_service] does not return. *)
Theorem monitor_restarts_twice_then_shuts_down
    os service process instance_id w fuel :
  max_restarts service = Some 2 ->
  autorestart service = Some true ->
  monitoring process w ->
  (forall t p, exits_nonzero (os_wait os t p) = true) ->
  (forall t c e d, launched (os_popen os t c e d) = true) ->
  exists a w' before after,
    monitor_service os (S (S (S fuel))) service process instance_id w =
      (Some (inl a), w') /\
    shutdown w' = true /\
    new_events w w' =
      before ++
      EvLog WARNING (MsgExceeded instance_id (name service) 2) ::
      EvLog INFO MsgTerminating :: after /\
    restart_numbers before = [1; 2] /\
    count is_spawn before = 2%nat /\
    count is_launch before = 2%nat /\
    Forall shutdown_event after.
Proof.
  intros MR AR Mo X P.
  assert (A : get (autorestart service) false = true) by now rewrite AR.
  destruct (monitor_body_restarts os service instance_id 2 0 process w
              Mo X P ltac:(lia) A)
    as (p1 & w1 & e1 & E1 & Mo1 & T1 & R1 & C1 & D1).
  destruct (monitor_body_restarts os service instance_id 2 1 p1 w1
              Mo1 X P ltac:(lia) A)
    as (p2 & w2 & e2 & E2 & Mo2 & T2 & R2 & C2 & D2).
  destruct (monitor_body_exhausted os service instance_id 2 p2 w2 Mo2 (X _ _))
    as (a & w3 & c & e3 & post & E3 & S3 & T3 & Q3 & _ & Q4).
  change (0 + 1) with 1 in *. change (1 + 1) with 2 in *.
  destruct (calm_counts _ Q3) as (C3 & D3 & R3).
  exists a, w3, (e1 ++ e2 ++ e3), post.
  split; [|split; [exact S3|split; [|split; [|split; [|split]]]]].
  - unfold monitor_service. rewrite MR. cbn [get].
    rewrite monitor_loop_turn, E1; [|lia|apply Mo].
    rewrite monitor_loop_turn, E2; [|lia|apply Mo1].
    rewrite monitor_loop_turn, E3; [reflexivity|lia|apply Mo2].
  - apply new_events_app. rewrite T3, T2, T1. now rewrite <- !app_assoc.
  - rewrite !restart_numbers_app, R1, R2, R3. reflexivity.
  - rewrite !count_app, C1, C2, C3. reflexivity.
  - rewrite !count_app, D1, D2, D3. reflexivity.
  - exact Q4.
Qed.

(** C1, on a machine where every child exits with status 1. *)
Lemma monitor_restarts_twice_then_shuts_down_witness :
  exists a w',
    monitor_service (os_exiting 1) 3
      (service_entry "web" "python" None (Some true) (Some true) (Some 2))
      (mkPopen 0 4242) 0 one_tracked = (Some (inl a), w') /\
    shutdown w' = true.
Proof.
  destruct (monitor_restarts_twice_then_shuts_down (os_exiting 1)
              (service_entry "web" "python" None (Some true) (Some true) (Some 2))
              (mkPopen 0 4242) 0 one_tracked 0 eq_refl eq_refl)
    as (a & w' & _ & _ & E & S & _).
  - repeat split; try reflexivity. cbn. lia.
  - intros t p. reflexivity.
  - intros t c e d. reflexivity.
  - exists a, w'. now split.
Defined.

(** ** The monitor: no budget *)

Lemma returns_only_ret {A} (P : A -> Prop) a : P a -> returns_only P (ret a).
Proof. intros H w a' w' E. inversion E; now subst. Qed.

Lemma returns_only_bind {A B} (P : B -> Prop) (c : M A) (k : A -> M B) :
  (forall a, returns_only P (k a)) -> returns_only P (bind c k).
Proof.
  intros H w b w'. unfold bind. destruct (c w) as [[f|a] w1]; [discriminate|].
  apply H.
Qed.

(** With the budget used up, a turn of the loop launches nothing, and
    the loop goes on, if it does, with the same process. *)
Lemma monitor_body_no_budget os service instance_id m process :
  emits calm_event (monitor_body os service instance_id m m process) /\
  returns_only (same_locals m process)
    (monitor_body os service instance_id m m process).
Proof.
  unfold monitor_body, monitor_decide, forget_process.
  rewrite Z.ltb_irrefl, Z.eqb_refl. cbn [andb]. split.
  - emits_walk; try (now split); try now apply extends_silent.
    eapply emits_weaken; [exact shutdown_event_calm|apply emits_handle_exit].
  - apply returns_only_bind; intros _. apply returns_only_bind; intros _.
    apply returns_only_bind; intros down.
    destruct down; [now apply returns_only_ret|].
    apply returns_only_bind; intros rc. apply returns_only_bind; intros _.
    apply returns_only_bind; intros _. now apply returns_only_ret.
Qed.

Lemma monitor_loop_no_budget os service instance_id m process fuel :
  forall w,
    extends calm_event w
      (snd (monitor_loop os fuel service instance_id m m process w)).
Proof.
  destruct (monitor_body_no_budget os service instance_id m process) as [E R].
  induction fuel as [|fuel IH]; intros w; cbn [monitor_loop];
    destruct ((m <=? m) && negb (shutdown w)); try apply extends_refl.
  specialize (E w). specialize (R w).
  destruct (monitor_body os service instance_id m m process w)
    as [[a|[|r p]] w']; cbn [snd] in *; try exact E.
  destruct (R _ _ eq_refl) as [-> ->].
  eapply extends_trans; [exact E|apply IH].
Qed.

(** C2 as stated fails.  The monitor of a service with [max_restarts = 0]
    whose process exits with status 1 does not stay idle: it sets the
    shutdown flag, the process group of the other service receives
    SIGTERM and then SIGKILL, and the supervisor ends through
    [os._exit(1)]. *)
Lemma monitor_without_budget_stops_everything :
  fst (monitor_service (os_exiting 1) 1
         (service_entry "web" "python" None (Some true) None (Some 0))
         (mkPopen 0 4242) 0 two_tracked) = Some (inl (OsExit 1)) /\
  shutdown (snd (monitor_service (os_exiting 1) 1
         (service_entry "web" "python" None (Some true) None (Some 0))
         (mkPopen 0 4242) 0 two_tracked)) = true /\
  List.filter is_kill
    (trace (snd (monitor_service (os_exiting 1) 1
         (service_entry "web" "python" None (Some true) None (Some 0))
         (mkPopen 0 4242) 0 two_tracked))) =
  [EvKillpg 4343 SIGTERM None; EvKillpg 4343 SIGKILL None] /\
  ~ stays_idle_without_budget (os_exiting 1)
      (service_entry "web" "python" None (Some true) None (Some 0))
      (mkPopen 0 4242) 0 two_tracked.
Proof.
  repeat split; try (vm_compute; reflexivity).
  intros H. destruct (H 1%nat) as [E _]. vm_compute in E. discriminate E.
Qed.

(** * Further properties *)

(** ** What a computation leaves alone *)

Section Keeps.

Context {A : Type} (f : World -> A).
Hypothesis f_tick : forall w, f (tick w) = f w.
Hypothesis f_emit : forall ev w, f (emit ev w) = f w.
Hypothesis f_lock : forall b w, f (set_lock_held b w) = f w.
Hypothesis f_returncodes : forall m w, f (set_returncodes m w) = f w.

Lemma keeps_ret {B} (b : B) : keeps f (ret b).
Proof. intros w. reflexivity. Qed.

Lemma keeps_raise {B} e : keeps f (@raise B e).
Proof. intros w. reflexivity. Qed.

Lemma keeps_os_exit {B} s : keeps f (@os_exit B s).
Proof. intros w. reflexivity. Qed.

Lemma keeps_read {B} (g : World -> B) : keeps f (read g).
Proof. intros w. reflexivity. Qed.

Lemma keeps_modify g : (forall w, f (g w) = f w) -> keeps f (modify g).
Proof. intros H w. apply H. Qed.

Lemma keeps_bind {B C} (c : M B) (k : B -> M C) :
  keeps f c -> (forall b, keeps f (k b)) -> keeps f (bind c k).
Proof.
  intros Hc Hk w. unfold bind. specialize (Hc w).
  destruct (c w) as [[a|b] w']; cbn [snd] in *; [exact Hc|].
  now rewrite Hk.
Qed.

Lemma keeps_try_except {B} (body : M B) handles handler :
  keeps f body -> (forall e, keeps f (handler e)) ->
  keeps f (try_except body handles handler).
Proof.
  intros Hb Hh w. unfold try_except. specialize (Hb w).
  destruct (body w) as [[[e| | |]|b] w']; cbn [snd] in *; try exact Hb.
  destruct (handles e); [|exact Hb]. now rewrite Hh.
Qed.

Lemma keeps_for_each {B} (xs : list B) body :
  (forall x, keeps f (body x)) -> keeps f (for_each xs body).
Proof.
  intros Hb. induction xs as [|x xs IH]; cbn [for_each].
  - apply keeps_ret.
  - apply keeps_bind; [apply Hb|intros _; exact IH].
Qed.

Lemma keeps_for_fold {B S} (xs : list B) (s : S) body :
  (forall x s, keeps f (body x s)) -> keeps f (for_fold xs s body).
Proof.
  intros Hb. revert s. induction xs as [|x xs IH]; intros s; cbn [for_fold].
  - apply keeps_ret.
  - apply keeps_bind; [apply Hb|intros s'; apply IH].
Qed.

Lemma keeps_when c body : keeps f body -> keeps f (when c body).
Proof. intros H. destruct c; [exact H|apply keeps_ret]. Qed.

Lemma keeps_with_lock {B} (body : M B) : keeps f body -> keeps f (with_lock body).
Proof.
  intros Hb w. unfold with_lock. destruct (lock_held w); [reflexivity|].
  specialize (Hb (set_lock_held true w)). rewrite f_lock in Hb.
  destruct (body (set_lock_held true w)) as [[[e| | |]|b] w']; cbn [snd] in *;
    rewrite ?f_lock; exact Hb.
Qed.

Lemma keeps_logger lvl m : keeps f (logger lvl m).
Proof. intros w. apply f_emit. Qed.

Lemma keeps_sleep s : keeps f (sleep s).
Proof. intros w. apply f_emit. Qed.

Lemma keeps_getpgid os p : keeps f (getpgid os p).
Proof.
  intros w. unfold getpgid. destruct (os_getpgid os (clock w) p); apply f_tick.
Qed.

Lemma keeps_killpg os g sig : keeps f (killpg os g sig).
Proof.
  intros w. unfold killpg.
  destruct (os_killpg os (clock w) g sig); cbn [snd]; now rewrite f_tick, f_emit.
Qed.

Lemma keeps_wait os process : keeps f (wait os process).
Proof.
  intros w. unfold wait. destruct (returncodes w !! obj process); [reflexivity|].
  destruct (os_wait os (clock w) process); cbn [snd];
    now rewrite ?f_returncodes, f_tick, f_emit.
Qed.

Lemma keeps_wait_timeout os process t : keeps f (wait_timeout os process t).
Proof.
  intros w. unfold wait_timeout.
  destruct (returncodes w !! obj process); [reflexivity|].
  destruct (os_wait_timeout os (clock w) process t); cbn [snd];
    now rewrite ?f_returncodes, f_tick, f_emit.
Qed.

Lemma keeps_poll os process : keeps f (poll os process).
Proof.
  intros w. unfold poll. destruct (returncodes w !! obj process); [reflexivity|].
  destruct (os_poll os (clock w) process); cbn [snd];
    now rewrite ?f_returncodes, f_tick.
Qed.

Lemma keeps_read_lock_file : keeps f read_lock_file.
Proof. intros w. unfold read_lock_file. now destruct (lock_file w). Qed.

Lemma keeps_iterate v : keeps f (iterate v).
Proof. intros w. now destruct v. Qed.

Lemma keeps_as_pid item : keeps f (as_pid item).
Proof.
  intros w. destruct item; try reflexivity. cbn [as_pid].
  now destruct (in_pid_range n).
Qed.

Lemma keeps_killpg_item os item sig : keeps f (killpg_item os item sig).
Proof.
  unfold killpg_item.
  apply keeps_bind; [apply keeps_as_pid|intros g].
  apply keeps_bind; [apply keeps_killpg|intros _].
  destruct sig; try (intros w; reflexivity);
    destruct (own_group os g); intros w; reflexivity.
Qed.

End Keeps.

(** Walks through a computation, leaving the steps that write a field. *)
Ltac keeps_step :=
  lazymatch goal with
  | |- keeps _ (bind _ _) => apply keeps_bind; [|intros ?]
  | |- keeps _ (ret _) => apply keeps_ret
  | |- keeps _ (raise _) => apply keeps_raise
  | |- keeps _ (os_exit _) => apply keeps_os_exit
  | |- keeps _ (read _) => apply keeps_read
  | |- keeps _ (returncode _) => apply keeps_read
  | |- keeps _ read_lock_file => apply keeps_read_lock_file
  | |- keeps _ (iterate _) => apply keeps_iterate
  | |- keeps _ (killpg_item _ _ _) => apply keeps_killpg_item; reflexivity
  | |- keeps _ (service_name_of _) => apply keeps_read
  | |- keeps _ (when _ _) => apply keeps_when
  | |- keeps _ (with_lock _) => apply keeps_with_lock; [reflexivity|]
  | |- keeps _ (try_except _ _ _) => apply keeps_try_except; [|intros ?]
  | |- keeps _ (for_each _ _) => apply keeps_for_each; intros ?
  | |- keeps _ (for_fold _ _ _) => apply keeps_for_fold; intros ? ?
  | |- keeps _ (logger _ _) => apply keeps_logger; reflexivity
  | |- keeps _ (sleep _) => apply keeps_sleep; reflexivity
  | |- keeps _ (thread_start _ _ _) => apply keeps_modify; reflexivity
  | |- keeps _ (getpgid _ _) => apply keeps_getpgid; reflexivity
  | |- keeps _ (killpg _ _ _) => apply keeps_killpg; reflexivity
  | |- keeps _ (wait _ _) => apply keeps_wait; reflexivity
  | |- keeps _ (wait_timeout _ _ _) => apply keeps_wait_timeout; reflexivity
  | |- keeps _ (poll _ _) => apply keeps_poll; reflexivity
  | |- keeps _ (modify _) => apply keeps_modify; intros ?
  | |- keeps _ (if ?b then _ else _) => destruct b
  | |- keeps _ (match ?x with _ => _ end) => destruct x
  end.

Ltac keeps_walk := repeat keeps_step.

Lemma keeps_clear_lock_file {A} (f : World -> A) :
  (forall ev w, f (emit ev w) = f w) ->
  (forall c w, f (set_lock_file c w) = f w) ->
  keeps f clear_lock_file.
Proof.
  intros He Hl w. unfold clear_lock_file.
  destruct (lock_file w); cbn [snd]; now rewrite ?He, ?Hl.
Qed.

Lemma keeps_dump_lock_file {A} (f : World -> A) items :
  (forall ev w, f (emit ev w) = f w) ->
  (forall c w, f (set_lock_file c w) = f w) ->
  keeps f (dump_lock_file items).
Proof.
  intros He Hl w. unfold dump_lock_file, write_lock_file, modify.
  destruct (integers items); cbn [snd]; now rewrite He, Hl.
Qed.

Lemma keeps_table_kill_sequence os : keeps table (kill_sequence os).
Proof.
  unfold kill_sequence, signal_group. keeps_walk.
  now apply keeps_clear_lock_file.
Qed.

Lemma keeps_table_cleanup_processes os : keeps table (cleanup_processes os).
Proof.
  unfold cleanup_processes. keeps_walk; try reflexivity.
  apply keeps_table_kill_sequence.
Qed.

Lemma keeps_table_handle_exit os signum : keeps table (handle_exit os signum).
Proof.
  unfold handle_exit. keeps_walk. apply keeps_table_cleanup_processes.
Qed.

(** X1.  Shutdown never drains the process table.  However they end,
    [cleanup_processes] and [handle_exit] leave [processes] and
    [process_service_map] exactly as they found them: a process that has
    been signalled, killed and reaped is still listed.  When
    [cleanup_processes] returns from its first call, the lock file is gone
    while the table is unchanged, so that with a non-empty table what is
    read back from the lock file is no longer the pids of the table. *)
Theorem shutdown_keeps_table os w :
  (processes (snd (cleanup_processes os w)) = processes w /\
   process_service_map (snd (cleanup_processes os w)) = process_service_map w) /\
  (forall signum,
      processes (snd (handle_exit os signum w)) = processes w /\
      process_service_map (snd (handle_exit os signum w)) = process_service_map w) /\
  (shutdown w = false ->
   fst (cleanup_processes os w) = inr tt ->
   lock_file (snd (cleanup_processes os w)) = Absent /\
   (processes w <> [] ->
    persisted (snd (cleanup_processes os w)) <>
    map pid (processes (snd (cleanup_processes os w))))).
Proof.
  split; [|split].
  - pose proof (keeps_table_cleanup_processes os w) as H.
    unfold table in H. now inversion H.
  - intros signum. pose proof (keeps_table_handle_exit os signum w) as H.
    unfold table in H. now inversion H.
  - intros S R.
    assert (L : lock_file (snd (cleanup_processes os w)) = Absent).
    { revert R. rewrite (cleanup_processes_first _ _ S). unfold bind at 1 2.
      destruct (with_lock (kill_sequence os) (set_shutdown true w))
        as [[a|[]] w1] eqn:E; cbn [fst snd]; [discriminate|]. intros _.
      apply with_lock_returns in E as (_ & w2 & K & ->).
      apply kill_sequence_done in K as [K _]. exact K. }
    split; [exact L|]. intros N. unfold persisted. rewrite L.
    pose proof (keeps_table_cleanup_processes os w) as H.
    unfold table in H. inversion H as [[H1 H2]]. rewrite H1.
    destruct (processes w); [congruence|discriminate].
Qed.

(** X1, at a concrete world: one tracked process, every signal delivered. *)
Lemma shutdown_keeps_table_witness :
  lock_file (snd (cleanup_processes (os_exiting 0) one_tracked)) = Absent /\
  processes (snd (cleanup_processes (os_exiting 0) one_tracked)) = [mkPopen 0 4242].
Proof.
  destruct (shutdown_keeps_table (os_exiting 0) one_tracked) as ((P & _) & _ & H).
  split; [|exact P].
  apply H; [reflexivity|vm_compute; reflexivity].
Defined.

(** ** The lock is never taken twice and never leaked *)

Lemma plain_ret {A} (a : A) : plain (ret a).
Proof. intros w. now split. Qed.

Lemma plain_raise {A} e : plain (@raise A e).
Proof. intros w. now split. Qed.

Lemma plain_os_exit {A} s : plain (@os_exit A s).
Proof. intros w. now split. Qed.

Lemma plain_read {A} (g : World -> A) : plain (read g).
Proof. intros w. now split. Qed.

Lemma plain_modify g :
  (forall w, lock_held (g w) = lock_held w) -> plain (modify g).
Proof. intros H w. split; [discriminate|apply H]. Qed.

Lemma plain_bind {A B} (c : M A) (k : A -> M B) :
  plain c -> (forall a, plain (k a)) -> plain (bind c k).
Proof.
  intros Hc Hk w. unfold bind. destruct (Hc w) as [N L].
  destruct (c w) as [[f|a] w']; cbn [fst snd] in *.
  - split; [intros E; apply N; congruence|exact L].
  - destruct (Hk a w') as [N' L']. split; [exact N'|congruence].
Qed.

Lemma plain_try_except {A} (body : M A) handles handler :
  plain body -> (forall e, plain (handler e)) ->
  plain (try_except body handles handler).
Proof.
  intros Hb Hh w. unfold try_except. destruct (Hb w) as [N L].
  destruct (body w) as [[[e| | |]|a] w']; cbn [fst snd] in *; try now split.
  destruct (handles e); [|now split].
  destruct (Hh e w') as [N' L']. split; [exact N'|congruence].
Qed.

Lemma plain_for_each {A} (xs : list A) body :
  (forall x, plain (body x)) -> plain (for_each xs body).
Proof.
  intros Hb. induction xs as [|x xs IH]; cbn [for_each].
  - apply plain_ret.
  - apply plain_bind; [apply Hb|intros _; exact IH].
Qed.

Lemma plain_for_fold {A S} (xs : list A) (s : S) body :
  (forall x s, plain (body x s)) -> plain (for_fold xs s body).
Proof.
  intros Hb. revert s. induction xs as [|x xs IH]; intros s; cbn [for_fold].
  - apply plain_ret.
  - apply plain_bind; [apply Hb|intros s'; apply IH].
Qed.

Lemma plain_when c body : plain body -> plain (when c body).
Proof. intros H. destruct c; [exact H|apply plain_ret]. Qed.

Lemma plain_getpgid os p : plain (getpgid os p).
Proof.
  intros w. unfold getpgid. destruct (os_getpgid os (clock w) p); now split.
Qed.

Lemma plain_killpg os g sig : plain (killpg os g sig).
Proof.
  intros w. unfold killpg. destruct (os_killpg os (clock w) g sig); now split.
Qed.

Lemma plain_wait_timeout os process t : plain (wait_timeout os process t).
Proof.
  intros w. unfold wait_timeout.
  destruct (returncodes w !! obj process); [now split|].
  destruct (os_wait_timeout os (clock w) process t); now split.
Qed.

Lemma plain_poll os process : plain (poll os process).
Proof.
  intros w. unfold poll. destruct (returncodes w !! obj process); [now split|].
  destruct (os_poll os (clock w) process); now split.
Qed.

Lemma plain_subprocess_Popen os command environ dir :
  plain (subprocess_Popen os command environ dir).
Proof.
  intros w. unfold subprocess_Popen.
  destruct (os_popen os (clock w) command environ dir); now split.
Qed.

Lemma plain_clear_lock_file : plain clear_lock_file.
Proof. intros w. unfold clear_lock_file. destruct (lock_file w); now split. Qed.

Lemma plain_read_lock_file : plain read_lock_file.
Proof. intros w. unfold read_lock_file. destruct (lock_file w); now split. Qed.

Lemma plain_iterate v : plain (iterate v).
Proof. intros w. destruct v; now split. Qed.

Lemma plain_as_pid item : plain (as_pid item).
Proof.
  intros w. destruct item; try now split. cbn [as_pid].
  destruct (in_pid_range n); now split.
Qed.

Lemma plain_killpg_item os item sig : plain (killpg_item os item sig).
Proof.
  unfold killpg_item.
  apply plain_bind; [apply plain_as_pid|intros g].
  apply plain_bind; [apply plain_killpg|intros _].
  destruct sig; try (intros w; now split);
    destruct (own_group os g); intros w; now split.
Qed.

Lemma plain_dump_lock_file items : plain (dump_lock_file items).
Proof.
  unfold dump_lock_file. destruct (integers items); intros w; now split.
Qed.

Ltac plain_step :=
  lazymatch goal with
  | |- plain (bind _ _) => apply plain_bind; [|intros ?]
  | |- plain (ret _) => apply plain_ret
  | |- plain (raise _) => apply plain_raise
  | |- plain (os_exit _) => apply plain_os_exit
  | |- plain (read _) => apply plain_read
  | |- plain (returncode _) => apply plain_read
  | |- plain read_lock_file => apply plain_read_lock_file
  | |- plain (iterate _) => apply plain_iterate
  | |- plain (killpg_item _ _ _) => apply plain_killpg_item
  | |- plain (dump_lock_file _) => apply plain_dump_lock_file
  | |- plain (service_name_of _) => apply plain_read
  | |- plain (when _ _) => apply plain_when
  | |- plain (try_except _ _ _) => apply plain_try_except; [|intros ?]
  | |- plain (for_each _ _) => apply plain_for_each; intros ?
  | |- plain (for_fold _ _ _) => apply plain_for_fold; intros ? ?
  | |- plain (logger _ _) => apply plain_modify; reflexivity
  | |- plain (sleep _) => apply plain_modify; reflexivity
  | |- plain (thread_start _ _ _) => apply plain_modify; reflexivity
  | |- plain (write_lock_file _) => apply plain_modify; reflexivity
  | |- plain (modify _) => apply plain_modify; reflexivity
  | |- plain clear_lock_file => apply plain_clear_lock_file
  | |- plain (getpgid _ _) => apply plain_getpgid
  | |- plain (killpg _ _ _) => apply plain_killpg
  | |- plain (wait_timeout _ _ _) => apply plain_wait_timeout
  | |- plain (poll _ _) => apply plain_poll
  | |- plain (subprocess_Popen _ _ _ _) => apply plain_subprocess_Popen
  | |- plain (if ?b then _ else _) => destruct b
  | |- plain (match ?x with _ => _ end) => destruct x
  end.

Ltac plain_walk := repeat plain_step.

Lemma disciplined_plain {A} (c : M A) : plain c -> disciplined c.
Proof.
  intros H w L. destruct (H w) as [N K]. unfold released.
  destruct (c w) as [[[e|s| |sg]|a] w']; cbn [fst snd] in *;
    try congruence; exact I.
Qed.

Lemma disciplined_bind {A B} (c : M A) (k : A -> M B) :
  disciplined c -> (forall a, disciplined (k a)) -> disciplined (bind c k).
Proof.
  intros Hc Hk w L. specialize (Hc w L). unfold released, bind in *.
  destruct (c w) as [[f|a] w']; cbn [fst snd] in *; [exact Hc|].
  apply (Hk a w' Hc).
Qed.

(** A critical section whose body is [plain] takes the lock when it is
    free and gives it back. *)
Lemma disciplined_with_lock {A} (body : M A) :
  plain body -> disciplined (with_lock body).
Proof.
  intros Hb w L. unfold released, with_lock. rewrite L.
  destruct (Hb (set_lock_held true w)) as [N _].
  destruct (body (set_lock_held true w)) as [[[e|s| |sg]|a] w']; cbn [fst snd] in *;
    try reflexivity; try exact I. congruence.
Qed.

Lemma disciplined_for_fold {A S} (xs : list A) (s : S) body :
  (forall x s, disciplined (body x s)) -> disciplined (for_fold xs s body).
Proof.
  intros Hb. revert s. induction xs as [|x xs IH]; intros s; cbn [for_fold].
  - apply disciplined_plain, plain_ret.
  - apply disciplined_bind; [apply Hb|intros s'; apply IH].
Qed.

Lemma plain_kill_sequence os : plain (kill_sequence os).
Proof. unfold kill_sequence, signal_group, update_lock_file. plain_walk. Qed.

Lemma disciplined_start_service os service instance_id :
  disciplined (start_service os service instance_id).
Proof.
  unfold start_service.
  apply disciplined_bind; [apply disciplined_plain; plain_walk|intros process].
  apply disciplined_bind;
    [apply disciplined_with_lock; unfold update_lock_file; plain_walk|intros _].
  apply disciplined_plain. plain_walk.
Qed.

Lemma disciplined_cleanup_processes os : disciplined (cleanup_processes os).
Proof.
  unfold cleanup_processes.
  apply disciplined_bind; [apply disciplined_plain; plain_walk|intros down].
  destruct down; [apply disciplined_plain; plain_walk|].
  apply disciplined_bind; [apply disciplined_plain; plain_walk|intros _].
  apply disciplined_bind;
    [apply disciplined_with_lock, plain_kill_sequence|intros _].
  apply disciplined_plain. plain_walk.
Qed.

Lemma disciplined_handle_exit os signum : disciplined (handle_exit os signum).
Proof.
  unfold handle_exit.
  apply disciplined_bind; [apply disciplined_plain; plain_walk|intros down].
  destruct down; [apply disciplined_plain; plain_walk|].
  apply disciplined_bind; [apply disciplined_plain; plain_walk|intros _].
  apply disciplined_bind; [apply disciplined_cleanup_processes|intros _].
  apply disciplined_bind; [apply disciplined_with_lock; plain_walk|intros _].
  apply disciplined_plain. plain_walk.
Qed.

Lemma plain_terminate_existing_processes os :
  plain (terminate_existing_processes os).
Proof. unfold terminate_existing_processes, terminate_one. plain_walk. Qed.

Lemma disciplined_main os services : disciplined (main os services).
Proof.
  unfold main.
  do 3 (apply disciplined_bind; [apply disciplined_plain; plain_walk|intros _]).
  apply disciplined_bind;
    [apply disciplined_plain, plain_terminate_existing_processes|intros _].
  unfold main_startup. apply disciplined_bind.
  - apply disciplined_for_fold. intros service started. unfold main_service.
    destruct (get (disabled service) false); [apply disciplined_plain; plain_walk|].
    apply disciplined_bind;
      [apply disciplined_plain; unfold instance_count; plain_walk|intros n].
    apply disciplined_for_fold. intros i s. unfold launch_instance.
    apply disciplined_bind; [apply disciplined_start_service|intros process].
    apply disciplined_plain. plain_walk.
  - intros started. apply disciplined_plain. plain_walk.
Qed.

(** X2.  The lock is neither taken twice nor leaked.  Started in a world
    where [lock] is free, [start_service], [cleanup_processes],
    [handle_exit], [terminate_existing_processes] and [main] never block
    (no [with lock] is entered while the lock is held, and none of them
    waits without a timeout), and whenever one of them returns or raises,
    the lock is free again: an exception inside a critical section, such
    as the failing lookup of C5, releases it. *)
Theorem lock_never_leaks os w :
  lock_held w = false ->
  (forall service instance_id, released (start_service os service instance_id w)) /\
  released (cleanup_processes os w) /\
  (forall signum, released (handle_exit os signum w)) /\
  released (terminate_existing_processes os w) /\
  (forall services, released (main os services w)).
Proof.
  intros L. repeat split.
  - intros service instance_id. now apply disciplined_start_service.
  - now apply disciplined_cleanup_processes.
  - intros signum. now apply disciplined_handle_exit.
  - now apply disciplined_plain; [apply plain_terminate_existing_processes|].
  - intros services. now apply disciplined_main.
Qed.

(** X2, at the world of C5: the lookup fails inside the critical section,
    the exception leaves [cleanup_processes], and the lock is free. *)
Lemma lock_never_leaks_witness :
  fst (cleanup_processes os_gone one_tracked) = inl (Raised ProcessLookupError) /\
  lock_held (snd (cleanup_processes os_gone one_tracked)) = false.
Proof.
  split; [vm_compute; reflexivity|].
  destruct (lock_never_leaks os_gone one_tracked eq_refl) as (_ & H & _).
  unfold released in H.
  replace (fst (cleanup_processes os_gone one_tracked))
    with (@inl abort unit (Raised ProcessLookupError)) in H
    by (vm_compute; reflexivity).
  exact H.
Defined.

(** ** The shutdown flag goes one way *)






(** ** The restart budget is never exceeded *)

Lemma no_spawn_count evs : Forall no_spawn evs -> count is_spawn evs = 0%nat.
Proof. apply count_none. Qed.

Lemma calm_no_spawn ev : calm_event ev -> no_spawn ev.
Proof. now intros [H _]. Qed.

Lemma turn_outcome_app max_restarts restarts r evs1 evs2 :
  Forall no_spawn evs1 ->
  turn_outcome max_restarts restarts r evs2 ->
  turn_outcome max_restarts restarts r (evs1 ++ evs2).
Proof.
  intros F. unfold turn_outcome.
  rewrite count_app, (no_spawn_count _ F). cbn [Nat.add]. tauto.
Qed.

(** A step that asks for no process, followed by a budgeted rest. *)
Lemma budgeted_bind {A} max_restarts restarts (c : M A) (k : A -> M loop_ctl) :
  emits no_spawn c ->
  (forall a, budgeted max_restarts restarts (k a)) ->
  budgeted max_restarts restarts (bind c k).
Proof.
  intros Hc Hk w. destruct (Hc w) as [_ (e1 & T1 & F1)]. unfold bind.
  destruct (c w) as [[f|a] w1]; cbn [fst snd] in *.
  - exists e1. split; [exact T1|]. left. now apply no_spawn_count.
  - destruct (Hk a w1) as (e2 & T2 & O2). exists (e1 ++ e2). split.
    + rewrite T2, T1. now rewrite app_assoc.
    + now apply turn_outcome_app.
Qed.

(** Every outcome of [start_service] has asked for exactly one process. *)
Lemma start_service_one_spawn os service instance_id w :
  exists evs,
    trace (snd (start_service os service instance_id w)) = trace w ++ evs /\
    count is_spawn evs = 1%nat.
Proof.
  destruct (os_popen os (clock w) (service_command service)
              (service_environ os service) (service_dir os service))
    as [e|child] eqn:P.
  - rewrite (start_service_fails _ _ _ _ _ P). eexists. split; reflexivity.
  - destruct (lock_held w) eqn:L.
    + rewrite (start_service_blocked _ _ _ _ _ L P). eexists. split; reflexivity.
    + rewrite (start_service_launches _ _ _ _ _ L P). eexists.
      split; [apply after_launch_trace|reflexivity].
Qed.

Lemma budgeted_monitor_decide os service instance_id max_restarts restarts
    process rc :
  budgeted max_restarts restarts
    (monitor_decide os service instance_id max_restarts restarts process rc).
Proof.
  unfold monitor_decide.
  destruct (restarts <? max_restarts) eqn:B; cbn [andb];
    [destruct (get (autorestart service) false)|].
  - (* a restart *)
    apply Z.ltb_lt in B. intros w.
    erewrite bind_returns; [|reflexivity].
    set (w1 := emit _ w).
    destruct (start_service_one_spawn os service instance_id w1) as (e & T & C).
    exists (EvLog INFO (MsgRestarting instance_id (name service) (restarts + 1)) :: e).
    unfold bind, ret.
    destruct (start_service os service instance_id w1) as [[f|p] w2];
      cbn [fst snd] in *;
      (split; [rewrite T; unfold w1; cbn [trace emit];
               now rewrite <- app_assoc|]);
      cbn [turn_outcome]; right; repeat split; try exact B;
      change (count is_spawn (EvLog INFO (MsgRestarting instance_id (name service)
                                           (restarts + 1)) :: e))
        with (count is_spawn e); exact C.
  - (* budget left, but no autorestart: cannot be the elif branch *)
    assert (N : (restarts =? max_restarts) = false)
      by (apply Z.eqb_neq; apply Z.ltb_lt in B; lia).
    rewrite N. apply budgeted_bind.
    + emits_walk. reflexivity.
    + intros _ w. exists []. rewrite app_nil_r. split; reflexivity.
  - destruct (restarts =? max_restarts); apply budgeted_bind.
    + emits_walk; [reflexivity|].
      eapply emits_weaken; [|apply emits_handle_exit].
      intros ev H. apply calm_no_spawn, shutdown_event_calm, H.
    + intros _ w. exists []. rewrite app_nil_r. split; [reflexivity|].
      left. now split.
    + emits_walk. reflexivity.
    + intros _ w. exists []. rewrite app_nil_r. split; reflexivity.
Qed.

Lemma budgeted_monitor_body os service instance_id max_restarts restarts process :
  budgeted max_restarts restarts
    (monitor_body os service instance_id max_restarts restarts process).
Proof.
  unfold monitor_body, forget_process.
  apply budgeted_bind; [emits_walk; reflexivity|intros _].
  apply budgeted_bind;
    [emits_walk; first [reflexivity|now apply extends_silent]|intros _].
  apply budgeted_bind; [emits_walk|intros down].
  destruct down.
  - intros w. exists []. rewrite app_nil_r. split; reflexivity.
  - apply budgeted_bind; [emits_walk|intros rc].
    apply budgeted_bind; [emits_walk; reflexivity|intros _].
    apply budgeted_monitor_decide.
Qed.

Lemma monitor_loop_within_budget os service instance_id max_restarts fuel :
  forall restarts process w, exists evs,
    trace (snd (monitor_loop os fuel service instance_id max_restarts
                  restarts process w)) = trace w ++ evs /\
    (count is_spawn evs <= Z.to_nat (max_restarts - restarts))%nat.
Proof.
  induction fuel as [|fuel IH]; intros restarts process w; cbn [monitor_loop];
    destruct ((restarts <=? max_restarts) && negb (shutdown w));
    try (exists []; rewrite app_nil_r; split; [reflexivity|cbn; lia]).
  destruct (budgeted_monitor_body os service instance_id max_restarts restarts
              process w) as (e1 & T1 & O1).
  destruct (monitor_body os service instance_id max_restarts restarts process w)
    as [[a|[|r p]] w1]; cbn [fst snd turn_outcome] in *.
  - exists e1. split; [exact T1|]. destruct O1 as [->|[B ->]]; lia.
  - exists e1. split; [exact T1|]. rewrite O1. lia.
  - destruct (IH r p w1) as (e2 & T2 & C2). exists (e1 ++ e2). split.
    + rewrite T2, T1. now rewrite app_assoc.
    + rewrite count_app. destruct O1 as [[-> ->]|(-> & B & ->)]; lia.
Qed.

(** X4.  The restart budget is never exceeded.  Whatever the children and
    the kernel do (any exit status, launches that fail, signals that are
    not delivered) and however long it runs, [monitor_service] asks for at
    most [max_restarts] new processes; with a budget that is absent, zero
    or negative it asks for none. *)
Theorem monitor_within_budget os fuel service process instance_id w :
  (count is_spawn
     (new_events w (snd (monitor_service os fuel service process instance_id w)))
   <= Z.to_nat (get (max_restarts service) 0%Z))%nat.
Proof.
  unfold monitor_service.
  destruct (monitor_loop_within_budget os service instance_id
              (get (max_restarts service) 0) fuel 0%Z process w) as (evs & T & C).
  rewrite (new_events_app _ _ _ T). now rewrite Z.sub_0_r in C.
Qed.

(** ** Restarts, whatever the exit status *)

Lemma watching_monitoring process w : watching process w -> monitoring process w.
Proof. intros (S & L & O & F & R). repeat split; try assumption. now rewrite R. Qed.

(** The first half of a turn on a process that exits with status [c]:
    it is reaped and forgotten, an error is logged when [c] is not 0, and
    the decision is taken on [c]. *)
Lemma monitor_body_turn os service instance_id max_restarts restarts process w c :
  watching process w ->
  os_wait os (clock w) process = Some c ->
  exists w1 evs,
    monitor_body os service instance_id max_restarts restarts process w =
      monitor_decide os service instance_id max_restarts restarts process
        (Some c) w1 /\
    shutdown w1 = false /\ lock_held w1 = false /\
    next_obj w1 = next_obj w /\ fresh_objects w1 /\
    processes w1 = processes (after_forget process w) /\
    trace w1 = trace w ++ evs /\ Forall calm_event evs /\
    count is_kill evs = 0%nat /\
    count is_error evs = (if (c =? 0)%Z then 0 else 1)%nat.
Proof.
  intros (S & L & O & Fr & R) W.
  set (w1 := set_returncodes (<[obj process := c]> (returncodes w))
               (tick (emit (EvWait (pid process) None (Some c)) w))).
  assert (E1 : wait os process w = (inr c, w1)) by now apply wait_exits.
  destruct (after_forget_fields process w1) as (S2 & L2 & R2 & N2 & _).
  set (w2 := after_forget process w1) in *.
  assert (T2 : exists e2, trace w2 = trace w ++ EvWait (pid process) None (Some c) :: e2 /\
                          Forall calm_event e2 /\ count is_kill e2 = 0%nat /\
                          count is_error e2 = 0%nat).
  { unfold w2, after_forget. destruct (contains process (processes w1)).
    - eexists. unfold w1. world_simpl. rewrite <- app_assoc.
      split; [reflexivity|]. now repeat constructor.
    - exists []. unfold w1. world_simpl. split; [reflexivity|].
      now repeat constructor. }
  destruct T2 as (e2 & T2 & Q2 & K2 & X2).
  assert (P2 : processes w2 = processes (after_forget process w)).
  { unfold w2, after_forget, w1. world_simpl.
    now destruct (contains process (processes w)). }
  assert (Fr2 : forall o, (next_obj w <= o)%nat -> returncodes w2 !! o = None).
  { intros o Ho. rewrite R2. unfold w1. world_simpl.
    rewrite lookup_insert_ne; [apply Fr, Ho|lia]. }
  assert (R1 : returncodes w2 !! obj process = Some c).
  { rewrite R2. unfold w1. world_simpl. apply lookup_insert_eq. }
  assert (H : monitor_body os service instance_id max_restarts restarts process w =
              (when (failed (Some c))
                 (logger ERROR (MsgExitedWithError instance_id (name service) c)) >>
               monitor_decide os service instance_id max_restarts restarts
                 process (Some c)) w2).
  { unfold monitor_body.
    erewrite bind_returns; [|exact E1].
    erewrite bind_returns; [|apply forget_process_free; exact L].
    fold w2. erewrite bind_returns; [|reflexivity].
    rewrite S2. unfold w1 at 1. world_simpl. rewrite S.
    erewrite bind_returns; [|reflexivity]. rewrite R1. reflexivity. }
  rewrite H. destruct (Z.eqb_spec c 0) as [->|Nz].
  - exists w2, (EvWait (pid process) None (Some 0) :: e2). cbn [failed when].
    erewrite bind_returns; [|reflexivity].
    split; [reflexivity|]. split; [rewrite S2; exact S|].
    split; [apply L2; exact L|]. split; [rewrite N2; reflexivity|].
    split; [intros o Ho; apply Fr2; rewrite N2 in Ho; exact Ho|].
    split; [exact P2|]. split; [exact T2|].
    split; [constructor; [now split|exact Q2]|].
    split; [exact K2|exact X2].
  - assert (Fc : failed (Some c) = true) by (destruct c; [congruence|reflexivity..]).
    rewrite Fc. cbn [when].
    exists (emit (EvLog ERROR (MsgExitedWithError instance_id (name service) c)) w2),
      (EvWait (pid process) None (Some c) ::
       e2 ++ [EvLog ERROR (MsgExitedWithError instance_id (name service) c)]).
    erewrite bind_returns; [|reflexivity].
    split; [reflexivity|]. world_simpl.
    split; [rewrite S2; exact S|]. split; [apply L2; exact L|].
    split; [rewrite N2; reflexivity|].
    split; [intros o Ho; world_simpl; apply Fr2; rewrite N2 in Ho; exact Ho|].
    split; [exact P2|].
    split; [rewrite T2, <- app_assoc; reflexivity|].
    split.
    { constructor; [now split|]. apply Forall_app. split; [exact Q2|].
      now repeat constructor. }
    split.
    { change (count is_kill (EvWait (pid process) None (Some c) ::
                e2 ++ [EvLog ERROR (MsgExitedWithError instance_id (name service) c)]))
        with (count is_kill (e2 ++ [EvLog ERROR (MsgExitedWithError instance_id
                                                   (name service) c)])).
      rewrite count_app, K2. reflexivity. }
    change (count is_error (EvWait (pid process) None (Some c) ::
              e2 ++ [EvLog ERROR (MsgExitedWithError instance_id (name service) c)]))
      with (count is_error (e2 ++ [EvLog ERROR (MsgExitedWithError instance_id
                                                  (name service) c)])).
    rewrite count_app, X2. reflexivity.
Qed.

(** A whole turn that ends in a restart, whatever the exit status. *)
Lemma monitor_body_restarts_any os service instance_id max_restarts restarts
    process w c :
  watching process w ->
  os_wait os (clock w) process = Some c ->
  (forall t cmd e d, launched (os_popen os t cmd e d) = true) ->
  restarts < max_restarts ->
  get (autorestart service) false = true ->
  exists process' w' evs,
    monitor_body os service instance_id max_restarts restarts process w =
      (inr (Next (restarts + 1) process'), w') /\
    watching process' w' /\
    trace w' = trace w ++ evs /\
    restart_numbers evs = [restarts + 1] /\
    count is_launch evs = 1%nat /\
    count is_kill evs = 0%nat /\
    count is_error evs = (if (c =? 0)%Z then 0 else 1)%nat.
Proof.
  intros Wa W P B A.
  destruct (monitor_body_turn os service instance_id max_restarts restarts
              process w c Wa W)
    as (w1 & e1 & E1 & S1 & L1 & N1 & Fr1 & _ & T1 & Q1 & K1 & X1).
  destruct (monitor_decide_restarts os service instance_id max_restarts restarts
              process (Some c) w1 B A L1 (P _ _ _ _)) as (child & E2).
  destruct (calm_counts _ Q1) as (_ & C2 & C3).
  eexists. eexists.
  exists (e1 ++ [EvLog INFO (MsgRestarting instance_id (name service) (restarts + 1));
                 EvPopen (service_command service) (service_dir os service) (inr child);
                 EvWriteLock (map pid (processes w1 ++ [mkPopen (next_obj w1) child]));
                 EvLog INFO (MsgStarting instance_id (name service)
                               (service_command service) child
                               (service_dir os service))]).
  split; [rewrite E1; exact E2|].
  split; [|split; [|split; [|split; [|split]]]].
  - unfold watching, fresh_objects, after_launch. world_simpl.
    split; [exact S1|]. split; [reflexivity|]. split; [lia|].
    split; [intros o Ho; apply Fr1; lia|]. apply Fr1. lia.
  - unfold after_launch. world_simpl. rewrite T1. now rewrite <- !app_assoc.
  - rewrite restart_numbers_app, C3. reflexivity.
  - rewrite count_app, C2. reflexivity.
  - rewrite count_app, K1. reflexivity.
  - rewrite count_app, X1. cbn. lia.
Qed.

Lemma restart_range_succ restarts k :
  restart_range restarts (S k) = (restarts + 1) :: restart_range (restarts + 1) k.
Proof.
  unfold restart_range. cbn [seq map]. rewrite Z.add_0_r. f_equal.
  rewrite <- seq_shift, map_map. apply map_ext. intros j. lia.
Qed.

(** [k] turns in a row that each end in a restart. *)
Lemma restart_phase os service instance_id max_restarts k :
  (forall t p, exits (os_wait os t p) = true) ->
  (forall t cmd e d, launched (os_popen os t cmd e d) = true) ->
  get (autorestart service) false = true ->
  forall restarts process w fuel,
  watching process w ->
  restarts + Z.of_nat k <= max_restarts ->
  exists process' w' evs,
    monitor_loop os (k + fuel) service instance_id max_restarts restarts process w =
      monitor_loop os fuel service instance_id max_restarts
        (restarts + Z.of_nat k) process' w' /\
    watching process' w' /\
    trace w' = trace w ++ evs /\
    restart_numbers evs = restart_range restarts k /\
    count is_launch evs = k /\
    count is_kill evs = 0%nat.
Proof.
  intros X P A. induction k as [|k IH]; intros restarts process w fuel Wa B.
  - exists process, w, []. rewrite Z.add_0_r, app_nil_r.
    split; [reflexivity|]. split; [exact Wa|]. repeat split.
  - assert (exists c, os_wait os (clock w) process = Some c) as (c & W).
    { specialize (X (clock w) process).
      destruct (os_wait os (clock w) process) as [c|]; [eauto|discriminate]. }
    destruct (monitor_body_restarts_any os service instance_id max_restarts
                restarts process w c Wa W P ltac:(lia) A)
      as (p1 & w1 & e1 & E1 & Wa1 & T1 & R1 & C1 & K1 & _).
    destruct (IH (restarts + 1) p1 w1 fuel Wa1 ltac:(lia))
      as (p2 & w2 & e2 & E2 & Wa2 & T2 & R2 & C2 & K2).
    exists p2, w2, (e1 ++ e2). split; [|split; [|split; [|split; [|split]]]].
    + cbn [Nat.add]. rewrite monitor_loop_turn, E1; [|lia|apply Wa].
      rewrite E2. f_equal. lia.
    + exact Wa2.
    + rewrite T2, T1. now rewrite app_assoc.
    + rewrite restart_numbers_app, R1, R2, restart_range_succ. reflexivity.
    + rewrite count_app, C1, C2. reflexivity.
    + rewrite count_app, K1, K2. reflexivity.
Qed.

(** X5.  With [autorestart] on, a process is restarted whatever its exit
    status, a clean exit included.  For every budget [max_restarts = m >= 0],
    when every child exits (with any status) and every launch succeeds,
    the first [m] turns of the loop each launch a new process, announcing
    "Restart 1" to "Restart m"; after them the monitor is still in its
    loop, the flag is down and no signal has been sent. *)
Theorem restarted_whatever_the_status os service process instance_id w m :
  max_restarts service = Some m ->
  0 <= m ->
  autorestart service = Some true ->
  watching process w ->
  (forall t p, exits (os_wait os t p) = true) ->
  (forall t cmd e d, launched (os_popen os t cmd e d) = true) ->
  let r := monitor_service os (Z.to_nat m) service process instance_id w in
  fst r = None /\
  shutdown (snd r) = false /\
  restart_numbers (new_events w (snd r)) = restart_range 0 (Z.to_nat m) /\
  launches w (snd r) = Z.to_nat m /\
  count is_kill (new_events w (snd r)) = 0%nat.
Proof.
  intros MR M0 AR Wa X P.
  assert (A : get (autorestart service) false = true) by now rewrite AR.
  destruct (restart_phase os service instance_id m (Z.to_nat m) X P A
              0 process w 0%nat Wa ltac:(lia))
    as (p' & w' & evs & E & (S' & _) & T & R & C & K).
  cbv zeta. unfold monitor_service, launches. rewrite MR. cbn [get].
  rewrite Nat.add_0_r in E. rewrite E. cbn [monitor_loop].
  assert (B : (0 + Z.of_nat (Z.to_nat m) <=? m) = true) by (apply Z.leb_le; lia).
  rewrite B, S'. cbn [andb negb fst snd].
  rewrite (new_events_app _ _ _ T). auto.
Qed.

(** X5, on a machine where every child exits with status 0. *)
Lemma restarted_whatever_the_status_witness :
  launches one_tracked
    (snd (monitor_service (os_exiting 0) 3
            (service_entry "web" "python" None (Some true) (Some true) (Some 3))
            (mkPopen 0 4242) 0 one_tracked)) = 3%nat.
Proof.
  refine (proj1 (proj2 (proj2 (proj2
    (restarted_whatever_the_status (os_exiting 0)
       (service_entry "web" "python" None (Some true) (Some true) (Some 3))
       (mkPopen 0 4242) 0 one_tracked 3 eq_refl _ eq_refl _ _ _))))).
  - lia.
  - repeat split; try reflexivity. cbn. lia.
  - intros t p. reflexivity.
  - intros t cmd e d. reflexivity.
Defined.

(** X6.  The escalation of C1 for every budget.  For [max_restarts = m >= 0]
    and [autorestart] on, when every run of the process fails and every
    launch succeeds, the monitor restarts exactly [m] times ("Restart 1" to
    "Restart m", [m] launches), and on the next failure launches nothing,
    logs that the budget is exceeded and calls [handle_exit], which sets
    the shutdown flag; [monitor_service] does not return. *)
Theorem monitor_restarts_then_shuts_down os service process instance_id w m fuel :
  max_restarts service = Some m ->
  0 <= m ->
  autorestart service = Some true ->
  watching process w ->
  (forall t p, exits_nonzero (os_wait os t p) = true) ->
  (forall t cmd e d, launched (os_popen os t cmd e d) = true) ->
  exists a w' before after,
    monitor_service os (Z.to_nat m + S fuel) service process instance_id w =
      (Some (inl a), w') /\
    shutdown w' = true /\
    new_events w w' =
      before ++
      EvLog WARNING (MsgExceeded instance_id (name service) m) ::
      EvLog INFO MsgTerminating :: after /\
    restart_numbers before = restart_range 0 (Z.to_nat m) /\
    count is_launch before = Z.to_nat m /\
    Forall shutdown_event after.
Proof.
  intros MR M0 AR Wa X P.
  assert (A : get (autorestart service) false = true) by now rewrite AR.
  assert (X' : forall t p, exits (os_wait os t p) = true).
  { intros t p. specialize (X t p). now destruct (os_wait os t p). }
  destruct (restart_phase os service instance_id m (Z.to_nat m) X' P A
              0 process w (S fuel) Wa ltac:(lia))
    as (p' & w1 & e1 & E1 & Wa1 & T1 & R1 & C1 & _).
  replace (0 + Z.of_nat (Z.to_nat m)) with m in E1 by lia.
  destruct (monitor_body_exhausted os service instance_id m p' w1
              (watching_monitoring _ _ Wa1) (X _ _))
    as (a & w2 & c & e2 & post & E2 & S2 & T2 & Q2 & _ & Q3).
  destruct (calm_counts _ Q2) as (_ & D2 & R2).
  exists a, w2, (e1 ++ e2), post.
  split; [|split; [exact S2|split; [|split; [|split]]]].
  - unfold monitor_service. rewrite MR. cbn [get]. rewrite E1.
    rewrite monitor_loop_turn, E2; [reflexivity|lia|apply Wa1].
  - apply new_events_app. rewrite T2, T1. now rewrite <- !app_assoc.
  - rewrite restart_numbers_app, R1, R2. now rewrite app_nil_r.
  - rewrite count_app, C1, D2. lia.
  - exact Q3.
Qed.

(** X6, with a budget of five restarts. *)
Lemma monitor_restarts_then_shuts_down_witness :
  exists a w',
    monitor_service (os_exiting 1) 6
      (service_entry "web" "python" None (Some true) (Some true) (Some 5))
      (mkPopen 0 4242) 0 one_tracked = (Some (inl a), w') /\
    shutdown w' = true.
Proof.
  destruct (monitor_restarts_then_shuts_down (os_exiting 1)
              (service_entry "web" "python" None (Some true) (Some true) (Some 5))
              (mkPopen 0 4242) 0 one_tracked 5 0 eq_refl) as (a & w' & _ & _ & E & S & _).
  - lia.
  - reflexivity.
  - repeat split; try reflexivity. cbn. lia.
  - intros t p. reflexivity.
  - intros t cmd e d. reflexivity.
  - exists a, w'. split; [exact E|exact S].
Defined.

(** X7.  A restart whose launch fails ends the monitor and nothing else.
    With budget left and [autorestart] on, when the process exits and
    [subprocess.Popen] then raises, the exception leaves
    [monitor_service]: the dead process is out of the table and nothing
    replaces it, no signal is sent, and the shutdown flag stays down, so
    that the supervisor goes on without this instance. *)
Theorem failed_restart_ends_monitor os service process instance_id w m e fuel :
  max_restarts service = Some m ->
  0 < m ->
  autorestart service = Some true ->
  watching process w ->
  exits (os_wait os (clock w) process) = true ->
  (forall t cmd env dir, os_popen os t cmd env dir = inl e) ->
  let r := monitor_service os (S fuel) service process instance_id w in
  fst r = Some (inl (Raised e)) /\
  shutdown (snd r) = false /\
  lock_held (snd r) = false /\
  processes (snd r) = processes (after_forget process w) /\
  launches w (snd r) = 0%nat /\
  count is_kill (new_events w (snd r)) = 0%nat.
Proof.
  intros MR M0 AR Wa X P.
  assert (exists c, os_wait os (clock w) process = Some c) as (c & W)
    by (destruct (os_wait os (clock w) process) as [c|]; [eauto|discriminate]).
  destruct (monitor_body_turn os service instance_id m 0 process w c Wa W)
    as (w1 & e1 & E1 & S1 & L1 & _ & _ & P1 & T1 & Q1 & K1 & _).
  destruct (calm_counts _ Q1) as (_ & C1 & _).
  set (w2 := emit (EvLog INFO (MsgRestarting instance_id (name service) (0 + 1))) w1).
  assert (E2 : monitor_body os service instance_id m 0 process w =
               (inl (Raised e),
                tick (emit (EvPopen (service_command service)
                              (service_dir os service) (inl e)) w2))).
  { rewrite E1. unfold monitor_decide.
    assert (B : (0 <? m) = true) by (apply Z.ltb_lt; lia).
    rewrite B, AR. cbn [get andb].
    erewrite bind_returns; [|reflexivity].
    erewrite bind_aborts; [reflexivity|].
    apply start_service_fails, P. }
  cbv zeta. unfold monitor_service, launches. rewrite MR. cbn [get].
  rewrite monitor_loop_turn, E2; [|lia|apply Wa]. cbn [fst snd].
  unfold w2. world_simpl. repeat split; try assumption.
  - erewrite new_events_app;
      [|world_simpl; rewrite T1, <- !app_assoc; reflexivity].
    rewrite count_app, C1. reflexivity.
  - erewrite new_events_app;
      [|world_simpl; rewrite T1, <- !app_assoc; reflexivity].
    rewrite count_app, K1. reflexivity.
Qed.

(** X7, on a machine where the interpreter has gone missing. *)
Lemma failed_restart_ends_monitor_witness :
  fst (monitor_service
         (mkOS (Some 4) [] "/srv" (fun _ _ _ _ => inl FileNotFoundError)
               (fun _ p => inr p) (fun _ _ _ => None) (fun _ _ => Some 1)
               (fun _ _ _ => Some 1) (fun _ _ => None) 77)
         1 (service_entry "web" "python" None (Some true) (Some true) (Some 2))
         (mkPopen 0 4242) 0 one_tracked)
  = Some (inl (Raised FileNotFoundError)).
Proof.
  refine (proj1 (failed_restart_ends_monitor
                   (mkOS (Some 4) [] "/srv" (fun _ _ _ _ => inl FileNotFoundError)
                         (fun _ p => inr p) (fun _ _ _ => None) (fun _ _ => Some 1)
                         (fun _ _ _ => Some 1) (fun _ _ => None) 77)
                   (service_entry "web" "python" None (Some true) (Some true) (Some 2))
                   (mkPopen 0 4242) 0 one_tracked 2 FileNotFoundError 0
                   eq_refl _ eq_refl _ _ _)).
  - lia.
  - repeat split; try reflexivity. cbn. lia.
  - reflexivity.
  - intros t cmd env dir. reflexivity.
Defined.

(** ** Crash recovery with nothing to recover *)

(** X8.  Crash recovery with nothing to recover.  When the lock file is
    absent, is text that is not JSON, or holds an empty list (or an empty
    dict or string), [terminate_existing_processes] makes no call to the
    operating system and sends no signal; it returns, having removed the
    file if there was one.  A file that cannot be opened for reading or
    that is not text is not read as empty: the exception of [open] or of
    the decoder leaves [terminate_existing_processes], which has done
    nothing. *)
Theorem recovery_with_nothing_persisted os w :
  (lists_nothing (lock_file w) = true ->
   terminate_existing_processes os w =
     (inr tt,
      match lock_file w with
      | Absent => w
      | _ => emit EvRemoveLock (set_lock_file Absent w)
      end) /\
   clock (snd (terminate_existing_processes os w)) = clock w /\
   count is_kill (new_events w (snd (terminate_existing_processes os w))) = 0%nat /\
   lock_file (snd (terminate_existing_processes os w)) = Absent) /\
  (lock_file w = Unreadable ->
   terminate_existing_processes os w = (inl (Raised PermissionError), w)) /\
  (lock_file w = Undecodable ->
   terminate_existing_processes os w = (inl (Raised UnicodeDecodeError), w)).
Proof.
  split; [|split].
  - intros H.
    assert (E : terminate_existing_processes os w =
                (inr tt,
                 match lock_file w with
                 | Absent => w
                 | _ => emit EvRemoveLock (set_lock_file Absent w)
                 end)).
    { unfold terminate_existing_processes, bind, read_lock_file, clear_lock_file.
      destruct (lock_file w) as [| | | |[|p l]|v] eqn:L; cbn [lists_nothing] in H;
        try discriminate H;
        [| | |destruct v as [| | | |s|items|members]; try discriminate H;
              [destruct s|destruct items|destruct members]; try discriminate H];
        cbn [iterate ret for_fold map String.list_ascii_of_string];
        rewrite L; reflexivity. }
    rewrite E. cbn [snd]. split; [reflexivity|].
    unfold new_events.
    destruct (lock_file w) eqn:L; world_simpl; repeat split;
      rewrite ?drop_app_length, ?drop_all; try reflexivity; exact L.
  - intros L. unfold terminate_existing_processes, bind, read_lock_file.
    now rewrite L.
  - intros L. unfold terminate_existing_processes, bind, read_lock_file.
    now rewrite L.
Qed.

(** X8, with a lock file that is not JSON. *)
Lemma recovery_with_nothing_persisted_witness :
  lock_file (snd (terminate_existing_processes os_gone
                    (set_lock_file Garbled boot))) = Absent.
Proof.
  exact (proj2 (proj2 (proj2
    (proj1 (recovery_with_nothing_persisted os_gone (set_lock_file Garbled boot))
       eq_refl)))).
Defined.

(** ** Start-up of a whole configuration *)

(** The lock file after the loop [for i in range(instances)]. *)
Lemma launch_loop_registry os service k :
  (forall t c e d, launched (os_popen os t c e d) = true) ->
  forall a started w,
  lock_held w = false ->
  let w' := snd (for_fold (map Z.of_nat (seq a k)) started
                   (launch_instance os service) w) in
  (k = 0%nat -> w' = w) /\
  (k <> 0%nat -> lock_file w' = Pids (map pid (processes w'))).
Proof.
  intros P. induction k as [|k IH]; intros a started w L; cbv zeta.
  - split; [reflexivity|congruence].
  - split; [discriminate|]. intros _. cbn [seq map for_fold].
    specialize (P (clock w) (service_command service)
                  (service_environ os service) (service_dir os service)).
    destruct (os_popen os (clock w) (service_command service)
                (service_environ os service) (service_dir os service))
      as [e|child] eqn:E; [discriminate|].
    assert (exists w1, launch_instance os service (Z.of_nat a) started w = (inr true, w1)
                       /\ lock_held w1 = false
                       /\ lock_file w1 = Pids (map pid (processes w1)))
      as (w1 & E1 & L1 & R1).
    { unfold launch_instance.
      erewrite bind_returns; [|eapply start_service_launches; eassumption].
      destruct (get (wait_ready service) false); cbn [when];
        eexists; (split; [reflexivity|]); now split. }
    erewrite bind_returns; [|exact E1].
    destruct (IH (S a) true w1 L1) as [I0 I1].
    destruct k as [|k]; [now rewrite I0|]. now apply I1.
Qed.

(** One service of the configuration. *)
Lemma main_service_outcome os cpus service started w :
  lock_held w = false ->
  (forall t c e d, launched (os_popen os t c e d) = true) ->
  exists w' evs,
    main_service os (Some cpus) service started w =
      (inr (started || negb (planned cpus service =? 0)%nat), w') /\
    lock_held w' = false /\
    length (processes w') = (length (processes w) + planned cpus service)%nat /\
    trace w' = trace w ++ evs /\
    count is_launch evs = planned cpus service /\
    count is_thread evs =
      (if get (wait_ready service) false then planned cpus service else 0)%nat /\
    (planned cpus service = 0%nat ->
     lock_file w' = lock_file w /\ processes w' = processes w) /\
    (planned cpus service <> 0%nat ->
     lock_file w' = Pids (map pid (processes w'))).
Proof.
  intros L P. unfold planned, main_service.
  destruct (get (disabled service) false).
  - exists (emit (EvLog INFO (MsgDisabled (name service))) w),
      [EvLog INFO (MsgDisabled (name service))].
    rewrite orb_false_r, Nat.add_0_r.
    split; [reflexivity|]. repeat split; try assumption; try congruence.
    now destruct (get (wait_ready service) false).
  - set (n := if get (instances service) 1 <? 0
              then Z.max 1 (cpus - Z.abs (get (instances service) 1))
              else get (instances service) 1).
    assert (N : instance_count (Some cpus) service w = (inr n, w)).
    { unfold instance_count, n. now destruct (get (instances service) 1 <? 0). }
    assert (K : (if get (instances service) 1 <? 0
                 then Z.to_nat (Z.max 1 (cpus - Z.abs (get (instances service) 1)))
                 else Z.to_nat (get (instances service) 1)) = Z.to_nat n).
    { unfold n. now destruct (get (instances service) 1 <? 0). }
    cbv zeta. rewrite K.
    erewrite bind_returns; [|exact N]. unfold range.
    destruct (launch_loop_ok os service (Z.to_nat n) P 0%nat started w L)
      as (w' & evs & E & L' & Len & T & C & H).
    pose proof (launch_loop_registry os service (Z.to_nat n) P 0%nat started w L)
      as [R0 R1]. rewrite E in R0, R1. cbn [snd] in R0, R1.
    exists w', evs. split.
    { rewrite E. f_equal. f_equal.
      destruct (Z.to_nat n); [now rewrite orb_false_r|now rewrite orb_true_r]. }
    repeat split; try assumption.
    + now rewrite R0.
    + now rewrite R0.
Qed.

(** The loop [for service in services]. *)
Lemma main_loop_outcome os cpus services :
  (forall t c e d, launched (os_popen os t c e d) = true) ->
  forall started w,
  lock_held w = false ->
  exists w' evs,
    for_fold services started (main_service os (Some cpus)) w =
      (inr (started || negb (planned_total cpus services =? 0)%nat), w') /\
    lock_held w' = false /\
    length (processes w') = (length (processes w) + planned_total cpus services)%nat /\
    trace w' = trace w ++ evs /\
    count is_launch evs = planned_total cpus services /\
    count is_thread evs = planned_monitors cpus services /\
    (planned_total cpus services = 0%nat ->
     lock_file w' = lock_file w /\ processes w' = processes w) /\
    (planned_total cpus services <> 0%nat ->
     lock_file w' = Pids (map pid (processes w'))).
Proof.
  intros P. induction services as [|service services IH]; intros started w L.
  - exists w, []. cbn [planned_total planned_monitors for_fold].
    rewrite orb_false_r, app_nil_r, Nat.add_0_r. repeat split; congruence.
  - destruct (main_service_outcome os cpus service started w L P)
      as (w1 & e1 & E1 & L1 & N1 & T1 & C1 & H1 & Z1 & R1).
    destruct (IH (started || negb (planned cpus service =? 0)%nat) w1 L1)
      as (w2 & e2 & E2 & L2 & N2 & T2 & C2 & H2 & Z2 & R2).
    exists w2, (e1 ++ e2). cbn [planned_total planned_monitors for_fold].
    erewrite bind_returns; [|exact E1]. rewrite E2.
    split.
    { f_equal. f_equal. rewrite <- orb_assoc. f_equal.
      destruct (planned cpus service), (planned_total cpus services); reflexivity. }
    split; [exact L2|]. split; [lia|].
    split; [rewrite T2, T1; now rewrite app_assoc|].
    split; [rewrite count_app; lia|].
    split; [rewrite count_app; lia|].
    split.
    + intros Z0.
      destruct Z1 as [A1 B1]; [lia|]. destruct Z2 as [A2 B2]; [lia|].
      split; congruence.
    + intros NZ. destruct (Nat.eq_dec (planned_total cpus services) 0) as [Z0|N0].
      * destruct Z2 as [A2 B2]; [exact Z0|]. rewrite A2, B2. apply R1. lia.
      * now apply R2.
Qed.

(** X9.  Start-up of a whole configuration.  On a machine with a known
    processor count, with a lock file that is sound (so that crash
    recovery returns), the lock free and every launch succeeding, [main]
    launches for each service its planned number of instances (none for a
    disabled service), adds as many entries to the process table, and
    starts a monitor for every instance of a [wait_ready] service and for
    no other; it ends with [sys.exit(1)] exactly when the plan is empty,
    and otherwise reaches its idle loop with the lock file holding the
    pids of the process table, whatever crash recovery had written. *)
Theorem main_launches_the_configuration os cpus services w :
  os_cpu_count os = Some cpus ->
  sound_registry os w ->
  lock_held w = false ->
  (forall t c e d, launched (os_popen os t c e d) = true) ->
  let r := main os services w in
  launches w (snd r) = planned_total cpus services /\
  monitors w (snd r) = planned_monitors cpus services /\
  length (processes (snd r)) =
    (length (processes w) + planned_total cpus services)%nat /\
  fst r = (if (planned_total cpus services =? 0)%nat
           then inl (Raised (SystemExit 1)) else inr tt) /\
  (planned_total cpus services <> 0%nat ->
   lock_file (snd r) = Pids (map pid (processes (snd r)))).
Proof.
  intros Cpu Sd L P. cbv zeta.
  destruct (main_recovers os services w Sd) as (w1 & e1 & E1 & T1 & F1 & L1 & P1).
  destruct (idle_count _ F1) as (_ & C1 & H1).
  destruct (main_loop_outcome os cpus services P false w1 ltac:(congruence))
    as (w2 & e2 & E2 & L2 & N2 & T2 & C2 & H2 & _ & R2).
  rewrite E1. unfold main_startup. rewrite Cpu.
  erewrite bind_returns; [|exact E2]. cbn [orb]. rewrite negb_involutive.
  unfold launches, monitors.
  destruct (planned_total cpus services =? 0)%nat eqn:Z0.
  - apply Nat.eqb_eq in Z0.
    erewrite bind_returns; [|reflexivity]. cbn [fst snd raise]. world_simpl.
    erewrite new_events_app;
      [|world_simpl; rewrite T2, T1, <- !app_assoc; reflexivity].
    rewrite !count_app, C1, H1, C2, H2.
    change (count is_launch [EvLog ERROR MsgNoServices]) with 0%nat.
    change (count is_thread [EvLog ERROR MsgNoServices]) with 0%nat.
    repeat split; try reflexivity; try lia.
    rewrite N2, P1. reflexivity.
  - apply Nat.eqb_neq in Z0. cbn [fst snd ret].
    erewrite new_events_app; [|rewrite T2, T1, <- !app_assoc; reflexivity].
    rewrite !count_app, C1, H1, C2, H2.
    repeat split; try reflexivity.
    + rewrite N2, P1. reflexivity.
    + intros _. now apply R2.
Qed.

(** X9, on the configuration of two services A (one monitored instance)
    and B (two instances without monitor): three processes, one monitor. *)
Lemma main_launches_the_configuration_witness :
  launches boot
    (snd (main (os_exiting 0)
            [service_entry "A" "python" (Some 1) (Some true) (Some true) (Some 1);
             service_entry "B" "python" (Some 2) None None None] boot)) = 3%nat /\
  monitors boot
    (snd (main (os_exiting 0)
            [service_entry "A" "python" (Some 1) (Some true) (Some true) (Some 1);
             service_entry "B" "python" (Some 2) None None None] boot)) = 1%nat.
Proof.
  destruct (main_launches_the_configuration (os_exiting 0) 4
              [service_entry "A" "python" (Some 1) (Some true) (Some true) (Some 1);
               service_entry "B" "python" (Some 2) None None None] boot
              eq_refl I eq_refl (fun _ _ _ _ => eq_refl)) as (A & B & _).
  split; [exact A|exact B].
Defined.

(** ** The environment of a child *)

Lemma env_get_env_set k k' v e :
  env_get k (env_set k' v e) = if String.eqb k k' then Some v else env_get k e.
Proof.
  induction e as [|[k1 v1] e IH]; cbn [env_set env_get]; [reflexivity|].
  destruct (String.eqb_spec k' k1) as [->|N1]; cbn [env_get].
  - now destruct (String.eqb k k1).
  - rewrite IH. destruct (String.eqb_spec k k1) as [->|N2]; [|reflexivity].
    destruct (String.eqb_spec k1 k') as [E|_]; [congruence|reflexivity].
Qed.

Lemma env_get_app k l1 l2 :
  env_get k (l1 ++ l2) =
  match env_get k l1 with Some v => Some v | None => env_get k l2 end.
Proof.
  induction l1 as [|[k1 v1] l1 IH]; cbn [app env_get]; [reflexivity|].
  now destruct (String.eqb k k1).
Qed.

Lemma env_get_env_update k overrides e :
  env_get k (env_update e overrides) =
  match env_get k (rev overrides) with
  | Some v => Some v
  | None => env_get k e
  end.
Proof.
  unfold env_update. revert e.
  induction overrides as [|[k1 v1] overrides IH]; intros e; cbn [fold_left rev];
    [reflexivity|].
  rewrite IH, env_get_app, env_get_env_set. cbn [fst snd env_get].
  destruct (env_get k (rev overrides)); [reflexivity|].
  now destruct (String.eqb k k1).
Qed.

(** X10.  The environment handed to a child is the supervisor's own with
    the overrides of the service on top: a variable named in the [env] of
    the service has the value given there (the last one, should the name
    come twice), every other variable keeps the value it has in the
    supervisor's environment, and a variable set in neither is unset. *)
Theorem service_environment_overrides os service k :
  env_get k (service_environ os service) =
  match env_get k (rev (get (env service) [])) with
  | Some v => Some v
  | None => env_get k (os_environ os)
  end.
Proof. unfold service_environ. apply env_get_env_update. Qed.

(** ** Identities and names in the process table *)

Lemma contains_fresh w child :
  table_fresh w -> contains (mkPopen (next_obj w) child) (processes w) = false.
Proof.
  unfold table_fresh, contains. induction 1 as [|q l H _ IH]; [reflexivity|].
  cbn [existsb]. rewrite IH, orb_false_r. unfold same_object. cbn [obj].
  apply Nat.eqb_neq. lia.
Qed.

Lemma remove_last p l :
  contains p l = false -> remove p (l ++ [p]) = l.
Proof.
  unfold contains. induction l as [|q l IH]; cbn [existsb app remove].
  - intros _. unfold same_object. now rewrite Nat.eqb_refl.
  - intros H. apply orb_false_elim in H as [H1 H2]. rewrite H1. f_equal.
    now apply IH.
Qed.

Lemma contains_last p l : contains p (l ++ [p]) = true.
Proof.
  unfold contains. rewrite existsb_app. cbn [existsb]. unfold same_object.
  rewrite Nat.eqb_refl. now rewrite orb_true_r.
Qed.

(** X11.  Launching and forgetting are inverse on the table.  In a world
    whose table holds only objects created earlier, a successful
    [start_service] followed by the critical section of the monitor on
    the process just launched gives back the table as it was, with the
    lock file rewritten to its pids and the lock free; the name recorded
    for the pid stays in the map. *)
Theorem launch_then_forget os service instance_id w child :
  table_fresh w ->
  lock_held w = false ->
  os_popen os (clock w) (service_command service) (service_environ os service)
           (service_dir os service) = inr child ->
  exists process w1 w2,
    start_service os service instance_id w = (inr process, w1) /\
    forget_process process w1 = (inr tt, w2) /\
    processes w2 = processes w /\
    lock_file w2 = Pids (map pid (processes w)) /\
    lock_held w2 = false /\
    process_service_map w2 !! pid process = Some (name service).
Proof.
  intros F L P.
  exists (mkPopen (next_obj w) child), (after_launch os service instance_id child w).
  eexists. split; [now apply start_service_launches|].
  split; [now apply forget_process_free|].
  unfold after_forget, after_launch. world_simpl.
  rewrite contains_last, remove_last by now apply contains_fresh.
  world_simpl. repeat split. apply lookup_insert_eq.
Qed.

(** X11, at the start of the supervisor. *)
Lemma launch_then_forget_witness :
  exists process w1 w2,
    start_service (os_exiting 0)
      (service_entry "web" "python" None None None None) 0 boot
      = (inr process, w1) /\
    forget_process process w1 = (inr tt, w2) /\
    processes w2 = [].
Proof.
  destruct (launch_then_forget (os_exiting 0)
              (service_entry "web" "python" None None None None) 0 boot 1000)
    as (p & w1 & w2 & E1 & E2 & T & _).
  - constructor.
  - reflexivity.
  - reflexivity.
  - exists p, w1, w2. repeat split; assumption.
Defined.

(** *** Every tracked process has a name *)

Lemma invariant_ret {A} I (a : A) : invariant I (ret a).
Proof. intros w H. exact H. Qed.

Lemma invariant_bind {A B} I (c : M A) (k : A -> M B) :
  invariant I c -> (forall a, invariant I (k a)) -> invariant I (bind c k).
Proof.
  intros Hc Hk w H. unfold bind. specialize (Hc w H).
  destruct (c w) as [[f|a] w']; cbn [snd] in *; [exact Hc|]. now apply Hk.
Qed.

Lemma invariant_for_fold {A S} I (xs : list A) (s : S) body :
  (forall x s, invariant I (body x s)) -> invariant I (for_fold xs s body).
Proof.
  intros Hb. revert s. induction xs as [|x xs IH]; intros s; cbn [for_fold].
  - apply invariant_ret.
  - apply invariant_bind; [apply Hb|intros s'; apply IH].
Qed.

Lemma invariant_when I c body : invariant I body -> invariant I (when c body).
Proof. intros H. destruct c; [exact H|apply invariant_ret]. Qed.

(** A computation that leaves the table alone keeps [named]. *)
Lemma named_keeps {A} (c : M A) : keeps table c -> invariant named c.
Proof.
  intros K w H p. specialize (K w). unfold table in K.
  inversion K as [[K1 K2]]. rewrite K1, K2. apply H.
Qed.

Lemma In_remove p q l : In p (remove q l) -> In p l.
Proof.
  induction l as [|x l IH]; cbn [remove]; [tauto|].
  destruct (same_object q x); cbn [In]; tauto.
Qed.

Lemma named_forget_process process : invariant named (forget_process process).
Proof.
  intros w H. destruct (lock_held w) eqn:L.
  - now rewrite (forget_process_blocked _ _ L).
  - rewrite (forget_process_free _ _ L). unfold after_forget.
    destruct (contains process (processes w)); [|exact H].
    intros p I. world_simpl. apply H. eapply In_remove, I.
Qed.

Lemma named_start_service os service instance_id :
  invariant named (start_service os service instance_id).
Proof.
  intros w H.
  destruct (os_popen os (clock w) (service_command service)
              (service_environ os service) (service_dir os service))
    as [e|child] eqn:P.
  - rewrite (start_service_fails _ _ _ _ _ P). exact H.
  - destruct (lock_held w) eqn:L.
    + rewrite (start_service_blocked _ _ _ _ _ L P). exact H.
    + rewrite (start_service_launches _ _ _ _ _ L P). unfold after_launch.
      intros p I. world_simpl. apply in_app_or in I as [I|[<-|[]]].
      * destruct (decide (child = pid p)) as [->|N].
        -- rewrite lookup_insert_eq. eauto.
        -- rewrite lookup_insert_ne by exact N. now apply H.
      * cbn [pid]. rewrite lookup_insert_eq. eauto.
Qed.

Lemma keeps_table_terminate_existing_processes os :
  keeps table (terminate_existing_processes os).
Proof.
  unfold terminate_existing_processes, terminate_one.
  keeps_walk; try reflexivity;
    first [now apply keeps_clear_lock_file|now apply keeps_dump_lock_file].
Qed.

Lemma named_monitor_body os service instance_id max_restarts restarts process :
  invariant named
    (monitor_body os service instance_id max_restarts restarts process).
Proof.
  unfold monitor_body, monitor_decide.
  apply invariant_bind; [apply named_keeps; keeps_walk|intros _].
  apply invariant_bind; [apply named_forget_process|intros _].
  apply invariant_bind; [apply named_keeps; keeps_walk|intros down].
  destruct down; [apply invariant_ret|].
  apply invariant_bind; [apply named_keeps; keeps_walk|intros rc].
  apply invariant_bind; [apply named_keeps; keeps_walk|intros _].
  destruct ((restarts <? max_restarts) && get (autorestart service) false).
  - apply invariant_bind; [apply named_keeps; keeps_walk|intros _].
    apply invariant_bind; [apply named_start_service|intros p].
    apply invariant_ret.
  - destruct (restarts =? max_restarts);
      (apply invariant_bind; [|intros _; apply invariant_ret]);
      apply invariant_when.
    + apply invariant_bind; [apply named_keeps; keeps_walk|intros _].
      apply named_keeps, keeps_table_handle_exit.
    + apply named_keeps. keeps_walk.
Qed.

Lemma named_monitor_loop os service instance_id max_restarts fuel :
  forall restarts process w,
    named w ->
    named (snd (monitor_loop os fuel service instance_id max_restarts
                  restarts process w)).
Proof.
  induction fuel as [|fuel IH]; intros restarts process w H; cbn [monitor_loop];
    destruct ((restarts <=? max_restarts) && negb (shutdown w)); try exact H.
  pose proof (named_monitor_body os service instance_id max_restarts restarts
                process w H) as H1.
  destruct (monitor_body os service instance_id max_restarts restarts process w)
    as [[a|[|r p]] w1]; cbn [snd] in *; try exact H1. now apply IH.
Qed.

Lemma named_main os services : invariant named (main os services).
Proof.
  unfold main, main_startup, main_service, instance_count, launch_instance.
  do 3 (apply invariant_bind; [apply named_keeps; keeps_walk; reflexivity|intros _]).
  apply invariant_bind;
    [apply named_keeps, keeps_table_terminate_existing_processes|intros _].
  apply invariant_bind.
  - apply invariant_for_fold. intros service started.
    destruct (get (disabled service) false); [apply named_keeps; keeps_walk|].
    apply invariant_bind; [apply named_keeps; keeps_walk|intros n].
    apply invariant_for_fold. intros i s.
    apply invariant_bind; [apply named_start_service|intros p].
    apply named_keeps. keeps_walk.
  - intros started. apply named_keeps. keeps_walk.
Qed.

(** X12.  Every tracked process has a service name.  If every process of
    the table has its pid in [process_service_map], this is still so after
    [start_service], after [monitor_service] (for any length of run),
    after [cleanup_processes], [handle_exit],
    [terminate_existing_processes] and [main], however they end; it holds
    at the start of the supervisor.  In such a world the name that the
    shutdown looks up for a tracked process is the recorded one, never the
    default "Unknown service". *)
Theorem tracked_processes_are_named os w :
  named w ->
  (forall service instance_id,
      named (snd (start_service os service instance_id w))) /\
  (forall fuel service process instance_id,
      named (snd (monitor_service os fuel service process instance_id w))) /\
  named (snd (cleanup_processes os w)) /\
  (forall signum, named (snd (handle_exit os signum w))) /\
  named (snd (terminate_existing_processes os w)) /\
  (forall services, named (snd (main os services w))) /\
  (forall process, In process (processes w) ->
     exists service_name,
       process_service_map w !! pid process = Some service_name /\
       service_name_of process w = (inr service_name, w)).
Proof.
  intros H. repeat split.
  - intros service instance_id. now apply named_start_service.
  - intros fuel service process instance_id. now apply named_monitor_loop.
  - now apply (named_keeps _ (keeps_table_cleanup_processes os)).
  - intros signum. now apply (named_keeps _ (keeps_table_handle_exit os signum)).
  - now apply (named_keeps _ (keeps_table_terminate_existing_processes os)).
  - intros services. now apply named_main.
  - intros process I. destruct (H process I) as [service_name E].
    exists service_name. split; [exact E|].
    unfold service_name_of, read. now rewrite E.
Qed.

(** X12, from the start of the supervisor through [main]. *)
Lemma tracked_processes_are_named_witness :
  named (snd (main (os_exiting 0)
                [service_entry "web" "python" (Some 2) None None None] boot)).
Proof.
  destruct (tracked_processes_are_named (os_exiting 0) boot) as (_ & _ & _ & _ & _ & H & _).
  - intros p [].
  - apply H.
Defined.

(** ** The shutdown sequence and the signal handler, end to end *)

(** X13.  The shutdown sequence in order.  With the flag down, the lock
    free and the process group of every tracked process found,
    [cleanup_processes] returns, and its events are, in this order: the
    SIGTERM pass with exactly one signal per tracked process, the line
    "Cleaning up services..." and the one-second sleep, the SIGKILL pass
    with at most one signal per tracked process, the reaping pass of
    five-second waits, the removal of the lock file if there is one, and
    the closing line.  A signal that cannot be delivered is logged inside
    its pass and does not stop the sequence.  Afterwards the flag is up,
    the lock file is gone, the lock is free and the table is as it was. *)
Theorem shutdown_passes_in_order os w :
  shutdown w = false ->
  lock_held w = false ->
  (forall t p, In p (processes w) -> found (os_getpgid os t (pid p)) = true) ->
  exists w' term kill reap,
    cleanup_processes os w = (inr tt, w') /\
    shutdown w' = true /\ lock_file w' = Absent /\ lock_held w' = false /\
    processes w' = processes w /\
    new_events w w' =
      term ++ [EvLog INFO MsgCleaningUp; EvSleep 1] ++ kill ++ reap ++
      repersist_events (lock_file w) [] ++ [EvLog INFO MsgCleanupComplete] /\
    Forall (signal_event SIGTERM) term /\
    count is_kill term = length (processes w) /\
    Forall (signal_event SIGKILL) kill /\
    (count is_kill kill <= length (processes w))%nat /\
    Forall reap_event reap.
Proof.
  intros S L G.
  destruct (cleanup_processes_sequence os w S L G)
    as (w' & term & kill & reap & E & H1 & H2 & H3 & H4 & H5 & H6 & H7 & H8 & H9 & _).
  exists w', term, kill, reap.
  pose proof (keeps_table_cleanup_processes os w) as K. rewrite E in K.
  unfold table in K. cbn [snd] in K. injection K as K1 K2.
  repeat split; assumption.
Qed.

(** X13, for two tracked processes that do not exit: two SIGTERM, then two
    SIGKILL. *)
Lemma shutdown_passes_in_order_witness :
  exists w' term kill reap,
    cleanup_processes os_stubborn two_tracked = (inr tt, w') /\
    new_events two_tracked w' =
      term ++ [EvLog INFO MsgCleaningUp; EvSleep 1] ++ kill ++ reap ++
      [EvRemoveLock] ++ [EvLog INFO MsgCleanupComplete] /\
    count is_kill term = 2%nat /\ lock_file w' = Absent.
Proof.
  destruct (shutdown_passes_in_order os_stubborn two_tracked)
    as (w' & term & kill & reap & E & _ & F & _ & _ & T & _ & C & _).
  - reflexivity.
  - reflexivity.
  - intros t p _. reflexivity.
  - exists w', term, kill, reap. repeat split; assumption.
Defined.

(** What a sweep adds to the trace: warnings and delivered SIGKILLs, at
    most one signal per process. *)
Lemma backstop_sweep_events os w ps evs :
  backstop_sweep os w ps evs ->
  Forall backstop_event evs /\ (count is_kill evs <= length ps)%nat.
Proof.
  induction 1 as [w|w p ps evs c w' _ _ [IH1 IH2]|w p ps evs w' g _ _ _ [IH1 IH2]].
  - split; [constructor|cbn; lia].
  - split; [exact IH1|cbn [length]; lia].
  - split; [now repeat constructor|].
    change (count is_kill (EvLog WARNING (MsgStillRunning (pid p)) ::
                           EvKillpg g SIGKILL None :: evs))
      with (S (count is_kill evs)).
    cbn [length]. lia.
Qed.

(** The last loop of [handle_exit] when lookups succeed and SIGKILL is
    delivered. *)
Lemma backstop_pass os ps :
  (forall t p, In p ps -> found (os_getpgid os t (pid p)) = true) ->
  (forall t g, os_killpg os t g SIGKILL = None) ->
  forall w, exists w' evs,
    for_each ps (fun process =>
      let! status := poll os process in
      match status with
      | None =>
          logger WARNING (MsgStillRunning (pid process)) >>
          let! g := getpgid os (pid process) in
          killpg os g SIGKILL
      | Some _ => ret tt
      end) w = (inr tt, w') /\
    table_kept w w' /\ trace w' = trace w ++ evs /\
    backstop_sweep os w ps evs.
Proof.
  intros G D. induction ps as [|p ps IH]; intros w.
  - exists w, []. rewrite app_nil_r. split; [reflexivity|].
    split; [apply table_kept_refl|]. split; [reflexivity|constructor].
  - cbn [for_each].
    destruct (poll_result os p w) as (status & w0 & E0 & K0 & T0).
    destruct status as [c|].
    + destruct (IH (fun t q I => G t q (or_intror I)) w0)
        as (w2 & e2 & E2 & K2 & T2 & R2).
      exists w2, e2.
      erewrite bind_returns; [|erewrite bind_returns; [|exact E0]; reflexivity].
      split; [exact E2|].
      split; [eapply table_kept_trans; eassumption|].
      split; [rewrite T2, T0; reflexivity|].
      eapply sweep_exited; eassumption.
    + set (w1 := emit (EvLog WARNING (MsgStillRunning (pid p))) w0).
      destruct (os_getpgid os (clock w0) (pid p)) as [c|g] eqn:Gp.
      { specialize (G (clock w0) p (or_introl eq_refl)). rewrite Gp in G.
        discriminate G. }
      set (w3 := tick (emit (EvKillpg g SIGKILL None) (tick w1))).
      destruct (IH (fun t q I => G t q (or_intror I)) w3)
        as (w2 & e2 & E2 & K2 & T2 & R2).
      exists w2, (EvLog WARNING (MsgStillRunning (pid p)) ::
                  EvKillpg g SIGKILL None :: e2).
      assert (E1 : (logger WARNING (MsgStillRunning (pid p)) >>
                    let! g := getpgid os (pid p) in killpg os g SIGKILL) w0
                   = (inr tt, w3)).
      { erewrite bind_returns; [|reflexivity]. fold w1.
        erewrite bind_returns;
          [|unfold getpgid; change (clock w1) with (clock w0); rewrite Gp;
            reflexivity].
        rewrite killpg_result, D. reflexivity. }
      erewrite bind_returns; [|erewrite bind_returns; [|exact E0]; exact E1].
      split; [exact E2|].
      destruct K0 as (K01 & K02 & K03 & K04 & K05).
      destruct K2 as (K21 & K22 & K23 & K24 & K25).
      unfold w3, w1 in *. world_simpl.
      split; [repeat split; congruence|].
      split; [rewrite T2; world_simpl; rewrite T0, <- !app_assoc; reflexivity|].
      eapply sweep_running; eassumption.
Qed.

(** [handle_exit] from beginning to end when the process groups are
    found and SIGKILL is delivered. *)
Lemma handle_exit_sequence os signum w :
  shutdown w = false ->
  lock_held w = false ->
  (forall t p, In p (processes w) -> found (os_getpgid os t (pid p)) = true) ->
  (forall t g, os_killpg os t g SIGKILL = None) ->
  exists w' wc term kill reap backstop,
    handle_exit os signum w = (inl (OsExit 1), w') /\
    shutdown w' = true /\ lock_file w' = Absent /\ lock_held w' = false /\
    processes w' = processes w /\
    new_events w w' =
      EvLog INFO MsgTerminating ::
      term ++ [EvLog INFO MsgCleaningUp; EvSleep 1] ++ kill ++ reap ++
      repersist_events (lock_file w) [] ++ [EvLog INFO MsgCleanupComplete] ++
      backstop /\
    Forall (signal_event SIGTERM) term /\
    count is_kill term = length (processes w) /\
    Forall2 (group_of os) (processes w) (sigterm_groups term) /\
    Forall (signal_event SIGKILL) kill /\
    Forall reap_event reap /\
    cleanup_processes os (emit (EvLog INFO MsgTerminating) w) = (inr tt, wc) /\
    backstop_sweep os (set_lock_held true wc) (processes w) backstop.
Proof.
  intros S L G D. unfold handle_exit.
  erewrite bind_returns; [|reflexivity]. rewrite S.
  erewrite bind_returns; [|reflexivity].
  set (w0 := emit (EvLog INFO MsgTerminating) w).
  destruct (cleanup_processes_sequence os w0 S L G)
    as (w1 & term & kill & reap & E1 & S1 & F1 & L1 & T1 & Q1 & C1 & Q2 & _ & Q3 & G3).
  erewrite bind_returns; [|exact E1].
  pose proof (keeps_table_cleanup_processes os w0) as K. rewrite E1 in K.
  unfold table in K. cbn [snd] in K. injection K as P1 _.
  change (processes w0) with (processes w) in P1.
  destruct (emits_cleanup_processes os w0) as [_ (e1 & T1' & _)].
  rewrite E1 in T1'. cbn [snd] in T1'.
  rewrite (new_events_app _ _ _ T1') in T1. subst e1.
  change (lock_file w0) with (lock_file w) in T1'.
  change (trace w0) with (trace w ++ [EvLog INFO MsgTerminating]) in T1'.
  assert (B : exists w2 backstop,
    (let! ps := read processes in
     when (0 <? Z.of_nat (length ps))
       (for_each ps (fun process =>
          let! status := poll os process in
          match status with
          | None =>
              logger WARNING (MsgStillRunning (pid process)) >>
              let! g := getpgid os (pid process) in
              killpg os g SIGKILL
          | Some _ => ret tt
          end))) (set_lock_held true w1) = (inr tt, w2) /\
    shutdown w2 = true /\ lock_file w2 = Absent /\
    processes w2 = processes w /\
    trace w2 = trace w1 ++ backstop /\
    backstop_sweep os (set_lock_held true w1) (processes w) backstop).
  { erewrite bind_returns; [|reflexivity]. world_simpl. rewrite P1.
    destruct (0 <? Z.of_nat (length (processes w))) eqn:Z0; cbn [when].
    - destruct (backstop_pass os (processes w) G D (set_lock_held true w1))
        as (w2 & evs & E2 & (K1 & K2 & _ & _ & K5) & T2 & R2).
      exists w2, evs. split; [exact E2|]. world_simpl.
      repeat split; try assumption; congruence.
    - exists (set_lock_held true w1), []. split; [reflexivity|].
      world_simpl. rewrite app_nil_r.
      repeat split; try assumption.
      destruct (processes w); [constructor|discriminate Z0]. }
  destruct B as (w2 & backstop & E2 & S2 & F2 & P2 & T2 & R2).
  erewrite bind_returns; [|apply with_lock_free; [exact L1|exact E2]].
  exists (set_lock_held false w2), w1, term, kill, reap, backstop.
  split; [reflexivity|]. world_simpl.
  assert (C1' : count is_kill term = length (processes w)) by exact C1.
  assert (G3' : Forall2 (group_of os) (processes w) (sigterm_groups term))
    by exact G3.
  repeat split; try assumption.
  apply new_events_app. world_simpl. rewrite T2, T1'.
  rewrite <- !app_assoc. reflexivity.
Qed.

(** *** A monitor without restart budget *)

(** C2, as the code has it.  A monitor with [max_restarts = 0] never
    restarts: whatever the children and the kernel do and however long
    the loop runs, nothing is launched.  A non-zero exit is logged as an
    error and then, since [restarts == max_restarts] holds from the
    start, treated as an exhausted budget: the warning is logged,
    [handle_exit] is called and sets the shutdown flag, and
    [monitor_service] does not return.  When the process group of every
    process left in the table is found and SIGKILL is delivered, the
    shutdown goes through: SIGTERM is sent once to the group of each
    process left in the table, in its order, these being the processes of
    all services, the lock file is removed and the supervisor ends
    through [os._exit(1)]. *)
Theorem monitor_without_budget os service process instance_id w :
  get (max_restarts service) 0 = 0 ->
  (forall fuel,
      count is_spawn
        (new_events w (snd (monitor_service os fuel service process instance_id w)))
      = 0%nat) /\
  (monitoring process w ->
   exits_nonzero (os_wait os (clock w) process) = true ->
   forall fuel, exists a w' c,
       monitor_service os (S fuel) service process instance_id w
         = (Some (inl a), w') /\
       shutdown w' = true /\
       In (EvLog ERROR (MsgExitedWithError instance_id (name service) c))
          (new_events w w') /\
       In (EvLog WARNING (MsgExceeded instance_id (name service) 0))
          (new_events w w') /\
       In (EvLog INFO MsgTerminating) (new_events w w')) /\
  (monitoring process w ->
   exits_nonzero (os_wait os (clock w) process) = true ->
   (forall t p, In p (processes (after_forget process w)) ->
                found (os_getpgid os t (pid p)) = true) ->
   (forall t g, os_killpg os t g SIGKILL = None) ->
   forall fuel, exists w' before term after,
       monitor_service os (S fuel) service process instance_id w
         = (Some (inl (OsExit 1)), w') /\
       shutdown w' = true /\ lock_file w' = Absent /\
       processes w' = processes (after_forget process w) /\
       new_events w w' =
         before ++
         EvLog WARNING (MsgExceeded instance_id (name service) 0) ::
         EvLog INFO MsgTerminating :: term ++ after /\
       Forall calm_event before /\
       Forall (signal_event SIGTERM) term /\
       Forall2 (group_of os) (processes (after_forget process w))
               (sigterm_groups term)).
Proof.
  intros MR. unfold monitor_service. rewrite MR. split; [|split].
  - intros fuel.
    destruct (monitor_loop_no_budget os service instance_id 0 process fuel w)
      as [_ (evs & T & Q)].
    rewrite (new_events_app _ _ _ T). now apply calm_counts.
  - intros Mo X fuel.
    destruct (monitor_body_exhausted os service instance_id 0 process w Mo X)
      as (a & w' & c & before & after & E & S & T & _ & I & _).
    exists a, w', c.
    rewrite monitor_loop_turn, E; [|lia|apply Mo].
    rewrite (new_events_app _ _ _ T). repeat split.
    + exact S.
    + apply in_or_app. now left.
    + apply in_or_app. right. now left.
    + apply in_or_app. right. right. now left.
  - intros Mo X G D fuel.
    destruct (monitor_body_reaps os service instance_id 0 0 process w Mo X)
      as (c & w1 & e1 & C & E1 & S1 & L1 & N1 & Fr1 & T1 & Q1 & I1 & P1).
    set (w2 := emit (EvLog WARNING (MsgExceeded instance_id (name service) 0)) w1).
    assert (G2 : forall t p, In p (processes w2) ->
                             found (os_getpgid os t (pid p)) = true).
    { intros t p I. apply G. rewrite <- P1. exact I. }
    destruct (handle_exit_sequence os SIGTERM w2 S1 L1 G2 D)
      as (w3 & wc & term & kill & reap & backstop & E3 & S3 & F3 & L3 & P3 &
          T3 & Q3 & C3 & G3 & _).
    exists w3, e1, term,
      ([EvLog INFO MsgCleaningUp; EvSleep 1] ++ kill ++ reap ++
       repersist_events (lock_file w2) [] ++ [EvLog INFO MsgCleanupComplete] ++
       backstop).
    assert (E : monitor_body os service instance_id 0 0 process w =
                (inl (OsExit 1), w3)).
    { rewrite E1. unfold monitor_decide.
      rewrite Z.ltb_irrefl, Z.eqb_refl. cbn [andb].
      assert (Fc : failed (Some c) = true)
        by (destruct c; [congruence|reflexivity..]).
      rewrite Fc. cbn [when].
      erewrite bind_aborts; [reflexivity|].
      erewrite bind_returns; [|reflexivity]. exact E3. }
    rewrite monitor_loop_turn, E; [|lia|apply Mo].
    assert (T : trace w3 = trace w2 ++ new_events w2 w3).
    { destruct (emits_handle_exit os SIGTERM w2) as [_ (e3 & Te & _)].
      rewrite E3 in Te. cbn [snd] in Te.
      now rewrite (new_events_app _ _ _ Te). }
    split; [reflexivity|]. split; [exact S3|]. split; [exact F3|].
    split; [rewrite P3; exact P1|].
    split.
    { apply new_events_app. rewrite T, T3. unfold w2. world_simpl.
      rewrite T1. rewrite <- !app_assoc. reflexivity. }
    split; [exact Q1|]. split; [exact Q3|].
    rewrite <- P1. exact G3.
Qed.

(** C2, on a machine where the child exits with status 1 and another
    service has a process in the table: the supervisor is ended, and the
    process of the other service is the one left in the table. *)
Lemma monitor_without_budget_witness :
  exists w',
    monitor_service (os_exiting 1) 1
      (service_entry "web" "python" None (Some true) None (Some 0))
      (mkPopen 0 4242) 0 two_tracked = (Some (inl (OsExit 1)), w') /\
    shutdown w' = true /\
    processes w' = [mkPopen 1 4343].
Proof.
  destruct (monitor_without_budget (os_exiting 1)
              (service_entry "web" "python" None (Some true) None (Some 0))
              (mkPopen 0 4242) 0 two_tracked eq_refl) as (_ & _ & H).
  destruct H with (fuel := 0%nat) as (w' & before & term & after & E & S & _ & P & _).
  - repeat split; try reflexivity. cbn. lia.
  - reflexivity.
  - intros t p _. reflexivity.
  - intros t g. reflexivity.
  - exists w'. repeat split; assumption.
Defined.

(** *** The signal handler *)

(** X14.  The signal handler ends the interpreter with status 1.  With the
    flag down, the lock free, the process group of every tracked process
    found and every SIGKILL delivered, [handle_exit], whatever its signal
    number, logs "Terminating services...", runs the whole shutdown
    sequence, in which SIGTERM goes once to the group of each tracked
    process, then goes through the table once more: a process whose
    [poll()] gives an exit status is passed over, and a process whose
    [poll()] gives [None] gets a warning and one more SIGKILL to its
    group.  It then leaves through [os._exit(1)]: it does not return and
    raises nothing.  The flag is up, the lock file gone, the lock free and
    the table as it was. *)
Theorem signal_handler_exits_with_one os signum w :
  shutdown w = false ->
  lock_held w = false ->
  (forall t p, In p (processes w) -> found (os_getpgid os t (pid p)) = true) ->
  (forall t g, os_killpg os t g SIGKILL = None) ->
  exists w' wc term kill reap backstop,
    handle_exit os signum w = (inl (OsExit 1), w') /\
    shutdown w' = true /\ lock_file w' = Absent /\ lock_held w' = false /\
    processes w' = processes w /\
    new_events w w' =
      EvLog INFO MsgTerminating ::
      term ++ [EvLog INFO MsgCleaningUp; EvSleep 1] ++ kill ++ reap ++
      repersist_events (lock_file w) [] ++ [EvLog INFO MsgCleanupComplete] ++
      backstop /\
    Forall (signal_event SIGTERM) term /\
    count is_kill term = length (processes w) /\
    Forall2 (group_of os) (processes w) (sigterm_groups term) /\
    Forall (signal_event SIGKILL) kill /\
    Forall reap_event reap /\
    cleanup_processes os (emit (EvLog INFO MsgTerminating) w) = (inr tt, wc) /\
    backstop_sweep os (set_lock_held true wc) (processes w) backstop /\
    Forall backstop_event backstop /\
    (count is_kill backstop <= length (processes w))%nat.
Proof.
  intros S L G D.
  destruct (handle_exit_sequence os signum w S L G D)
    as (w' & wc & term & kill & reap & backstop & E & H1 & H2 & H3 & H4 & H5 &
        H6 & H7 & H8 & H9 & H10 & H11 & H12).
  destruct (backstop_sweep_events _ _ _ _ H12) as [H13 H14].
  exists w', wc, term, kill, reap, backstop. repeat split; assumption.
Qed.

(** X14, for two tracked processes that do not exit: the handler sends
    SIGTERM and SIGKILL to both groups, finds both still running in its
    last loop, sends SIGKILL again, and leaves with status 1. *)
Lemma signal_handler_exits_with_one_witness :
  exists w',
    handle_exit os_stubborn SIGINT two_tracked = (inl (OsExit 1), w') /\
    List.filter is_kill (new_events two_tracked w') =
      [EvKillpg 4242 SIGTERM None; EvKillpg 4343 SIGTERM None;
       EvKillpg 4242 SIGKILL None; EvKillpg 4343 SIGKILL None;
       EvKillpg 4242 SIGKILL None; EvKillpg 4343 SIGKILL None] /\
    processes w' = processes two_tracked.
Proof.
  destruct (signal_handler_exits_with_one os_stubborn SIGINT two_tracked)
    as (w' & wc & term & kill & reap & backstop & E & _ & _ & _ & P & _).
  - reflexivity.
  - reflexivity.
  - intros t p _. reflexivity.
  - intros t g. reflexivity.
  - exists w'. split; [exact E|]. split; [|exact P].
    replace w' with (snd (handle_exit os_stubborn SIGINT two_tracked))
      by (rewrite E; reflexivity).
    reflexivity.
Defined.

(** ** Start-up on a machine that cannot count its processors *)

Lemma for_fold_app {A S} (xs ys : list A) (s : S) body w :
  for_fold (xs ++ ys) s body w =
  bind (for_fold xs s body) (fun s' => for_fold ys s' body) w.
Proof.
  revert s w. induction xs as [|x xs IH]; intros s w; cbn [app for_fold].
  - reflexivity.
  - unfold bind.
    destruct (body x s w) as [[f|s'] w']; [reflexivity|].
    rewrite IH. reflexivity.
Qed.

(** X15.  A relative instance count needs the number of processors.  When
    [os.cpu_count()] gives [None], the first enabled service of the
    configuration with a negative [instances] ends start-up with a
    TypeError, before any launch for it: the services after it are never
    looked at, no "No services to start" line is written, and whatever the
    services before it launched stays as it is, tracked and running. *)
Theorem unknown_cpu_count_aborts_startup os pre service post n started w w1 :
  os_cpu_count os = None ->
  get (disabled service) false = false ->
  instances service = Some n ->
  n < 0 ->
  for_fold pre false (main_service os None) w = (inr started, w1) ->
  main_startup os (pre ++ service :: post) w = (inl (Raised TypeError), w1).
Proof.
  intros C D I N E. unfold main_startup. rewrite C.
  erewrite bind_aborts; [reflexivity|].
  rewrite for_fold_app. erewrite bind_returns; [|exact E].
  cbn [for_fold]. erewrite bind_aborts; [reflexivity|].
  unfold main_service. rewrite D.
  erewrite bind_aborts; [reflexivity|].
  unfold instance_count. rewrite I. cbn [get].
  apply Z.ltb_lt in N. rewrite N. reflexivity.
Qed.

(** X15, after one service that was launched: the process stays in the
    table. *)
Lemma unknown_cpu_count_aborts_startup_witness :
  exists w1,
    main_startup os_uncounted
      ([service_entry "web" "python" None None None None] ++
       service_entry "db" "python" (Some (-1)) None None None ::
       [service_entry "cache" "python" None None None None]) boot
    = (inl (Raised TypeError), w1) /\
    length (processes w1) = 1%nat.
Proof.
  eexists. split.
  - apply (unknown_cpu_count_aborts_startup os_uncounted
             [service_entry "web" "python" None None None None]
             (service_entry "db" "python" (Some (-1)) None None None)
             [service_entry "cache" "python" None None None None] (-1) true).
    + reflexivity.
    + reflexivity.
    + reflexivity.
    + lia.
    + vm_compute. reflexivity.
  - reflexivity.
Defined.
